(** * EDT Pipeline Studio: the two canvas editors

    A shallow embedding of the document handling of the two React editors
    of the repository,

    - [PipelineEditor]          (studio/pipeline_canvas_editor.tsx) and
    - [EnhancedPipelineEditor]  (the second editor source),

    and the properties of load, export, service creation, ticking and the
    execution log that hold of them.

    The SPC document is whatever [JSON.parse] produced or the handlers
    built: a JavaScript value.  React state is an explicit record; each
    handler is a function from the editor state to the next one.  What
    the handlers read from the platform is an argument: a clock reading
    for every [new Date()] / [Date.now()], and the outcome of
    [JSON.parse] on the text of an imported file.

    The JSX of the components is not part of the model.  The handlers
    are defined on every document, also on one that a component cannot
    render (in the enhanced editor a service without [position], in
    either editor a document without [meta]): the real editor is
    unmounted at the next render of such a document. *)

From Stdlib Require Import String Ascii List ZArith Bool Arith Lia DecimalString.
Import ListNotations.
Local Open Scope list_scope.
Local Open Scope string_scope.
Set Warnings "-register-all".

(** ** JavaScript values *)

Module JS.

(** Values that [JSON.parse] yields and that the object literals of the
    editors build.  A number is an integer here: the editors themselves
    only write integers (positions, window sizes, counters); fractions
    are outside this model.  An object is its list of own properties in
    enumeration order. *)
Inductive JSON : Type :=
| JNull
| JBool (b : bool)
| JNum (n : Z)
| JStr (s : string)
| JArr (items : list JSON)
| JObj (props : list (string * JSON)).

(** The result of reading a property: [None] is [undefined]. *)
Definition Value : Type := option JSON.
Definition undefined : Value := None.

(** Exceptions, with their [message]. *)
Inductive Exn : Type :=
| SyntaxError (msg : string)
| TypeError (msg : string)
| Error (msg : string).

Definition exn_message (e : Exn) : string :=
  match e with
  | SyntaxError m | TypeError m | Error m => m
  end.

(** A computation that returns or throws. *)
Definition Result (A : Type) : Type := (Exn + A)%type.
Definition Return {A : Type} (a : A) : Result A := inr a.
Definition Throw {A : Type} (e : Exn) : Result A := inl e.

Definition bind {A B : Type} (c : Result A) (k : A -> Result B) : Result B :=
  match c with
  | inl e => inl e
  | inr a => k a
  end.

Definition string_of_nat (n : nat) : string :=
  NilZero.string_of_uint (Nat.to_uint n).

Definition string_of_Z (n : Z) : string :=
  NilZero.string_of_int (Z.to_int n).

(** Own property lookup, [props[k]]. *)
Fixpoint lookup (k : string) (props : list (string * JSON)) : Value :=
  match props with
  | [] => None
  | (k', v) :: rest => if k' =? k then Some v else lookup k rest
  end.

(** [props[k] = v]: an existing property keeps its place, a new one goes
    last.  (The keys the editors write, ["services"], ["lastRun"] and the
    generated ids, are never array indices, which JavaScript would order
    first.) *)
Fixpoint set_prop (k : string) (v : JSON) (props : list (string * JSON))
  : list (string * JSON) :=
  match props with
  | [] => [(k, v)]
  | (k', v') :: rest =>
      if k' =? k then (k, v) :: rest else (k', v') :: set_prop k v rest
  end.

Fixpoint indexed (i : nat) (items : list JSON) : list (string * JSON) :=
  match items with
  | [] => []
  | x :: rest => (string_of_nat i, x) :: indexed (S i) rest
  end.

Definition chars (s : string) : list JSON :=
  map (fun c => JStr (String c EmptyString)) (list_ascii_of_string s).

(** Own enumerable string-keyed properties: what [Object.keys],
    [Object.values] and object spread see. *)
Definition own_entries (v : JSON) : list (string * JSON) :=
  match v with
  | JObj props => props
  | JArr items => indexed 0 items
  | JStr s => indexed 0 (chars s)
  | JNull | JBool _ | JNum _ => []
  end.

(** [{...v}]: spreading [null] or [undefined] copies nothing. *)
Definition spread (v : Value) : list (string * JSON) :=
  match v with
  | None => []
  | Some j => own_entries j
  end.

Definition cannot_read (what k : string) : Exn :=
  TypeError ("Cannot read properties of " ++ what ++ " (reading '" ++ k ++ "')").

(** [v.k] for data properties.  (Prototype members are methods, not data;
    the keys read by the editors never name one.) *)
Definition get (v : Value) (k : string) : Result Value :=
  match v with
  | None => Throw (cannot_read "undefined" k)
  | Some JNull => Throw (cannot_read "null" k)
  | Some (JObj props) => Return (lookup k props)
  | Some (JArr items) =>
      Return (if k =? "length" then Some (JNum (Z.of_nat (length items)))
              else lookup k (indexed 0 items))
  | Some (JStr s) =>
      Return (if k =? "length" then Some (JNum (Z.of_nat (String.length s)))
              else lookup k (indexed 0 (chars s)))
  | Some (JBool _) | Some (JNum _) => Return None
  end.

(** [Object.keys(v)] and [Object.values(v)]. *)
Definition Object_entries (v : Value) : Result (list (string * JSON)) :=
  match v with
  | None | Some JNull =>
      Throw (TypeError "Cannot convert undefined or null to object")
  | Some j => Return (own_entries j)
  end.

Definition Object_keys (v : Value) : Result (list string) :=
  bind (Object_entries v) (fun es => Return (map fst es)).

Definition Object_values (v : Value) : Result (list JSON) :=
  bind (Object_entries v) (fun es => Return (map snd es)).

(** ToBoolean. *)
Definition truthy (v : Value) : bool :=
  match v with
  | None | Some JNull => false
  | Some (JBool b) => b
  | Some (JNum n) => negb (n =? 0)%Z
  | Some (JStr s) => negb (s =? "")
  | Some (JArr _) | Some (JObj _) => true
  end.

(** [v === 'text']. *)
Definition is_string (text : string) (v : Value) : bool :=
  match v with
  | Some (JStr s) => s =? text
  | _ => false
  end.

(** *** [JSON.stringify(value, null, 2)]

    A number is printed as the decimal numeral of the integer, which is
    what JavaScript prints for the integers a document of the editors
    holds; from [10^21] on JavaScript switches to exponent notation,
    which is outside this model, as fractions are. *)

Definition dquote : ascii := Eval cbv in ascii_of_nat 34.
Definition linefeed : ascii := Eval cbv in ascii_of_nat 10.
Definition newline : string := String linefeed EmptyString.

Definition hex_digit (n : nat) : ascii :=
  ascii_of_nat (if n <? 10 then 48 + n else 87 + n)%nat.

(** QuoteJSONString on one character. *)
Definition escape_char (c : ascii) : string :=
  let n := nat_of_ascii c in
  if (n =? 8)%nat then "\b"
  else if (n =? 9)%nat then "\t"
  else if (n =? 10)%nat then "\n"
  else if (n =? 12)%nat then "\f"
  else if (n =? 13)%nat then "\r"
  else if (n =? 34)%nat then String "\"%char (String dquote EmptyString)
  else if (n =? 92)%nat then "\\"
  else if (n <? 32)%nat then
    "\u00" ++ String (hex_digit (n / 16)) (String (hex_digit (n mod 16)) EmptyString)
  else String c EmptyString.

Fixpoint escape (s : string) : string :=
  match s with
  | EmptyString => EmptyString
  | String c rest => escape_char c ++ escape rest
  end.

Definition quote_string (s : string) : string :=
  String dquote (escape s ++ String dquote EmptyString).

Fixpoint join (sep : string) (parts : list string) : string :=
  match parts with
  | [] => ""
  | [p] => p
  | p :: rest => p ++ sep ++ join sep rest
  end.

(** SerializeJSONProperty with a gap of two spaces; [indent] is the
    current indentation. *)
Fixpoint stringify_at (indent : string) (v : JSON) : string :=
  match v with
  | JNull => "null"
  | JBool true => "true"
  | JBool false => "false"
  | JNum n => string_of_Z n
  | JStr s => quote_string s
  | JArr [] => "[]"
  | JArr items =>
      let inner := indent ++ "  " in
      "[" ++ newline ++ inner
          ++ join ("," ++ newline ++ inner) (map (stringify_at inner) items)
          ++ newline ++ indent ++ "]"
  | JObj [] => "{}"
  | JObj props =>
      let inner := indent ++ "  " in
      "{" ++ newline ++ inner
          ++ join ("," ++ newline ++ inner)
               (map (fun p => match p with
                              | (k, x) => quote_string k ++ ": " ++ stringify_at inner x
                              end) props)
          ++ newline ++ indent ++ "}"
  end.

Definition JSON_stringify (v : JSON) : string := stringify_at "" v.

(** *** String methods used for the download name

    Text is ASCII here.  In JavaScript [\s] also matches the white space
    of Unicode beyond ASCII (U+00A0, U+2003, ...) and [toLowerCase] also
    lowers the capitals beyond ASCII; what is stated about the result of
    these two functions is stated for ASCII text. *)

(** An ASCII character matched by [\s]. *)
Definition is_space (c : ascii) : bool :=
  let n := nat_of_ascii c in
  (n =? 32)%nat || ((9 <=? n)%nat && (n <=? 13)%nat).

(** [s.replace(/\s+/g, '-')]: [in_run] says that the previous character
    was white space, already replaced. *)
Fixpoint replace_spaces (in_run : bool) (s : string) : string :=
  match s with
  | EmptyString => EmptyString
  | String c rest =>
      if is_space c
      then if in_run then replace_spaces true rest
           else String "-"%char (replace_spaces true rest)
      else String c (replace_spaces false rest)
  end.

(** [s.toLowerCase()] on ASCII text. *)
Definition lower_char (c : ascii) : ascii :=
  let n := nat_of_ascii c in
  if (65 <=? n)%nat && (n <=? 90)%nat then ascii_of_nat (n + 32) else c.

Fixpoint toLowerCase (s : string) : string :=
  match s with
  | EmptyString => EmptyString
  | String c rest => String (lower_char c) (toLowerCase rest)
  end.

(** [target[k] = v].  The editors only assign to objects. *)
Definition assign (k : string) (v : JSON) (target : JSON) : JSON :=
  match target with
  | JObj props => JObj (set_prop k v props)
  | other => other
  end.

(** [prev.slice(-n)]: the last [n] elements. *)
Definition slice_last {A : Type} (n : nat) (l : list A) : list A :=
  skipn (length l - n) l.

(** *** Own keys in enumeration order *)

Definition digit_value (c : ascii) : option N :=
  let n := N_of_ascii c in
  if ((48 <=? n) && (n <=? 57))%N then Some (n - 48)%N else None.

Fixpoint digits_value (acc : N) (s : string) : option N :=
  match s with
  | EmptyString => Some acc
  | String c rest =>
      match digit_value c with
      | Some d => digits_value (acc * 10 + d)%N rest
      | None => None
      end
  end.

(** A key that is an array index: a canonical decimal numeral below
    [2^32 - 1]. *)
Definition array_index (k : string) : option N :=
  match k with
  | EmptyString => None
  | String c rest =>
      if (c =? "0")%char
      then if rest =? "" then Some 0%N else None
      else match digits_value 0 k with
           | Some n => if (n <? 4294967295)%N then Some n else None
           | None => None
           end
  end.

(** A new array index goes among the array indices, in ascending order,
    which come before every other key. *)
Fixpoint insert_index (i : N) (k : string) (v : JSON) (props : list (string * JSON))
  : list (string * JSON) :=
  match props with
  | [] => [(k, v)]
  | (k', v') :: rest =>
      match array_index k' with
      | Some j =>
          if (j <? i)%N then (k', v') :: insert_index i k v rest
          else (k, v) :: props
      | None => (k, v) :: props
      end
  end.

(** [{ ...props, [k]: v }] for any key: an existing property keeps its
    place, a new array index is put in order, any other new key goes
    last. *)
Definition define_own (k : string) (v : JSON) (props : list (string * JSON))
  : list (string * JSON) :=
  match lookup k props, array_index k with
  | None, Some i => insert_index i k v props
  | _, _ => set_prop k v props
  end.

(** [{ ...props, ...more }]. *)
Definition merge (props more : list (string * JSON)) : list (string * JSON) :=
  fold_left (fun acc p => define_own (fst p) (snd p) acc) more props.

(** [delete props[k]]. *)
Fixpoint delete_prop (k : string) (props : list (string * JSON))
  : list (string * JSON) :=
  match props with
  | [] => []
  | (k', v) :: rest =>
      if k' =? k then delete_prop k rest else (k', v) :: delete_prop k rest
  end.

End JS.

Import JS.

Notation "x <- c ;; k" := (bind c (fun x => k))
  (at level 61, c at next level, right associativity).

(** ** Execution log entries

    Both editors append [{ level, message, timestamp }] objects, the
    timestamp being [new Date().toLocaleTimeString()] at the append. *)
Record LogEntry : Type := mkLog {
  level : string;
  message : string;
  timestamp : string
}.

(** What [a.click()] hands to the browser: the download name and the
    text of the blob. *)
Record Download : Type := mkDownload {
  filename : string;
  content : string
}.

(** [name.replace(...)] when [name] was read from the document: anything
    but a string has no [replace] method. *)
Definition replace_receiver (path : string) (name : Value) : Result string :=
  match name with
  | Some (JStr s) => Return s
  | None => Throw (cannot_read "undefined" "replace")
  | Some JNull => Throw (cannot_read "null" "replace")
  | Some _ => Throw (TypeError (path ++ ".replace is not a function"))
  end.

(** ** The updaters of the service handlers

    [updateService], [deleteService] and the name field of the header
    hand [setSpc] a function of the previous document; the three
    functions read the same in both editors.  [inl] is the exception the
    function throws when React runs it. *)

(** [prev => ({ ...prev, services: { ...prev.services,
    [id]: { ...prev.services[id], ...updates } } })]; [updates] are the
    own entries of the object passed in. *)
Definition updateService_updater (id : string) (updates : list (string * JSON))
    (prev : JSON) : Result JSON :=
  services <- get (Some prev) "services" ;;
  service <- get services id ;;
  Return
    (JObj (define_own "services"
             (JObj (define_own id (JObj (merge (spread service) updates))
                      (spread services)))
             (spread (Some prev)))).

(** [prev => { const newServices = { ...prev.services };
    delete newServices[id]; return { ...prev, services: newServices } }]. *)
Definition deleteService_updater (id : string) (prev : JSON) : Result JSON :=
  services <- get (Some prev) "services" ;;
  let newServices := delete_prop id (spread services) in
  Return (JObj (define_own "services" (JObj newServices) (spread (Some prev)))).

(** [prev => ({ ...prev, meta: { ...prev.meta, name: e.target.value } })]. *)
Definition rename_updater (name : string) (prev : JSON) : Result JSON :=
  meta <- get (Some prev) "meta" ;;
  Return
    (JObj (define_own "meta"
             (JObj (define_own "name" (JStr name) (spread meta)))
             (spread (Some prev)))).

(** [v || d]. *)
Definition or_else (v : Value) (d : JSON) : JSON :=
  match v with
  | Some j => if truthy v then j else d
  | None => d
  end.

(** * PipelineEditor (studio/pipeline_canvas_editor.tsx) *)

Module PipelineEditor.

(** [SERVICE_TYPES]: the label and the default spec of each primitive
    (colour and icon only matter to rendering). *)
Record ServiceConfig : Type := mkConfig {
  label : string;
  defaultSpec : list (string * JSON)
}.

Definition SERVICE_TYPES : list (string * ServiceConfig) :=
  [ ("connector",
     mkConfig "Connector" [("url", JStr ""); ("outputKey", JStr "")]);
    ("processor",
     mkConfig "Processor"
       [("inputKey", JStr ""); ("outputKey", JStr ""); ("transform", JArr [])]);
    ("monitor",
     mkConfig "Monitor" [("checks", JArr []); ("emit", JStr "onChange")]);
    ("adapter",
     mkConfig "Adapter" [("kind", JStr "webhook"); ("url", JStr "")]);
    ("aggregator",
     mkConfig "Aggregator"
       [("inputKey", JStr ""); ("window", JObj [("size_sec", JNum 30)])]);
    ("vault",
     mkConfig "Vault" [("provider", JStr ""); ("secrets", JArr [])]) ].

Fixpoint config_of (type : string) (table : list (string * ServiceConfig))
  : option ServiceConfig :=
  match table with
  | [] => None
  | (t, c) :: rest => if t =? type then Some c else config_of type rest
  end.

(** The [useState] cells of the component that the handlers write, and
    the [setTimeout] callbacks not yet run.  ([viewMode], [canvasNodes]
    and [connections] are derived for rendering.) *)
Record Editor : Type := mkEditor {
  spc : JSON;
  selectedService : option string;
  isRunning : bool;
  executionLog : list LogEntry;
  jsonError : option string;
  timeouts : nat
}.

Definition initial (created_at : string) : Editor :=
  {| spc := JObj [ ("spc_version", JStr "1.0");
                   ("meta", JObj [ ("name", JStr "Untitled Pipeline");
                                   ("created_at", JStr created_at) ]);
                   ("services", JObj []);
                   ("state", JObj []) ];
     selectedService := None;
     isRunning := false;
     executionLog := [];
     jsonError := None;
     timeouts := 0 |}.

Definition setSpc (d : JSON) (st : Editor) : Editor :=
  mkEditor d (selectedService st) (isRunning st) (executionLog st)
           (jsonError st) (timeouts st).

Definition setSelectedService (s : option string) (st : Editor) : Editor :=
  mkEditor (spc st) s (isRunning st) (executionLog st) (jsonError st)
           (timeouts st).

Definition setIsRunning (b : bool) (st : Editor) : Editor :=
  mkEditor (spc st) (selectedService st) b (executionLog st) (jsonError st)
           (timeouts st).

Definition setExecutionLog (l : list LogEntry) (st : Editor) : Editor :=
  mkEditor (spc st) (selectedService st) (isRunning st) l (jsonError st)
           (timeouts st).

Definition setJsonError (e : option string) (st : Editor) : Editor :=
  mkEditor (spc st) (selectedService st) (isRunning st) (executionLog st) e
           (timeouts st).

Definition setTimeouts (n : nat) (st : Editor) : Editor :=
  mkEditor (spc st) (selectedService st) (isRunning st) (executionLog st)
           (jsonError st) n.

Definition LOG_CAP : nat := 50.

(** [addLog]: [setExecutionLog(prev => [...prev, entry].slice(-50))]. *)
Definition addLog (lvl msg now : string) (st : Editor) : Editor :=
  setExecutionLog
    (slice_last LOG_CAP (executionLog st ++ [mkLog lvl msg now])%list) st.

(** [addService(type)]; [now] is [Date.now()]. *)
Definition addService (type : string) (now : Z) (st : Editor) : Result Editor :=
  let id := type ++ "-" ++ string_of_Z now in
  cfg <- match config_of type SERVICE_TYPES with
         | Some c => Return c
         | None => Throw (cannot_read "undefined" "label")
         end ;;
  services <- get (Some (spc st)) "services" ;;
  keys <- Object_keys services ;;
  let newService :=
    JObj [ ("id", JStr id);
           ("type", JStr type);
           ("title", JStr (label cfg ++ " " ++ string_of_nat (length keys + 1)));
           ("spec", JObj (defaultSpec cfg));
           ("status", JStr "stopped");
           ("position", JObj [("x", JNum 100); ("y", JNum 100)]) ] in
  let prev := Some (spc st) in
  prev_services <- get prev "services" ;;
  Return
    (setSelectedService (Some id)
       (setSpc
          (JObj (set_prop "services"
                   (JObj (set_prop id newService (spread prev_services)))
                   (spread prev)))
          st)).

(** The body of the [try] block of [importSPC], up to the value handed to
    [setSpc]; [parsed] is the outcome of [JSON.parse(e.target.result)]. *)
Definition importSPC_try (parsed : Result JSON) : Result JSON :=
  imported <- parsed ;;
  version <- get (Some imported) "spc_version" ;;
  if negb (truthy version) then Throw (Error "Invalid SPC format")
  else
    services <- get (Some imported) "services" ;;
    if negb (truthy services) then Throw (Error "Invalid SPC format")
    else Return imported.

(** [importSPC(event)]: [file] is [event.target.files[0]], given as the
    outcome of parsing its text; [now] is read by [addLog]. *)
Definition importSPC (file : option (Result JSON)) (now : string) (st : Editor)
  : Editor :=
  match file with
  | None => st
  | Some parsed =>
      match importSPC_try parsed with
      | inr imported =>
          addLog "info" "SPC imported successfully" now
            (setJsonError None (setSpc imported st))
      | inl error =>
          addLog "error" ("Import failed: " ++ exn_message error) now
            (setJsonError (Some (exn_message error)) st)
      end
  end.

(** [exportSPC()]: the download it triggers and the state afterwards, or
    the exception that leaves the handler before [a.click()]. *)
Definition exportSPC (now : string) (st : Editor) : Result (Download * Editor) :=
  let blob := JSON_stringify (spc st) in
  meta <- get (Some (spc st)) "meta" ;;
  name <- get meta "name" ;;
  text <- replace_receiver "spc.meta.name" name ;;
  let download :=
    mkDownload (toLowerCase (replace_spaces false text) ++ ".spc.json") blob in
  Return (download, addLog "info" "SPC exported successfully" now st).

(** [runPipeline()] and the callback of its [setTimeout]. *)
Definition runPipeline (now : string) (st : Editor) : Editor :=
  setTimeouts (S (timeouts st))
    (addLog "info" "▶️ Pipeline started" now (setIsRunning true st)).

Definition timeoutFires (now : string) (st : Editor) : Editor :=
  match timeouts st with
  | O => st
  | S n =>
      setTimeouts n
        (setIsRunning false
           (addLog "success" "✅ Pipeline executed successfully" now st))
  end.

Definition stopPipeline (now : string) (st : Editor) : Editor :=
  addLog "warn" "⏹ Pipeline stopped" now (setIsRunning false st).

Definition tickOnce (now : string) (st : Editor) : Editor :=
  addLog "info" "⚡ Single tick executed" now st.

(** [setSpc(updater)]: [inl] when the updater throws (React then takes
    the component down). *)
Definition setSpc_by (updater : JSON -> Result JSON) (st : Editor) : Result Editor :=
  d <- updater (spc st) ;;
  Return (setSpc d st).

Definition updateService (id : string) (updates : list (string * JSON))
    (st : Editor) : Result Editor :=
  setSpc_by (updateService_updater id updates) st.

Definition moveNode (id : string) (position : JSON) (st : Editor) : Result Editor :=
  updateService id [("position", position)] st.

(** [selectedService === id]. *)
Definition is_selected (id : string) (st : Editor) : bool :=
  match selectedService st with
  | Some s => s =? id
  | None => false
  end.

Definition deleteService (id : string) (st : Editor) : Result Editor :=
  st1 <- setSpc_by (deleteService_updater id) st ;;
  Return (if is_selected id st then setSelectedService None st1 else st1).

(** The name field of [Toolbar]. *)
Definition Toolbar_onNameChange (name : string) (st : Editor) : Result Editor :=
  setSpc_by (rename_updater name) st.

(** [handleJsonChange] of [JsonEditor]; [parsed] is the outcome of
    [JSON.parse(text)].  (The text of the editor itself is local to
    [JsonEditor].) *)
Definition handleJsonChange (parsed : Result JSON) (st : Editor) : Editor :=
  match parsed with
  | inr value => setJsonError None (setSpc value st)
  | inl error => setJsonError (Some (exn_message error)) st
  end.

(** *** The canvas nodes derived from the document *)

Record CanvasNode : Type := mkNode {
  node_id : string;
  node_type : Value;
  node_title : JSON;
  node_spec : Value;
  node_status : JSON;
  node_position : JSON
}.

(** [{ x: 100 + (idx % 3) * 250, y: 100 + Math.floor(idx / 3) * 150 }]. *)
Definition default_position (idx : nat) : JSON :=
  JObj [ ("x", JNum (100 + Z.of_nat (idx mod 3) * 250));
         ("y", JNum (100 + Z.of_nat (idx / 3) * 150)) ].

(** [Object.entries(spc.services).map(([id, service], idx) => ...)], from
    index [idx] on. *)
Fixpoint nodes_from (idx : nat) (entries : list (string * JSON))
  : Result (list CanvasNode) :=
  match entries with
  | [] => Return []
  | (id, service) :: rest =>
      type <- get (Some service) "type" ;;
      title <- get (Some service) "title" ;;
      spec <- get (Some service) "spec" ;;
      status <- get (Some service) "status" ;;
      position <- get (Some service) "position" ;;
      nodes <- nodes_from (S idx) rest ;;
      Return (mkNode id type (or_else title (JStr id)) spec
                (or_else status (JStr "stopped"))
                (or_else position (default_position idx))
              :: nodes)
  end.

(** The nodes that the effect on [spc] hands to [setCanvasNodes]. *)
Definition canvasNodes (d : JSON) : Result (list CanvasNode) :=
  services <- get (Some d) "services" ;;
  entries <- Object_entries services ;;
  nodes_from 0 entries.

End PipelineEditor.

(** * EnhancedPipelineEditor *)

Module EnhancedPipelineEditor.

(** [getDefaultSpec(type)]: [defaults[type] || {}]. *)
Definition getDefaultSpec (type : string) : JSON :=
  let defaults :=
    [ ("connector",
       JObj [ ("url", JStr "https://api.example.com/data");
              ("outputKey", JStr (type ++ "_data")) ]);
      ("processor",
       JObj [ ("inputKey", JStr "");
              ("outputKey", JStr (type ++ "_output"));
              ("transform", JArr []) ]);
      ("monitor", JObj [("checks", JArr []); ("emit", JStr "onChange")]);
      ("adapter",
       JObj [ ("kind", JStr "webhook");
              ("url", JStr "https://hooks.example.com/webhook") ]);
      ("aggregator",
       JObj [("inputKey", JStr ""); ("window", JObj [("size_sec", JNum 30)])]);
      ("vault",
       JObj [("provider", JStr "hashicorp-vault"); ("secrets", JArr [])]) ] in
  match lookup type defaults with
  | Some spec => spec
  | None => JObj []
  end.

(** The [tick] variable of one [setInterval] of [runPipeline], and whether
    the interval is still scheduled. *)
Record Timer : Type := mkTimer {
  tick : nat;
  scheduled : bool
}.

(** The [useState] cells the handlers write, the intervals created so far
    (a handle is a position in [timers]) and the exception, if any, that
    an updater threw while React was rendering: the component is gone
    from then on and its setters do nothing.  ([zoom] and [pan] are never
    written.) *)
Record Editor : Type := mkEditor {
  spc : JSON;
  selectedNode : option string;
  isRunning : bool;
  logs : list LogEntry;
  timers : list Timer;
  crashed : option Exn
}.

Definition initial (created_at : string) : Editor :=
  {| spc := JObj [ ("spc_version", JStr "1.0");
                   ("meta", JObj [ ("name", JStr "My Pipeline");
                                   ("created_at", JStr created_at) ]);
                   ("services", JObj []);
                   ("state", JObj []) ];
     selectedNode := None;
     isRunning := false;
     logs := [];
     timers := [];
     crashed := None |}.

Definition setSpc (d : JSON) (st : Editor) : Editor :=
  mkEditor d (selectedNode st) (isRunning st) (logs st) (timers st) (crashed st).

Definition setIsRunning (b : bool) (st : Editor) : Editor :=
  mkEditor (spc st) (selectedNode st) b (logs st) (timers st) (crashed st).

Definition setLogs (l : list LogEntry) (st : Editor) : Editor :=
  mkEditor (spc st) (selectedNode st) (isRunning st) l (timers st) (crashed st).

Definition setTimers (t : list Timer) (st : Editor) : Editor :=
  mkEditor (spc st) (selectedNode st) (isRunning st) (logs st) t (crashed st).

Definition setCrashed (e : Exn) (st : Editor) : Editor :=
  mkEditor (spc st) (selectedNode st) (isRunning st) (logs st) (timers st)
           (Some e).

Definition LOG_CAP : nat := 30.

(** [addLog]: [setLogs(prev => [...prev, entry].slice(-30))]. *)
Definition addLog (lvl msg now : string) (st : Editor) : Editor :=
  setLogs (slice_last LOG_CAP (logs st ++ [mkLog lvl msg now])%list) st.

(** [values.filter(s => s.type === type)]; reading [type] of [null]
    throws. *)
Fixpoint filter_type (type : string) (values : list JSON) : Result (list JSON) :=
  match values with
  | [] => Return []
  | s :: rest =>
      t <- get (Some s) "type" ;;
      kept <- filter_type type rest ;;
      Return (if is_string type t then s :: kept else kept)
  end.

(** [addService(type)]; [now] is [Date.now()], [log_now] the reading of
    [addLog]. *)
Definition addService (type : string) (now : Z) (log_now : string) (st : Editor)
  : Result Editor :=
  let id := type ++ "-" ++ string_of_Z now in
  services <- get (Some (spc st)) "services" ;;
  values <- Object_values services ;;
  existing <- filter_type type values ;;
  let existingCount := length existing in
  let prev := Some (spc st) in
  prev_services <- get prev "services" ;;
  let service :=
    JObj [ ("id", JStr id);
           ("type", JStr type);
           ("title", JStr (type ++ " " ++ string_of_nat (existingCount + 1)));
           ("spec", getDefaultSpec type);
           ("status", JStr "stopped");
           ("position", JObj [("x", JNum 300); ("y", JNum 200)]) ] in
  Return
    (addLog "info" ("Added " ++ type ++ " service: " ++ id) log_now
       (setSpc
          (JObj (set_prop "services"
                   (JObj (set_prop id service (spread prev_services)))
                   (spread prev)))
          st)).

(** *** Ticks *)

(** One step of the [forEach] of the tick: [svc] is
    [updated.services[id]]; [now] is the [toISOString()] reading taken if
    the service runs.  The result says whether the clock was read. *)
Definition touch (now : string) (svc : JSON) : Result (JSON * bool) :=
  status <- get (Some svc) "status" ;;
  if is_string "running" status
  then Return (assign "lastRun" (JStr now) svc, true)
  else Return (svc, false).

(** [Object.keys(updated.services).forEach(id => ...)] over the own
    entries of the services container, which it updates in place:
    [clock n] is the [n]-th reading of this tick.  When an entry throws,
    the entries before it stay updated. *)
Fixpoint forEach_service (clock : nat -> string) (n : nat)
    (entries : list (string * JSON)) : list (string * JSON) * option Exn :=
  match entries with
  | [] => ([], None)
  | (id, svc) :: rest =>
      match touch (clock n) svc with
      | inl e => ((id, svc) :: rest, Some e)
      | inr (svc', read) =>
          let '(rest', e) := forEach_service clock (if read then S n else n) rest in
          ((id, svc') :: rest', e)
      end
  end.

(** The services container after the scan.  (The own entries of a string
    are one-character strings, and a number or a boolean has none: there
    is nothing to update.) *)
Definition scan_services (clock : nat -> string) (services : JSON)
  : JSON * option Exn :=
  match services with
  | JObj props =>
      let '(props', e) := forEach_service clock 0 props in (JObj props', e)
  | JArr items =>
      let '(entries, e) := forEach_service clock 0 (indexed 0 items) in
      (JArr (map snd entries), e)
  | other => (other, None)
  end.

(** The updater of the tick, [prev => { const updated = { ...prev }; ...;
    return updated }]: the document afterwards and the exception thrown,
    if any.  The services container is shared between [prev] and
    [updated], so the document carries the updates made before a throw
    as well. *)
Definition tick_update (clock : nat -> string) (prev : JSON) : JSON * option Exn :=
  let updated := spread (Some prev) in
  match lookup "services" updated with
  | None | Some JNull =>
      (prev, Some (TypeError "Cannot convert undefined or null to object"))
  | Some services =>
      let '(services', e) := scan_services clock services in
      (JObj (set_prop "services" services' updated), e)
  end.

(** [setSpc(updater)] of the tick. *)
Definition setSpc_tick (clock : nat -> string) (st : Editor) : Editor :=
  match tick_update clock (spc st) with
  | (d, None) => setSpc d st
  | (d, Some e) => setCrashed e (setSpc d st)
  end.

(** [runPipeline()]: the new interval gets the next handle. *)
Definition runPipeline (now : string) (st : Editor) : Editor :=
  setTimers (timers st ++ [mkTimer 0 true])%list
    (addLog "success" "▶️ Pipeline execution started" now (setIsRunning true st)).

Fixpoint set_timer (h : nat) (t : Timer) (ts : list Timer) : list Timer :=
  match ts, h with
  | [], _ => []
  | _ :: rest, O => t :: rest
  | t0 :: rest, S h' => t0 :: set_timer h' t rest
  end.

(** The callback of interval [h] runs: [tick_now] and [done_now] are the
    readings of its two [addLog] calls, [clock] those of the updater.
    A cleared interval has no callback left; after a crash only the
    variables of the closure still change. *)
Definition intervalFires (h : nat) (tick_now : string) (clock : nat -> string)
    (done_now : string) (st : Editor) : Editor :=
  match nth_error (timers st) h with
  | Some t =>
      if scheduled t then
        let n := S (tick t) in
        let finished := (5 <=? n)%nat in
        let st0 := setTimers (set_timer h (mkTimer n (negb finished)) (timers st)) st in
        match crashed st with
        | Some _ => st0
        | None =>
            let st1 :=
              addLog "info"
                ("⚡ Tick " ++ string_of_nat n ++ " - Processing services...")
                tick_now st0 in
            let st2 := setSpc_tick clock st1 in
            if finished
            then addLog "success" "✅ Pipeline execution completed" done_now
                   (setIsRunning false st2)
            else st2
        end
      else st
  | None => st
  end.

Definition stopPipeline (now : string) (st : Editor) : Editor :=
  addLog "warn" "⏹ Pipeline stopped by user" now (setIsRunning false st).

Definition tickOnce (now : string) (st : Editor) : Editor :=
  addLog "info" "⚡ Manual tick executed" now st.

(** *** Files *)

Definition exportSPC (now : string) (st : Editor) : Result (Download * Editor) :=
  let json := JSON_stringify (spc st) in
  meta <- get (Some (spc st)) "meta" ;;
  name <- get meta "name" ;;
  text <- replace_receiver "spc.meta.name" name ;;
  let download := mkDownload (replace_spaces false text ++ ".spc.json") json in
  Return (download, addLog "success" "📥 SPC exported successfully" now st).

(** The [try] block of [importSPC] up to the value handed to [setSpc]. *)
Definition importSPC_try (parsed : Result JSON) : Result JSON :=
  imported <- parsed ;;
  Return imported.

Definition importSPC (file : option (Result JSON)) (now : string) (st : Editor)
  : Editor :=
  match file with
  | None => st
  | Some parsed =>
      match importSPC_try parsed with
      | inr imported =>
          addLog "success" "📤 SPC imported successfully" now (setSpc imported st)
      | inl error =>
          addLog "error" ("Import failed: " ++ exn_message error) now st
      end
  end.

(** *** Service handlers of the canvas, the header and the inspector *)

Definition setSelectedNode (s : option string) (st : Editor) : Editor :=
  mkEditor (spc st) s (isRunning st) (logs st) (timers st) (crashed st).

(** [setSpc(updater)]: an updater that throws takes the component
    down. *)
Definition setSpc_by (updater : JSON -> Result JSON) (st : Editor) : Editor :=
  match updater (spc st) with
  | inr d => setSpc d st
  | inl e => setCrashed e st
  end.

Definition updateService (id : string) (updates : list (string * JSON))
    (st : Editor) : Editor :=
  setSpc_by (updateService_updater id updates) st.

(** [selectedNode === id]. *)
Definition is_selected (id : string) (st : Editor) : bool :=
  match selectedNode st with
  | Some s => s =? id
  | None => false
  end.

Definition deleteService (id : string) (now : string) (st : Editor) : Editor :=
  let st1 := setSpc_by (deleteService_updater id) st in
  let st2 := if is_selected id st then setSelectedNode None st1 else st1 in
  addLog "warn" ("Deleted service: " ++ id) now st2.

(** The name field of [Header]. *)
Definition Header_onNameChange (name : string) (st : Editor) : Editor :=
  setSpc_by (rename_updater name) st.

(** [handleSpecChange] of [Inspector], which is shown for the selected
    node: [parsed] is the outcome of [JSON.parse(value)].  (The text and
    the error message are local to [Inspector].) *)
Definition handleSpecChange (parsed : Result JSON) (st : Editor) : Editor :=
  match parsed, selectedNode st with
  | inr spec, Some id => updateService id [("spec", spec)] st
  | _, _ => st
  end.

(** *** The editor as a transition system *)

Inductive Event : Type :=
| Run (now : string)
| Stop (now : string)
| TickOnce (now : string)
| Fire (h : nat) (tick_now : string) (clock : nat -> string) (done_now : string)
| AddService (type : string) (now : Z) (log_now : string)
| Import (file : option (Result JSON)) (now : string)
| Export (now : string).

(** An exception in an event handler leaves the state as it was. *)
Definition step (st : Editor) (ev : Event) : Editor :=
  match ev with
  | Fire h tick_now clock done_now => intervalFires h tick_now clock done_now st
  | _ =>
      match crashed st with
      | Some _ => st
      | None =>
          match ev with
          | Run now => runPipeline now st
          | Stop now => stopPipeline now st
          | TickOnce now => tickOnce now st
          | AddService type now log_now =>
              match addService type now log_now st with
              | inr st' => st'
              | inl _ => st
              end
          | Import file now => importSPC file now st
          | Export now =>
              match exportSPC now st with
              | inr (_, st') => st'
              | inl _ => st
              end
          | Fire _ _ _ _ => st
          end
      end
  end.

Definition exec (evs : list Event) (st : Editor) : Editor :=
  fold_left step evs st.

(** The readings of one run: of the log entry of [runPipeline], and of
    the [k]-th callback of its interval. *)
Record RunClock : Type := mkRunClock {
  start_now : string;
  tick_now : nat -> string;
  update_clock : nat -> nat -> string;
  done_now : nat -> string
}.

Fixpoint fires (h : nat) (c : RunClock) (k count : nat) : list Event :=
  match count with
  | O => []
  | S count' =>
      Fire h (tick_now c k) (update_clock c k) (done_now c k)
        :: fires h c (S k) count'
  end.

(** One run left alone: [runPipeline()] and the five callbacks of its
    interval. *)
Definition run (c : RunClock) (st : Editor) : Editor :=
  exec (Run (start_now c) :: fires (length (timers st)) c 0 5) st.

End EnhancedPipelineEditor.

(** * Vocabulary of the properties *)

(** The own property [d.k] of a document or a service, [undefined] when
    there is none. *)
Definition field (k : string) (d : JSON) : Value :=
  lookup k (spread (Some d)).

(** The service entries of a document: the own entries of [d.services]. *)
Definition services_of (d : JSON) : list (string * JSON) :=
  spread (field "services" d).

(** [d.services[id]]. *)
Definition service (id : string) (d : JSON) : Value :=
  lookup id (services_of d).

(** [svc.status === 'running']. *)
Definition running (svc : JSON) : bool :=
  is_string "running" (field "status" svc).

(** A sequence of [addLog] calls, one per entry. *)
Definition PipelineEditor_appends (entries : list LogEntry)
    (st : PipelineEditor.Editor) : PipelineEditor.Editor :=
  fold_left
    (fun s e => PipelineEditor.addLog (level e) (message e) (timestamp e) s)
    entries st.

Definition Enhanced_appends (entries : list LogEntry)
    (st : EnhancedPipelineEditor.Editor) : EnhancedPipelineEditor.Editor :=
  fold_left
    (fun s e => EnhancedPipelineEditor.addLog (level e) (message e) (timestamp e) s)
    entries st.

(** A document that no schema describes: its version is none the
    editors ever write, and its connector carries the spec of a monitor
    (no [url], no [outputKey]). *)
Definition unvalidated_document : JSON :=
  JObj [ ("spc_version", JStr "99.0");
         ("services",
          JObj [ ("c1", JObj [ ("id", JStr "c1");
                               ("type", JStr "connector");
                               ("spec", JObj [ ("checks", JArr []);
                                               ("emit", JStr "onChange") ]);
                               ("status", JStr "stopped") ]) ]) ].

(** A document with a services container: [d.services] is neither
    missing nor [null]. *)
Definition has_services (d : JSON) : Prop :=
  exists container, field "services" d = Some container /\ container <> JNull.

(** The id that [addService] generates. *)
Definition new_id (type : string) (now : Z) : string :=
  type ++ "-" ++ string_of_Z now.

(** How often the callback of interval [h] is run by a sequence of
    events. *)
Fixpoint count_fires (h : nat) (evs : list EnhancedPipelineEditor.Event) : nat :=
  match evs with
  | [] => 0
  | EnhancedPipelineEditor.Fire h' _ _ _ :: rest =>
      (if (h' =? h)%nat then 1 else 0) + count_fires h rest
  | _ :: rest => count_fires h rest
  end.

(** A document with one running and one stopped service. *)
Definition two_services : JSON :=
  JObj [ ("spc_version", JStr "1.0");
         ("meta", JObj [("name", JStr "Demo")]);
         ("services",
          JObj [ ("c1", JObj [ ("id", JStr "c1");
                               ("type", JStr "connector");
                               ("status", JStr "running") ]);
                 ("m1", JObj [ ("id", JStr "m1");
                               ("type", JStr "monitor");
                               ("status", JStr "stopped") ]) ]);
         ("state", JObj [("raw", JNum 1)]) ].

(** A clock that shows the same two texts at every reading of a run. *)
Definition frozen_clock (time iso : string) : EnhancedPipelineEditor.RunClock :=
  EnhancedPipelineEditor.mkRunClock time (fun _ => time) (fun _ _ => iso)
    (fun _ => time).

(** What a log entry says, without the time it was written. *)
Definition said (e : LogEntry) : string * string := (level e, message e).

(** A document without the clock readings that ticks leave in it: every
    [lastRun] of a service is removed. *)
Fixpoint remove_prop (k : string) (props : list (string * JSON))
  : list (string * JSON) :=
  match props with
  | [] => []
  | (k', v) :: rest =>
      if k' =? k then remove_prop k rest else (k', v) :: remove_prop k rest
  end.

Definition forget_lastRun (svc : JSON) : JSON :=
  match svc with
  | JObj props => JObj (remove_prop "lastRun" props)
  | other => other
  end.

Definition forget_entry (entry : string * JSON) : string * JSON :=
  (fst entry, forget_lastRun (snd entry)).

Definition forget_container (services : JSON) : JSON :=
  match services with
  | JObj props => JObj (map forget_entry props)
  | JArr items => JArr (map forget_lastRun items)
  | other => other
  end.

Definition forget_services (prop : string * JSON) : string * JSON :=
  if fst prop =? "services" then (fst prop, forget_container (snd prop)) else prop.

Definition forget_clock (d : JSON) : JSON :=
  match d with
  | JObj props => JObj (map forget_services props)
  | other => other
  end.

(** Two editors that show the same thing once the clock readings are
    left out: the same document up to [lastRun], the same log entries up
    to their timestamps, and the same everything else. *)
Definition same_up_to_clock (a b : EnhancedPipelineEditor.Editor) : Prop :=
  forget_clock (EnhancedPipelineEditor.spc a)
  = forget_clock (EnhancedPipelineEditor.spc b)
  /\ map said (EnhancedPipelineEditor.logs a)
     = map said (EnhancedPipelineEditor.logs b)
  /\ EnhancedPipelineEditor.isRunning a = EnhancedPipelineEditor.isRunning b
  /\ EnhancedPipelineEditor.timers a = EnhancedPipelineEditor.timers b
  /\ EnhancedPipelineEditor.crashed a = EnhancedPipelineEditor.crashed b
  /\ EnhancedPipelineEditor.selectedNode a = EnhancedPipelineEditor.selectedNode b.

(** A document that import accepts and that has no [meta.name]. *)
Definition nameless_document : JSON :=
  JObj [ ("spc_version", JStr "1.0");
         ("meta", JObj []);
         ("services", JObj []);
         ("state", JObj [("raw", JNum 1)]) ].

(** [d.services[id].k], [undefined] when there is no such service. *)
Definition service_field (k id : string) (d : JSON) : Value :=
  lookup k (spread (service id d)).

(** No entry of the services container is [null]. *)
Definition no_null_service (d : JSON) : Prop :=
  Forall (fun v => v <> JNull) (map snd (services_of d)).

(** ** Everything a user can do in PipelineEditor

    One constructor per handler; the timeout of [runPipeline] is an
    action of the browser. *)
Inductive PipelineAction : Type :=
| PAddService (type : string) (now : Z)
| PUpdateService (id : string) (updates : list (string * JSON))
| PDeleteService (id : string)
| PNameChange (name : string)
| PJsonChange (parsed : Result JSON)
| PImport (file : option (Result JSON)) (now : string)
| PExport (now : string)
| PRun (now : string)
| PTimeout (now : string)
| PStop (now : string)
| PTickOnce (now : string).

(** The state after an action, [None] when an updater threw and the
    component is gone.  An exception in a handler itself leaves the
    state as it was. *)
Definition PipelineEditor_act (st : PipelineEditor.Editor) (a : PipelineAction)
  : option PipelineEditor.Editor :=
  let updated (r : Result PipelineEditor.Editor) :=
    match r with inr st' => Some st' | inl _ => None end in
  match a with
  | PAddService type now =>
      match PipelineEditor.addService type now st with
      | inr st' => Some st'
      | inl _ => Some st
      end
  | PUpdateService id updates => updated (PipelineEditor.updateService id updates st)
  | PDeleteService id => updated (PipelineEditor.deleteService id st)
  | PNameChange name => updated (PipelineEditor.Toolbar_onNameChange name st)
  | PJsonChange parsed => Some (PipelineEditor.handleJsonChange parsed st)
  | PImport file now => Some (PipelineEditor.importSPC file now st)
  | PExport now =>
      match PipelineEditor.exportSPC now st with
      | inr (_, st') => Some st'
      | inl _ => Some st
      end
  | PRun now => Some (PipelineEditor.runPipeline now st)
  | PTimeout now => Some (PipelineEditor.timeoutFires now st)
  | PStop now => Some (PipelineEditor.stopPipeline now st)
  | PTickOnce now => Some (PipelineEditor.tickOnce now st)
  end.

Fixpoint PipelineEditor_acts (actions : list PipelineAction)
    (st : PipelineEditor.Editor) : option PipelineEditor.Editor :=
  match actions with
  | [] => Some st
  | a :: rest =>
      match PipelineEditor_act st a with
      | Some st' => PipelineEditor_acts rest st'
      | None => None
      end
  end.

(** The actions that load a document: an import and an edit of the JSON
    text. *)
Definition PipelineAction_loads (a : PipelineAction) : bool :=
  match a with
  | PJsonChange _ | PImport _ _ => true
  | _ => false
  end.

(** ** Everything a user can do in EnhancedPipelineEditor

    The events of the transition system above, and the handlers of the
    canvas, the header and the inspector.  After a crash there is no
    component left to click on. *)
Inductive EnhancedAction : Type :=
| EEvent (ev : EnhancedPipelineEditor.Event)
| EUpdateService (id : string) (updates : list (string * JSON))
| EDeleteService (id : string) (now : string)
| ENameChange (name : string)
| ESpecChange (parsed : Result JSON)
| ESelect (id : option string).

Definition Enhanced_act (st : EnhancedPipelineEditor.Editor) (a : EnhancedAction)
  : EnhancedPipelineEditor.Editor :=
  match a with
  | EEvent ev => EnhancedPipelineEditor.step st ev
  | _ =>
      match EnhancedPipelineEditor.crashed st with
      | Some _ => st
      | None =>
          match a with
          | EUpdateService id updates =>
              EnhancedPipelineEditor.updateService id updates st
          | EDeleteService id now => EnhancedPipelineEditor.deleteService id now st
          | ENameChange name => EnhancedPipelineEditor.Header_onNameChange name st
          | ESpecChange parsed => EnhancedPipelineEditor.handleSpecChange parsed st
          | ESelect id => EnhancedPipelineEditor.setSelectedNode id st
          | EEvent _ => st
          end
      end
  end.

Definition Enhanced_acts (actions : list EnhancedAction)
    (st : EnhancedPipelineEditor.Editor) : EnhancedPipelineEditor.Editor :=
  fold_left Enhanced_act actions st.

Definition EnhancedAction_loads (a : EnhancedAction) : bool :=
  match a with
  | EEvent (EnhancedPipelineEditor.Import _ _) => true
  | _ => false
  end.

(** A canvas node after node [id] was dragged to [position]. *)
Definition moved (id : string) (position : JSON) (n : PipelineEditor.CanvasNode)
  : PipelineEditor.CanvasNode :=
  if PipelineEditor.node_id n =? id
  then PipelineEditor.mkNode (PipelineEditor.node_id n) (PipelineEditor.node_type n)
         (PipelineEditor.node_title n) (PipelineEditor.node_spec n)
         (PipelineEditor.node_status n) position
  else n.

(** A document without the clock readings that the ticks of a run leave
    in it: the [lastRun] of every service that runs is removed.  A
    service that does not run keeps its [lastRun]. *)
Definition forget_running_lastRun (svc : JSON) : JSON :=
  if running svc then forget_lastRun svc else svc.

Definition forget_running_entry (entry : string * JSON) : string * JSON :=
  (fst entry, forget_running_lastRun (snd entry)).

Definition forget_running_container (services : JSON) : JSON :=
  match services with
  | JObj props => JObj (map forget_running_entry props)
  | JArr items => JArr (map forget_running_lastRun items)
  | other => other
  end.

Definition forget_running_services (prop : string * JSON) : string * JSON :=
  if fst prop =? "services"
  then (fst prop, forget_running_container (snd prop))
  else prop.

Definition forget_running_clock (d : JSON) : JSON :=
  match d with
  | JObj props => JObj (map forget_running_services props)
  | other => other
  end.

(** Two editors that differ in clock readings of a run at most: the same
    document up to the [lastRun] of the running services, the same log
    entries up to their timestamps, and the same everything else. *)
Definition same_up_to_running_clock (a b : EnhancedPipelineEditor.Editor) : Prop :=
  forget_running_clock (EnhancedPipelineEditor.spc a)
  = forget_running_clock (EnhancedPipelineEditor.spc b)
  /\ map said (EnhancedPipelineEditor.logs a)
     = map said (EnhancedPipelineEditor.logs b)
  /\ EnhancedPipelineEditor.isRunning a = EnhancedPipelineEditor.isRunning b
  /\ EnhancedPipelineEditor.timers a = EnhancedPipelineEditor.timers b
  /\ EnhancedPipelineEditor.crashed a = EnhancedPipelineEditor.crashed b
  /\ EnhancedPipelineEditor.selectedNode a = EnhancedPipelineEditor.selectedNode b.

(** An enhanced editor with one running service, built with the editor
    itself: a connector is added from the palette, its node is selected,
    and its status is set to ['running'] in the inspector. *)
Definition running_connector (created_at : string) : EnhancedPipelineEditor.Editor :=
  Enhanced_acts
    [ EEvent (EnhancedPipelineEditor.AddService "connector" 1730000000000 "11:59:00");
      ESelect (Some "connector-1730000000000");
      EUpdateService "connector-1730000000000" [("status", JStr "running")] ]
    (EnhancedPipelineEditor.initial created_at).

(** A character of ASCII text. *)
Definition is_ascii (c : ascii) : bool := (nat_of_ascii c <? 128)%nat.

(** Every character of a string passes a test. *)
Fixpoint all_chars (p : ascii -> bool) (s : string) : bool :=
  match s with
  | EmptyString => true
  | String c rest => p c && all_chars p rest
  end.

(** An ASCII capital letter. *)
Definition is_upper (c : ascii) : bool :=
  (65 <=? nat_of_ascii c)%nat && (nat_of_ascii c <=? 90)%nat.

(** * Properties *)

(** ** The execution log *)

Section Slice.
Context {A : Type}.

Lemma slice_last_length (n : nat) (l : list A) :
  length (slice_last n l) <= n.
Proof.
  unfold slice_last. rewrite length_skipn. lia.
Qed.

Lemma slice_last_short (n : nat) (l : list A) :
  length l <= n -> slice_last n l = l.
Proof.
  intros H. unfold slice_last.
  replace (length l - n) with 0 by lia. reflexivity.
Qed.

(** The entries dropped are a prefix: the oldest ones. *)
Lemma slice_last_suffix (n : nat) (l : list A) :
  l = (firstn (length l - n) l ++ slice_last n l)%list.
Proof.
  unfold slice_last. symmetry. apply firstn_skipn.
Qed.

(** Slicing after every append is slicing once at the end. *)
Lemma slice_last_app (n : nat) (l m : list A) :
  slice_last n (slice_last n l ++ m)%list = slice_last n (l ++ m)%list.
Proof.
  destruct (Nat.le_gt_cases (length l) n) as [Hle | Hgt].
  - rewrite (slice_last_short n l Hle). reflexivity.
  - unfold slice_last at 1 3.
    rewrite !length_app.
    pose proof (slice_last_length n l) as Hlen.
    assert (Hs : length (slice_last n l) = n).
    { unfold slice_last. rewrite length_skipn. lia. }
    rewrite Hs.
    replace (length l + length m - n) with ((n + length m - n) + (length l - n)) by lia.
    rewrite <- skipn_skipn.
    f_equal.
    rewrite skipn_app.
    replace (length l - n - length l) with 0 by lia.
    reflexivity.
Qed.
End Slice.

Lemma PipelineEditor_appends_log entries st :
  PipelineEditor.executionLog (PipelineEditor_appends entries st)
  = slice_last 50 (PipelineEditor.executionLog st ++ entries)%list
    \/ entries = [].
Proof.
  revert st. induction entries as [| e es IH]; intros st; [now right | left].
  cbn [PipelineEditor_appends fold_left].
  destruct (IH (PipelineEditor.addLog (level e) (message e) (timestamp e) st))
    as [H | ->].
  - unfold PipelineEditor_appends in H. rewrite H.
    cbn [PipelineEditor.addLog PipelineEditor.setExecutionLog
         PipelineEditor.executionLog PipelineEditor.LOG_CAP].
    rewrite slice_last_app, <- app_assoc. destruct e; reflexivity.
  - cbn. destruct e; reflexivity.
Qed.

Lemma Enhanced_appends_log entries st :
  EnhancedPipelineEditor.logs (Enhanced_appends entries st)
  = slice_last 30 (EnhancedPipelineEditor.logs st ++ entries)%list
    \/ entries = [].
Proof.
  revert st. induction entries as [| e es IH]; intros st; [now right | left].
  cbn [Enhanced_appends fold_left].
  destruct (IH (EnhancedPipelineEditor.addLog (level e) (message e) (timestamp e) st))
    as [H | ->].
  - unfold Enhanced_appends in H. rewrite H.
    cbn [EnhancedPipelineEditor.addLog EnhancedPipelineEditor.setLogs
         EnhancedPipelineEditor.logs EnhancedPipelineEditor.LOG_CAP].
    rewrite slice_last_app, <- app_assoc. destruct e; reflexivity.
  - cbn. destruct e; reflexivity.
Qed.

(** C10.  Starting from the empty log of a fresh editor, after any
    sequence of appends the log is the last 50 (PipelineEditor) or the
    last 30 (EnhancedPipelineEditor) of the entries appended, in the
    order of the appends: it never exceeds the cap, and what is missing
    is a prefix of the sequence, its oldest entries. *)
Theorem execution_log_bounded (entries : list LogEntry) (created_at : string) :
  let log50 :=
    PipelineEditor.executionLog
      (PipelineEditor_appends entries (PipelineEditor.initial created_at)) in
  let log30 :=
    EnhancedPipelineEditor.logs
      (Enhanced_appends entries (EnhancedPipelineEditor.initial created_at)) in
  (length log50 <= 50
   /\ log50 = slice_last 50 entries
   /\ entries = (firstn (length entries - 50) entries ++ log50)%list)
  /\
  (length log30 <= 30
   /\ log30 = slice_last 30 entries
   /\ entries = (firstn (length entries - 30) entries ++ log30)%list).
Proof.
  cbv zeta. split.
  - assert (H : PipelineEditor.executionLog
                  (PipelineEditor_appends entries (PipelineEditor.initial created_at))
                = slice_last 50 entries).
    { destruct (PipelineEditor_appends_log entries (PipelineEditor.initial created_at))
        as [H | ->]; [exact H | reflexivity]. }
    rewrite H. split; [apply slice_last_length | split; [reflexivity |]].
    apply slice_last_suffix.
  - assert (H : EnhancedPipelineEditor.logs
                  (Enhanced_appends entries (EnhancedPipelineEditor.initial created_at))
                = slice_last 30 entries).
    { destruct (Enhanced_appends_log entries (EnhancedPipelineEditor.initial created_at))
        as [H | ->]; [exact H | reflexivity]. }
    rewrite H. split; [apply slice_last_length | split; [reflexivity |]].
    apply slice_last_suffix.
Qed.

(** ** Import *)

(** Reading a data property of a parsed value. *)
Lemma get_field (j : JSON) (k : string) :
  (k =? "length") = false ->
  get (Some j) k = match j with
                   | JNull => Throw (cannot_read "null" k)
                   | _ => Return (field k j)
                   end.
Proof.
  intros H. destruct j; cbn; rewrite ?H; reflexivity.
Qed.

(** The [try] block of PipelineEditor's [importSPC], case by case. *)
Lemma PipelineEditor_importSPC_try_cases (parsed : Result JSON) :
  PipelineEditor.importSPC_try parsed =
  match parsed with
  | inl e => inl e
  | inr JNull => inl (cannot_read "null" "spc_version")
  | inr imported =>
      if truthy (field "spc_version" imported)
         && truthy (field "services" imported)
      then inr imported
      else inl (Error "Invalid SPC format")
  end.
Proof.
  destruct parsed as [e | imported]; [reflexivity |].
  unfold PipelineEditor.importSPC_try; cbn [bind].
  rewrite !get_field by reflexivity.
  destruct imported; cbn [bind Throw Return]; try reflexivity;
    destruct (truthy (field "spc_version" _)); cbn [negb andb]; try reflexivity;
    destruct (truthy (field "services" _)); reflexivity.
Qed.

(** C1, as the code has it.  PipelineEditor's import reports an error
    exactly when [JSON.parse] throws, or the parsed value is [null], or
    its [spc_version] is missing or falsy, or its [services] is missing
    or falsy.  Nothing else is inspected. *)
Theorem import_rejects_exactly (parsed : Result JSON) (now : string)
    (st : PipelineEditor.Editor) :
  PipelineEditor.jsonError (PipelineEditor.importSPC (Some parsed) now st) <> None
  <-> ((exists e, parsed = inl e)
       \/ parsed = inr JNull
       \/ (exists imported,
             parsed = inr imported
             /\ (truthy (field "spc_version" imported) = false
                 \/ truthy (field "services" imported) = false))).
Proof.
  unfold PipelineEditor.importSPC.
  rewrite PipelineEditor_importSPC_try_cases.
  destruct parsed as [e | imported].
  - cbn. split; [intros _; left; now exists e | discriminate].
  - destruct (truthy (field "spc_version" imported)) eqn:Hv;
      destruct (truthy (field "services" imported)) eqn:Hs;
      destruct imported; cbn [andb PipelineEditor.jsonError PipelineEditor.addLog
                              PipelineEditor.setExecutionLog PipelineEditor.setJsonError
                              PipelineEditor.setSpc];
      try discriminate Hv; try discriminate Hs.
    all: split;
      [ intros H; first
          [ now elim H
          | right; left; reflexivity
          | right; right; eexists; split; [reflexivity |]; first [now left | now right] ]
      | intros H; first
          [ discriminate
          | exfalso; destruct H as [[e He] | [He | (j & Hj & [Hf | Hf])]];
            [ discriminate He
            | discriminate He
            | inversion Hj; subst; congruence
            | inversion Hj; subst; congruence ] ] ].
Qed.

Lemma import_rejects_exactly_witness :
  PipelineEditor.jsonError
    (PipelineEditor.importSPC (Some (inr (JObj [("services", JObj [])])))
       "12:00:00" (PipelineEditor.initial "2025-01-01T00:00:00.000Z"))
  <> None.
Proof.
  apply (import_rejects_exactly (inr (JObj [("services", JObj [])]))).
  right; right. eexists; split; [reflexivity | left; reflexivity].
Defined.

(** C1, the claim as stated, fails: both editors load
    [unvalidated_document], whose version is unknown and whose connector
    does not have the fields of a connector. *)
Lemma import_accepts_unvalidated_document :
  let st := PipelineEditor.importSPC (Some (inr unvalidated_document))
              "12:00:00" (PipelineEditor.initial "2025-01-01T00:00:00.000Z") in
  let st' := EnhancedPipelineEditor.importSPC (Some (inr unvalidated_document))
               "12:00:00"
               (EnhancedPipelineEditor.initial "2025-01-01T00:00:00.000Z") in
  PipelineEditor.spc st = unvalidated_document
  /\ PipelineEditor.jsonError st = None
  /\ map level (PipelineEditor.executionLog st) = ["info"]
  /\ EnhancedPipelineEditor.spc st' = unvalidated_document
  /\ map level (EnhancedPipelineEditor.logs st') = ["success"]
  /\ field "spc_version" unvalidated_document = Some (JStr "99.0")
  /\ (exists svc spec,
        service "c1" unvalidated_document = Some svc
        /\ field "type" svc = Some (JStr "connector")
        /\ field "spec" svc = Some spec
        /\ field "url" spec = None
        /\ field "outputKey" spec = None).
Proof.
  cbv zeta. repeat split; try reflexivity.
  eexists; eexists. repeat split; reflexivity.
Qed.

(** The enhanced editor checks nothing: its import fails exactly when
    [JSON.parse] throws. *)
Lemma Enhanced_import_fails_exactly (parsed : Result JSON) :
  (exists e, EnhancedPipelineEditor.importSPC_try parsed = inl e)
  <-> (exists e, parsed = inl e).
Proof.
  destruct parsed as [e | j]; cbn; split; intros [e' H];
    try discriminate; now exists e.
Qed.

Lemma PipelineEditor_import_accepted (parsed : Result JSON) (imported : JSON) :
  PipelineEditor.importSPC_try parsed = inr imported -> parsed = inr imported.
Proof.
  rewrite PipelineEditor_importSPC_try_cases.
  destruct parsed as [e | j]; [discriminate |].
  destruct j; try discriminate;
    destruct (truthy (field "spc_version" _) && truthy (field "services" _));
    intros H; now inversion H.
Qed.

(** C4.  When the import succeeds, the document of the editor is the
    imported value itself, whatever the document was before: nothing of
    the prior document is kept, and two editors with different documents
    hold the same one after importing the same file. *)
Theorem import_replaces_document (parsed : Result JSON) (imported : JSON)
    (now : string) :
  parsed = inr imported ->
  (forall st,
      PipelineEditor.importSPC_try parsed = inr imported ->
      PipelineEditor.spc (PipelineEditor.importSPC (Some parsed) now st) = imported
      /\ PipelineEditor.jsonError (PipelineEditor.importSPC (Some parsed) now st)
         = None)
  /\ (forall st,
         EnhancedPipelineEditor.importSPC_try parsed = inr imported
         /\ EnhancedPipelineEditor.spc
              (EnhancedPipelineEditor.importSPC (Some parsed) now st) = imported)
  /\ (forall accepted,
         PipelineEditor.importSPC_try parsed = inr accepted -> accepted = imported).
Proof.
  intros ->. repeat split.
  - unfold PipelineEditor.importSPC. now rewrite H.
  - unfold PipelineEditor.importSPC. now rewrite H.
  - intros accepted H. apply PipelineEditor_import_accepted in H. now inversion H.
Qed.

Lemma import_replaces_document_witness :
  PipelineEditor.spc
    (PipelineEditor.importSPC (Some (inr unvalidated_document)) "12:00:00"
       (PipelineEditor.setSpc two_services
          (PipelineEditor.initial "2025-01-01T00:00:00.000Z")))
  = unvalidated_document
  /\ EnhancedPipelineEditor.spc
       (EnhancedPipelineEditor.importSPC (Some (inr unvalidated_document)) "12:00:00"
          (EnhancedPipelineEditor.setSpc two_services
             (EnhancedPipelineEditor.initial "2025-01-01T00:00:00.000Z")))
     = unvalidated_document.
Proof.
  destruct (import_replaces_document (inr unvalidated_document) unvalidated_document
              "12:00:00" eq_refl) as (Hp & He & _).
  split.
  - apply Hp. reflexivity.
  - apply He.
Defined.

(** C5.  When the import fails --- [JSON.parse] threw or the check of
    PipelineEditor threw --- the document is the one the editor had, the
    failure is appended to the log at level [error] (PipelineEditor also
    shows its message as [jsonError]), and neither the running flag nor
    the pending timers change: no run starts. *)
Theorem failed_import_changes_nothing (parsed : Result JSON) (now : string)
    (error : Exn) :
  PipelineEditor.importSPC_try parsed = inl error ->
  (forall st,
      let st' := PipelineEditor.importSPC (Some parsed) now st in
      PipelineEditor.spc st' = PipelineEditor.spc st
      /\ PipelineEditor.jsonError st' = Some (exn_message error)
      /\ PipelineEditor.executionLog st'
         = slice_last 50
             (PipelineEditor.executionLog st
                ++ [mkLog "error" ("Import failed: " ++ exn_message error) now])%list
      /\ PipelineEditor.isRunning st' = PipelineEditor.isRunning st
      /\ PipelineEditor.timeouts st' = PipelineEditor.timeouts st
      /\ PipelineEditor.selectedService st' = PipelineEditor.selectedService st)
  /\ (forall est error',
         EnhancedPipelineEditor.importSPC_try parsed = inl error' ->
         let est' := EnhancedPipelineEditor.importSPC (Some parsed) now est in
         EnhancedPipelineEditor.spc est' = EnhancedPipelineEditor.spc est
         /\ EnhancedPipelineEditor.logs est'
            = slice_last 30
                (EnhancedPipelineEditor.logs est
                   ++ [mkLog "error" ("Import failed: " ++ exn_message error') now])%list
         /\ EnhancedPipelineEditor.isRunning est' = EnhancedPipelineEditor.isRunning est
         /\ EnhancedPipelineEditor.timers est' = EnhancedPipelineEditor.timers est
         /\ EnhancedPipelineEditor.crashed est' = EnhancedPipelineEditor.crashed est
         /\ EnhancedPipelineEditor.selectedNode est'
            = EnhancedPipelineEditor.selectedNode est).
Proof.
  intros H. split.
  - intros st. unfold PipelineEditor.importSPC. rewrite H.
    repeat split; reflexivity.
  - intros est error' H'. unfold EnhancedPipelineEditor.importSPC. rewrite H'.
    repeat split; reflexivity.
Qed.

Lemma failed_import_changes_nothing_witness :
  let parsed : Result JSON := inr (JObj [("spc_version", JStr "1.0")]) in
  let st := PipelineEditor.initial "2025-01-01T00:00:00.000Z" in
  let st' := PipelineEditor.importSPC (Some parsed) "12:00:00" st in
  PipelineEditor.spc st' = PipelineEditor.spc st
  /\ PipelineEditor.jsonError st' = Some "Invalid SPC format".
Proof.
  cbv zeta.
  destruct (failed_import_changes_nothing
              (inr (JObj [("spc_version", JStr "1.0")])) "12:00:00"
              (Error "Invalid SPC format") eq_refl) as [H _].
  destruct (H (PipelineEditor.initial "2025-01-01T00:00:00.000Z")) as (H1 & H2 & _).
  split; [exact H1 | exact H2].
Defined.

(** ** Adding a service *)

Lemma lookup_set_prop_same (k : string) (v : JSON) props :
  lookup k (set_prop k v props) = Some v.
Proof.
  induction props as [| [k' v'] rest IH]; cbn.
  - now rewrite String.eqb_refl.
  - destruct (k' =? k) eqn:E; cbn.
    + now rewrite String.eqb_refl.
    + now rewrite E.
Qed.

Lemma lookup_set_prop_other (k k' : string) (v : JSON) props :
  k' <> k -> lookup k' (set_prop k v props) = lookup k' props.
Proof.
  intros Hne. induction props as [| [k0 v0] rest IH]; cbn.
  - apply String.eqb_neq in Hne. rewrite String.eqb_sym in Hne. now rewrite Hne.
  - destruct (k0 =? k) eqn:E; cbn.
    + apply String.eqb_eq in E. subst k0.
      apply String.eqb_neq in Hne. rewrite String.eqb_sym in Hne. now rewrite Hne.
    + destruct (k0 =? k'); [reflexivity | exact IH].
Qed.

Lemma get_services (d : JSON) :
  has_services d -> get (Some d) "services" = Return (field "services" d).
Proof.
  intros (c & Hc & _). rewrite get_field by reflexivity.
  destruct d; try reflexivity. discriminate Hc.
Qed.

Lemma Object_entries_services (d : JSON) :
  has_services d ->
  Object_entries (field "services" d) = Return (services_of d).
Proof.
  intros (c & Hc & Hn). unfold services_of. rewrite Hc.
  destruct c; try reflexivity. now elim Hn.
Qed.

(** The services of the document that both [addService] build. *)
Lemma services_of_added (d : JSON) (id : string) (svc : JSON) :
  has_services d ->
  services_of
    (JObj (set_prop "services"
             (JObj (set_prop id svc (spread (field "services" d))))
             (spread (Some d))))
  = set_prop id svc (services_of d).
Proof.
  intros _. unfold services_of at 1, field at 1.
  cbn [spread own_entries]. now rewrite lookup_set_prop_same.
Qed.

Lemma PipelineEditor_addService_returns (type : string) cfg (now : Z) st :
  PipelineEditor.config_of type PipelineEditor.SERVICE_TYPES = Some cfg ->
  has_services (PipelineEditor.spc st) ->
  exists title,
    PipelineEditor.addService type now st
    = inr (PipelineEditor.setSelectedService (Some (new_id type now))
             (PipelineEditor.setSpc
                (JObj (set_prop "services"
                         (JObj (set_prop (new_id type now)
                                  (JObj [ ("id", JStr (new_id type now));
                                          ("type", JStr type);
                                          ("title", JStr title);
                                          ("spec", JObj (PipelineEditor.defaultSpec cfg));
                                          ("status", JStr "stopped");
                                          ("position",
                                           JObj [("x", JNum 100); ("y", JNum 100)]) ])
                                  (spread (field "services" (PipelineEditor.spc st)))))
                         (spread (Some (PipelineEditor.spc st)))))
                st)).
Proof.
  intros Hcfg Hs. unfold PipelineEditor.addService.
  rewrite Hcfg. cbn [bind Return].
  rewrite (get_services _ Hs). cbn [bind Return].
  unfold Object_keys. rewrite (Object_entries_services _ Hs). cbn [bind Return].
  eexists. reflexivity.
Qed.

Lemma filter_type_returns (type : string) (values : list JSON) :
  Forall (fun v => v <> JNull) values ->
  exists kept, EnhancedPipelineEditor.filter_type type values = inr kept.
Proof.
  induction 1 as [| v rest Hv _ IH]; cbn [EnhancedPipelineEditor.filter_type].
  - now exists [].
  - destruct IH as [kept Hk]. rewrite Hk.
    rewrite get_field by reflexivity.
    destruct v; try (now elim Hv); cbn [bind Return];
      eexists; reflexivity.
Qed.

Lemma Enhanced_addService_returns (type : string) (now : Z) (log_now : string) st :
  has_services (EnhancedPipelineEditor.spc st) ->
  Forall (fun v => v <> JNull) (map snd (services_of (EnhancedPipelineEditor.spc st))) ->
  exists title,
    EnhancedPipelineEditor.addService type now log_now st
    = inr (EnhancedPipelineEditor.addLog "info"
             ("Added " ++ type ++ " service: " ++ new_id type now) log_now
             (EnhancedPipelineEditor.setSpc
                (JObj (set_prop "services"
                         (JObj (set_prop (new_id type now)
                                  (JObj [ ("id", JStr (new_id type now));
                                          ("type", JStr type);
                                          ("title", JStr title);
                                          ("spec", EnhancedPipelineEditor.getDefaultSpec type);
                                          ("status", JStr "stopped");
                                          ("position",
                                           JObj [("x", JNum 300); ("y", JNum 200)]) ])
                                  (spread (field "services" (EnhancedPipelineEditor.spc st)))))
                         (spread (Some (EnhancedPipelineEditor.spc st)))))
                st)).
Proof.
  intros Hs Hnn. unfold EnhancedPipelineEditor.addService.
  rewrite (get_services _ Hs). cbn [bind Return].
  unfold Object_values. rewrite (Object_entries_services _ Hs). cbn [bind Return].
  destruct (filter_type_returns type _ Hnn) as [kept Hk]. rewrite Hk.
  cbn [bind Return]. eexists. reflexivity.
Qed.

(** C9, as the code has it.  On a document with a services container
    (for the enhanced editor, one without [null] entries), adding a
    service of a type of the palette returns; the new service is stored
    under its own [id], with [status] ['stopped'] and the default spec of
    its type; and the entry under every other key is the one that was
    there. *)
Theorem addService_stores_new_service (type : string)
    (cfg : PipelineEditor.ServiceConfig) (now : Z) (log_now : string)
    (pst : PipelineEditor.Editor) (est : EnhancedPipelineEditor.Editor) :
  PipelineEditor.config_of type PipelineEditor.SERVICE_TYPES = Some cfg ->
  has_services (PipelineEditor.spc pst) ->
  has_services (EnhancedPipelineEditor.spc est) ->
  Forall (fun v => v <> JNull)
         (map snd (services_of (EnhancedPipelineEditor.spc est))) ->
  let id := new_id type now in
  (exists pst' svc,
      PipelineEditor.addService type now pst = inr pst'
      /\ service id (PipelineEditor.spc pst') = Some svc
      /\ field "id" svc = Some (JStr id)
      /\ field "type" svc = Some (JStr type)
      /\ field "status" svc = Some (JStr "stopped")
      /\ field "spec" svc = Some (JObj (PipelineEditor.defaultSpec cfg))
      /\ (forall k, k <> id ->
                    service k (PipelineEditor.spc pst')
                    = service k (PipelineEditor.spc pst)))
  /\ (exists est' svc,
         EnhancedPipelineEditor.addService type now log_now est = inr est'
         /\ service id (EnhancedPipelineEditor.spc est') = Some svc
         /\ field "id" svc = Some (JStr id)
         /\ field "type" svc = Some (JStr type)
         /\ field "status" svc = Some (JStr "stopped")
         /\ field "spec" svc = Some (EnhancedPipelineEditor.getDefaultSpec type)
         /\ (forall k, k <> id ->
                       service k (EnhancedPipelineEditor.spc est')
                       = service k (EnhancedPipelineEditor.spc est))).
Proof.
  intros Hcfg Hp He Hnn id. split.
  - destruct (PipelineEditor_addService_returns type cfg now pst Hcfg Hp)
      as [title Hadd].
    eexists; eexists. split; [exact Hadd |].
    cbn [PipelineEditor.spc PipelineEditor.setSelectedService PipelineEditor.setSpc].
    unfold service. rewrite (services_of_added _ _ _ Hp).
    split; [apply lookup_set_prop_same |].
    repeat split; try reflexivity.
    intros k Hk. now apply lookup_set_prop_other.
  - destruct (Enhanced_addService_returns type now log_now est He Hnn)
      as [title Hadd].
    eexists; eexists. split; [exact Hadd |].
    cbn [EnhancedPipelineEditor.spc EnhancedPipelineEditor.addLog
         EnhancedPipelineEditor.setLogs EnhancedPipelineEditor.setSpc].
    unfold service. rewrite (services_of_added _ _ _ He).
    split; [apply lookup_set_prop_same |].
    repeat split; try reflexivity.
    intros k Hk. now apply lookup_set_prop_other.
Qed.

Lemma initial_has_services (created_at : string) :
  has_services (PipelineEditor.spc (PipelineEditor.initial created_at))
  /\ has_services (EnhancedPipelineEditor.spc (EnhancedPipelineEditor.initial created_at)).
Proof.
  split; exists (JObj []); split; (reflexivity || discriminate).
Qed.

Lemma addService_stores_new_service_witness :
  exists pst' svc,
    PipelineEditor.addService "monitor" 1730000000000
      (PipelineEditor.initial "2025-01-01T00:00:00.000Z") = inr pst'
    /\ service "monitor-1730000000000" (PipelineEditor.spc pst') = Some svc
    /\ field "status" svc = Some (JStr "stopped")
    /\ field "spec" svc
       = Some (JObj [("checks", JArr []); ("emit", JStr "onChange")]).
Proof.
  destruct (addService_stores_new_service "monitor"
              (PipelineEditor.mkConfig "Monitor"
                 [("checks", JArr []); ("emit", JStr "onChange")])
              1730000000000 "12:00:00"
              (PipelineEditor.initial "2025-01-01T00:00:00.000Z")
              (EnhancedPipelineEditor.initial "2025-01-01T00:00:00.000Z")
              eq_refl
              (proj1 (initial_has_services "2025-01-01T00:00:00.000Z"))
              (proj2 (initial_has_services "2025-01-01T00:00:00.000Z"))
              (Forall_nil _))
    as [(pst' & svc & H1 & H2 & _ & _ & H3 & H4 & _) _].
  exists pst', svc. repeat split; assumption.
Defined.

(** C9, the claim as stated, fails: two services of one type added
    within the same millisecond get the same id, and the second takes
    the place of the first.  In both editors the entry that was stored
    under that id is gone: the document still has one service, with
    another title. *)
Lemma addService_same_millisecond_replaces :
  exists pst1 pst2 est1 est2,
    PipelineEditor.addService "connector" 1730000000000
      (PipelineEditor.initial "2025-01-01T00:00:00.000Z") = inr pst1
    /\ PipelineEditor.addService "connector" 1730000000000 pst1 = inr pst2
    /\ option_map (field "title")
         (service "connector-1730000000000" (PipelineEditor.spc pst1))
       = Some (Some (JStr "Connector 1"))
    /\ option_map (field "title")
         (service "connector-1730000000000" (PipelineEditor.spc pst2))
       = Some (Some (JStr "Connector 2"))
    /\ length (services_of (PipelineEditor.spc pst2)) = 1
    /\ EnhancedPipelineEditor.addService "connector" 1730000000000 "12:00:00"
         (EnhancedPipelineEditor.initial "2025-01-01T00:00:00.000Z") = inr est1
    /\ EnhancedPipelineEditor.addService "connector" 1730000000000 "12:00:00" est1
       = inr est2
    /\ option_map (field "title")
         (service "connector-1730000000000" (EnhancedPipelineEditor.spc est1))
       = Some (Some (JStr "connector 1"))
    /\ option_map (field "title")
         (service "connector-1730000000000" (EnhancedPipelineEditor.spc est2))
       = Some (Some (JStr "connector 2"))
    /\ length (services_of (EnhancedPipelineEditor.spc est2)) = 1.
Proof.
  do 4 eexists. repeat split; try (vm_compute; reflexivity).
Qed.

(** ** Ticks *)

Import EnhancedPipelineEditor.

Lemma touch_stopped (now : string) (svc : JSON) :
  running svc = false ->
  touch now svc = match svc with
                  | JNull => Throw (cannot_read "null" "status")
                  | _ => Return (svc, false)
                  end.
Proof.
  unfold running, touch. intros H.
  rewrite get_field by reflexivity.
  destruct svc; try reflexivity; cbn [bind Return]; now rewrite H.
Qed.

(** The scan keeps every entry that does not run, also when it stops at
    an exception. *)
Lemma forEach_service_keeps (clock : nat -> string) (id : string) (svc : JSON) :
  running svc = false ->
  forall entries n,
    lookup id entries = Some svc ->
    lookup id (fst (forEach_service clock n entries)) = Some svc.
Proof.
  intros Hstop. induction entries as [| [k v] rest IH]; intros n Hl.
  - discriminate Hl.
  - cbn [forEach_service].
    destruct (touch (clock n) v) as [e | [v' read]] eqn:Ht; [exact Hl |].
    destruct (forEach_service clock (if read then S n else n) rest)
      as [rest' e] eqn:Hrest.
    cbn [fst lookup] in *.
    destruct (k =? id) eqn:Hk.
    + inversion Hl; subst v.
      rewrite (touch_stopped _ _ Hstop) in Ht.
      destruct svc; inversion Ht; reflexivity.
    + specialize (IH (if read then S n else n) Hl).
      now rewrite Hrest in IH.
Qed.

Lemma forEach_service_keys (clock : nat -> string) entries :
  forall n, map fst (fst (forEach_service clock n entries)) = map fst entries.
Proof.
  induction entries as [| [k v] rest IH]; intros n; [reflexivity |].
  cbn [forEach_service].
  destruct (touch (clock n) v) as [e | [v' read]]; [reflexivity |].
  specialize (IH (if read then S n else n)).
  destruct (forEach_service clock (if read then S n else n) rest) as [rest' e].
  cbn [fst map] in *. now rewrite IH.
Qed.

(** Entries that carry the index keys of an array are the entries of the
    array of their values. *)
Lemma indexed_of_values (entries : list (string * JSON)) :
  forall (items : list JSON) (i : nat),
    map fst entries = map fst (indexed i items) ->
    indexed i (map snd entries) = entries.
Proof.
  induction entries as [| [k v] rest IH]; intros items i H; [reflexivity |].
  destruct items as [| x items]; [discriminate H |].
  cbn in H. inversion H as [[Hk Hrest]].
  cbn. f_equal. now apply (IH items).
Qed.

Lemma scan_services_keeps (clock : nat -> string) (id : string) (svc : JSON)
    (container : JSON) :
  running svc = false ->
  lookup id (own_entries container) = Some svc ->
  lookup id (own_entries (fst (scan_services clock container))) = Some svc.
Proof.
  intros Hstop Hl. destruct container; try exact Hl.
  - cbn [scan_services].
    pose proof (forEach_service_keeps clock id svc Hstop (indexed 0 items) 0 Hl) as H.
    pose proof (forEach_service_keys clock (indexed 0 items) 0) as Hk.
    destruct (forEach_service clock 0 (indexed 0 items)) as [entries e].
    cbn [fst own_entries] in *.
    now rewrite (indexed_of_values entries items 0 Hk).
  - cbn [scan_services].
    pose proof (forEach_service_keeps clock id svc Hstop props 0 Hl) as H.
    destruct (forEach_service clock 0 props) as [props' e].
    exact H.
Qed.

(** The updater of the tick keeps every service that does not run. *)
Lemma tick_update_keeps (clock : nat -> string) (id : string) (svc : JSON)
    (d : JSON) :
  running svc = false ->
  service id d = Some svc ->
  service id (fst (tick_update clock d)) = Some svc.
Proof.
  intros Hstop Hs. unfold tick_update.
  unfold service, services_of, field in Hs.
  destruct (lookup "services" (spread (Some d))) as [container |] eqn:Hc;
    [| discriminate Hs].
  destruct container; try discriminate Hs.
  all: match goal with
       | |- context [scan_services ?cl ?c] =>
           pose proof (scan_services_keeps cl id svc c Hstop Hs) as H;
           destruct (scan_services cl c) as [c' e]
       end.
  all: unfold service, services_of, field; cbn [fst spread own_entries] in *;
    rewrite lookup_set_prop_same; exact H.
Qed.

Lemma intervalFires_spc h tick_now clock done_now st :
  let st' := intervalFires h tick_now clock done_now st in
  EnhancedPipelineEditor.spc st' = EnhancedPipelineEditor.spc st
  \/ EnhancedPipelineEditor.spc st'
     = fst (tick_update clock (EnhancedPipelineEditor.spc st)).
Proof.
  cbv zeta. unfold intervalFires.
  destruct (nth_error (timers st) h) as [t |]; [| now left].
  destruct (scheduled t); [| now left].
  destruct (crashed st); [now left | right].
  unfold setSpc_tick.
  cbn [EnhancedPipelineEditor.addLog EnhancedPipelineEditor.setLogs
       EnhancedPipelineEditor.setTimers EnhancedPipelineEditor.spc].
  destruct (tick_update clock (EnhancedPipelineEditor.spc st)) as [d [e |]];
    destruct (5 <=? S (tick t))%nat; reflexivity.
Qed.

(** C7.  A tick leaves every service that is not running exactly as it
    was, [lastRun] included: the callback of the interval of the
    enhanced editor only writes to services whose [status] is
    ['running'] (also when the scan ends in an exception), and the manual
    tick of either editor writes to no service at all. *)
Theorem tick_keeps_stopped_services (id : string) (svc : JSON) :
  running svc = false ->
  (forall h tick_now clock done_now st,
      service id (EnhancedPipelineEditor.spc st) = Some svc ->
      service id
        (EnhancedPipelineEditor.spc (intervalFires h tick_now clock done_now st))
      = Some svc)
  /\ (forall now st,
         service id (EnhancedPipelineEditor.spc st) = Some svc ->
         service id (EnhancedPipelineEditor.spc (EnhancedPipelineEditor.tickOnce now st))
         = Some svc)
  /\ (forall now st,
         service id (PipelineEditor.spc st) = Some svc ->
         service id (PipelineEditor.spc (PipelineEditor.tickOnce now st)) = Some svc).
Proof.
  intros Hstop. repeat split.
  - intros h tick_now clock done_now st Hs.
    destruct (intervalFires_spc h tick_now clock done_now st) as [-> | ->];
      [exact Hs | now apply tick_update_keeps].
  - intros now st Hs. exact Hs.
  - intros now st Hs. exact Hs.
Qed.

Lemma tick_keeps_stopped_services_witness :
  service "m1"
    (EnhancedPipelineEditor.spc
       (intervalFires 0 "12:00:01" (fun _ => "2025-01-01T12:00:01.000Z") "12:00:01"
          (runPipeline "12:00:00"
             (setSpc two_services (initial "2025-01-01T00:00:00.000Z")))))
  = Some (JObj [ ("id", JStr "m1"); ("type", JStr "monitor");
                 ("status", JStr "stopped") ]).
Proof.
  apply (tick_keeps_stopped_services "m1"
           (JObj [ ("id", JStr "m1"); ("type", JStr "monitor");
                   ("status", JStr "stopped") ])
           eq_refl).
  reflexivity.
Defined.

(** C8, as the code has it.  The manual tick of either editor appends
    one entry to the execution log and does nothing else, whether a
    service is running or not: the document, and so its [state], is the
    same, and so are the running flag and the tick counters of the
    intervals.  (Neither editor keeps a ledger.) *)
Theorem tickOnce_only_logs (now : string) (pst : PipelineEditor.Editor)
    (est : EnhancedPipelineEditor.Editor) :
  (PipelineEditor.spc (PipelineEditor.tickOnce now pst) = PipelineEditor.spc pst
   /\ PipelineEditor.executionLog (PipelineEditor.tickOnce now pst)
      = slice_last 50
          (PipelineEditor.executionLog pst
             ++ [mkLog "info" "⚡ Single tick executed" now])%list
   /\ PipelineEditor.isRunning (PipelineEditor.tickOnce now pst)
      = PipelineEditor.isRunning pst
   /\ PipelineEditor.timeouts (PipelineEditor.tickOnce now pst)
      = PipelineEditor.timeouts pst)
  /\
  (EnhancedPipelineEditor.spc (tickOnce now est) = EnhancedPipelineEditor.spc est
   /\ field "state" (EnhancedPipelineEditor.spc (tickOnce now est))
      = field "state" (EnhancedPipelineEditor.spc est)
   /\ logs (tickOnce now est)
      = slice_last 30 (logs est ++ [mkLog "info" "⚡ Manual tick executed" now])%list
   /\ EnhancedPipelineEditor.isRunning (tickOnce now est)
      = EnhancedPipelineEditor.isRunning est
   /\ timers (tickOnce now est) = timers est).
Proof.
  repeat split; reflexivity.
Qed.

(** C8, the claim as stated, fails: with no service in the document and
    the interval of a run at tick 0, a manual tick leaves the tick
    counter at 0. *)
Lemma tickOnce_advances_no_counter :
  let st := runPipeline "12:00:00" (initial "2025-01-01T00:00:00.000Z") in
  services_of (EnhancedPipelineEditor.spc st) = []
  /\ map tick (timers st) = [0]
  /\ map tick (timers (tickOnce "12:00:01" st)) = [0]
  /\ map message (logs (tickOnce "12:00:01" st))
     = ["▶️ Pipeline execution started"; "⚡ Manual tick executed"].
Proof.
  cbv zeta. repeat split; reflexivity.
Qed.

(** ** The interval of a run *)

Lemma nth_error_set_timer_same h t ts :
  h < length ts -> nth_error (set_timer h t ts) h = Some t.
Proof.
  revert h. induction ts as [| t0 rest IH]; intros h Hh; cbn in Hh; [lia |].
  destruct h as [| h']; [reflexivity |]. cbn. apply IH. lia.
Qed.

Lemma nth_error_set_timer_other h h' t ts :
  h' <> h -> nth_error (set_timer h' t ts) h = nth_error ts h.
Proof.
  revert h h'. induction ts as [| t0 rest IH]; intros h h' Hne.
  - now destruct h'.
  - destruct h' as [| h'']; destruct h as [| h0]; cbn; try reflexivity.
    + now elim Hne.
    + apply IH. lia.
Qed.

Lemma addService_timers type now log_now st st' :
  addService type now log_now st = inr st' -> timers st' = timers st.
Proof.
  unfold addService, bind.
  destruct (get (Some (EnhancedPipelineEditor.spc st)) "services"); [discriminate |].
  destruct (Object_values v); [discriminate |].
  destruct (filter_type type l); [discriminate |].
  intros H; inversion H; reflexivity.
Qed.

Lemma exportSPC_timers now st d st' :
  exportSPC now st = inr (d, st') -> timers st' = timers st.
Proof.
  unfold exportSPC, bind.
  destruct (get (Some (EnhancedPipelineEditor.spc st)) "meta"); [discriminate |].
  destruct (get v "name"); [discriminate |].
  destruct (replace_receiver "spc.meta.name" v0); [discriminate |].
  intros H; inversion H; reflexivity.
Qed.

Lemma importSPC_timers file now st :
  timers (importSPC file now st) = timers st.
Proof.
  unfold importSPC. destruct file as [parsed |]; [| reflexivity].
  destruct (importSPC_try parsed); reflexivity.
Qed.

Lemma setSpc_tick_timers clock st :
  timers (setSpc_tick clock st) = timers st.
Proof.
  unfold setSpc_tick.
  destruct (tick_update clock (EnhancedPipelineEditor.spc st)) as [d [e |]];
    reflexivity.
Qed.

(** The timers after the callback of interval [h] has run. *)
Lemma intervalFires_timers h tick_now clock done_now st :
  timers (intervalFires h tick_now clock done_now st)
  = match nth_error (timers st) h with
    | Some t =>
        if scheduled t
        then set_timer h (mkTimer (S (tick t)) (negb (5 <=? S (tick t))%nat))
                       (timers st)
        else timers st
    | None => timers st
    end.
Proof.
  unfold intervalFires.
  destruct (nth_error (timers st) h) as [t |]; [| reflexivity].
  destruct (scheduled t); [| reflexivity].
  destruct (crashed st); [reflexivity |].
  destruct (5 <=? S (tick t))%nat; cbn; now rewrite setSpc_tick_timers.
Qed.

(** No event but the callback of interval [h] itself touches it. *)
Lemma step_other_timer st ev h :
  h < length (timers st) ->
  count_fires h [ev] = 0 ->
  nth_error (timers (step st ev)) h = nth_error (timers st) h.
Proof.
  intros Hh Hc.
  destruct ev as [now | now | now | h' tick_now clock done_now
                  | type now log_now | file now | now];
    cbn [step]; try (destruct (crashed st); reflexivity).
  - destruct (crashed st); [reflexivity |].
    cbn. now apply nth_error_app1.
  - rewrite intervalFires_timers.
    cbn in Hc. destruct (Nat.eqb_spec h' h) as [-> | Hne]; [discriminate Hc |].
    destruct (nth_error (timers st) h') as [t |]; [| reflexivity].
    destruct (scheduled t); [| reflexivity].
    now apply nth_error_set_timer_other.
  - destruct (crashed st); [reflexivity |].
    destruct (addService type now log_now st) as [e | st'] eqn:E; [reflexivity |].
    now rewrite (addService_timers _ _ _ _ _ E).
  - destruct (crashed st); [reflexivity |]. now rewrite importSPC_timers.
  - destruct (crashed st); [reflexivity |].
    destruct (exportSPC now st) as [e | [d st']] eqn:E; [reflexivity |].
    now rewrite (exportSPC_timers _ _ _ _ E).
Qed.

Lemma count_fires_cons h ev evs :
  count_fires h (ev :: evs) = count_fires h [ev] + count_fires h evs.
Proof.
  destruct ev; cbn; lia.
Qed.

(** Interval [h], at tick [k] and scheduled while [k < 5], after any
    sequence of events. *)
Lemma exec_timer h evs :
  forall st k,
    k <= 5 ->
    nth_error (timers st) h = Some (mkTimer k (k <? 5)%nat) ->
    nth_error (timers (exec evs st)) h
    = Some (mkTimer (Nat.min 5 (k + count_fires h evs))
                    (k + count_fires h evs <? 5)%nat).
Proof.
  induction evs as [| ev evs IH]; intros st k Hk Ht.
  - cbn [exec fold_left count_fires]. rewrite Nat.add_0_r.
    replace (Nat.min 5 k) with k by lia. exact Ht.
  - assert (Hh : h < length (timers st)).
    { apply nth_error_Some. rewrite Ht. discriminate. }
    rewrite count_fires_cons. cbn [exec fold_left].
    destruct (count_fires h [ev]) as [| c] eqn:Hc.
    + specialize (IH (step st ev) k Hk).
      rewrite (step_other_timer st ev h Hh Hc) in IH.
      cbn [Nat.add]. apply IH. exact Ht.
    + destruct ev as [now | now | now | h' tick_now clock done_now
                      | type now log_now | file now | now];
        try discriminate Hc.
      cbn in Hc. destruct (Nat.eqb_spec h' h) as [-> | Hne]; [| discriminate Hc].
      inversion Hc; subst c. clear Hc.
      pose proof (intervalFires_timers h tick_now clock done_now st) as Hf.
      rewrite Ht in Hf. cbn [scheduled tick] in Hf.
      destruct (Nat.ltb_spec k 5) as [Hlt | Hge].
      * specialize (IH (step st (Fire h tick_now clock done_now)) (S k)).
        replace (k + (1 + count_fires h evs)) with (S k + count_fires h evs) by lia.
        apply IH; [lia |].
        cbn [step]. rewrite Hf.
        rewrite nth_error_set_timer_same by exact Hh.
        do 2 f_equal.
        destruct (Nat.leb_spec 5 (S k)); destruct (Nat.ltb_spec (S k) 5);
          (reflexivity || lia).
      * assert (k = 5) by lia. subst k.
        specialize (IH (step st (Fire h tick_now clock done_now)) 5).
        replace (Nat.min 5 (5 + (1 + count_fires h evs)))
          with (Nat.min 5 (5 + count_fires h evs)) by lia.
        replace (5 + (1 + count_fires h evs) <? 5)%nat
          with (5 + count_fires h evs <? 5)%nat.
        2:{ destruct (Nat.ltb_spec (5 + count_fires h evs) 5);
            destruct (Nat.ltb_spec (5 + (1 + count_fires h evs)) 5);
            (reflexivity || lia). }
        apply IH; [lia |].
        cbn [step]. rewrite Hf. exact Ht.
Qed.

(** C3, as the code has it.  The interval that [runPipeline()] starts
    runs its callback five times and is then cleared, whatever happens
    in between: after any sequence of events (stops, manual ticks, more
    runs, imports, added services, callbacks of other intervals) its tick
    counter is the number of its callbacks that were due, at most five,
    and it stays scheduled until the fifth. *)
Theorem run_ticks_five_times (now : string) (st : EnhancedPipelineEditor.Editor)
    (evs : list Event) :
  let h := length (timers st) in
  nth_error (timers (exec evs (runPipeline now st))) h
  = Some (mkTimer (Nat.min 5 (count_fires h evs)) (count_fires h evs <? 5)%nat).
Proof.
  cbv zeta.
  apply (exec_timer (length (timers st)) evs (runPipeline now st) 0); [lia |].
  cbn. rewrite nth_error_app2 by lia. now rewrite Nat.sub_diag.
Qed.

(** C3, the claim as stated, fails.  (1) After [stopPipeline()] the next
    callback still runs a tick, and the interval stays scheduled.
    (2) With a service running and no stop, the interval is cleared by
    its fifth callback.  (3) With no service in the document at all, the
    interval keeps ticking. *)
Lemma stop_does_not_end_the_loop :
  let st := setSpc two_services (initial "2025-01-01T00:00:00.000Z") in
  let fire := Fire 0 "12:00:01" (fun _ => "2025-01-01T12:00:01.000Z") "12:00:01" in
  let stopped := exec [Run "12:00:00"; Stop "12:00:00"; fire] st in
  let left_alone := exec [Run "12:00:00"; fire; fire; fire; fire; fire] st in
  let empty := exec [Run "12:00:00"; fire; fire] (initial "2025-01-01T00:00:00.000Z") in
  (timers stopped = [mkTimer 1 true]
   /\ map message (logs stopped)
      = [ "▶️ Pipeline execution started";
          "⏹ Pipeline stopped by user";
          "⚡ Tick 1 - Processing services..." ]
   /\ option_map (field "lastRun") (service "c1" (EnhancedPipelineEditor.spc stopped))
      = Some (Some (JStr "2025-01-01T12:00:01.000Z")))
  /\ (timers left_alone = [mkTimer 5 false]
      /\ EnhancedPipelineEditor.isRunning left_alone = false
      /\ option_map running (service "c1" (EnhancedPipelineEditor.spc left_alone))
         = Some true)
  /\ (services_of (EnhancedPipelineEditor.spc empty) = []
      /\ timers empty = [mkTimer 2 true]).
Proof.
  cbv zeta. repeat split; vm_compute; reflexivity.
Qed.

(** ** Two runs of one document *)

Lemma lookup_remove_prop_other (k k' : string) props :
  k' <> k -> lookup k' (remove_prop k props) = lookup k' props.
Proof.
  intros Hne. induction props as [| [k0 v0] rest IH]; [reflexivity |].
  cbn. destruct (k0 =? k) eqn:E.
  - apply String.eqb_eq in E. subst k0.
    apply String.eqb_neq in Hne. rewrite String.eqb_sym in Hne. now rewrite Hne.
  - cbn. destruct (k0 =? k'); [reflexivity | exact IH].
Qed.

Lemma remove_prop_set_prop (k : string) (v : JSON) props :
  remove_prop k (set_prop k v props) = remove_prop k props.
Proof.
  induction props as [| [k0 v0] rest IH]; cbn.
  - now rewrite String.eqb_refl.
  - destruct (k0 =? k) eqn:E; cbn.
    + now rewrite String.eqb_refl.
    + now rewrite E, IH.
Qed.

(** Services that differ in [lastRun] only are treated alike by the
    tick: the same exception, or the same decision to read the clock,
    and results that again differ in [lastRun] only. *)
Lemma touch_forget (now1 now2 : string) (a b : JSON) :
  forget_lastRun a = forget_lastRun b ->
  match touch now1 a, touch now2 b with
  | inl e1, inl e2 => e1 = e2
  | inr (a', r1), inr (b', r2) => forget_lastRun a' = forget_lastRun b' /\ r1 = r2
  | _, _ => False
  end.
Proof.
  intros H. unfold touch. rewrite !get_field by reflexivity.
  destruct a as [| | | | | pa]; destruct b as [| | | | | pb];
    try discriminate H; cbn in H; try (inversion H; subst);
    cbn [bind Return Throw]; try reflexivity.
  all: try (destruct (is_string "running" _); cbn; split; reflexivity).
  unfold field; cbn [spread own_entries].
  assert (Hs : lookup "status" pa = lookup "status" pb).
  { rewrite <- (lookup_remove_prop_other "lastRun" "status" pa) by discriminate.
    rewrite <- (lookup_remove_prop_other "lastRun" "status" pb) by discriminate.
    now rewrite H1. }
  rewrite Hs.
  destruct (is_string "running" (lookup "status" pb)); cbn.
  - split; [| reflexivity]. now rewrite !remove_prop_set_prop, H1.
  - split; [| reflexivity]. now rewrite H1.
Qed.

Lemma forEach_service_forget (clock1 clock2 : nat -> string) entries1 :
  forall entries2 n1 n2,
    map forget_entry entries1 = map forget_entry entries2 ->
    map forget_entry (fst (forEach_service clock1 n1 entries1))
    = map forget_entry (fst (forEach_service clock2 n2 entries2))
    /\ snd (forEach_service clock1 n1 entries1)
       = snd (forEach_service clock2 n2 entries2).
Proof.
  induction entries1 as [| [k1 a] rest1 IH]; intros [| [k2 b] rest2] n1 n2 H;
    try discriminate H; [now split |].
  pose proof H as H0.
  cbn in H. inversion H as [[Hk Hab Hrest]]. subst k2.
  cbn [forEach_service].
  pose proof (touch_forget (clock1 n1) (clock2 n2) a b Hab) as Ht.
  destruct (touch (clock1 n1) a) as [e1 | [a' r1]];
    destruct (touch (clock2 n2) b) as [e2 | [b' r2]];
    try (exfalso; exact Ht).
  - subst e2. cbn [fst snd]. split; [exact H0 | reflexivity].
  - destruct Ht as [Hab' <-].
    specialize (IH rest2 (if r1 then S n1 else n1) (if r1 then S n2 else n2) Hrest).
    destruct (forEach_service clock1 (if r1 then S n1 else n1) rest1) as [r1' e1].
    destruct (forEach_service clock2 (if r1 then S n2 else n2) rest2) as [r2' e2].
    cbn [fst snd map] in *. destruct IH as [IH1 IH2].
    unfold forget_entry at 1 3. cbn [fst snd].
    split; [now rewrite Hab', IH1 | exact IH2].
Qed.

Lemma indexed_forget (items : list JSON) :
  forall i, map forget_entry (indexed i items) = indexed i (map forget_lastRun items).
Proof.
  induction items as [| x rest IH]; intros i; [reflexivity |].
  cbn. now rewrite IH.
Qed.

Lemma scan_services_forget (clock1 clock2 : nat -> string) (c1 c2 : JSON) :
  forget_container c1 = forget_container c2 ->
  forget_container (fst (scan_services clock1 c1))
  = forget_container (fst (scan_services clock2 c2))
  /\ snd (scan_services clock1 c1) = snd (scan_services clock2 c2).
Proof.
  intros H.
  destruct c1 as [| | | | i1 | p1]; destruct c2 as [| | | | i2 | p2];
    try discriminate H; try (now split).
  - cbn in H. inversion H as [Hi].
    assert (He : map forget_entry (indexed 0 i1) = map forget_entry (indexed 0 i2))
      by now rewrite !indexed_forget, Hi.
    destruct (forEach_service_forget clock1 clock2 _ _ 0 0 He) as [H1 H2].
    cbn [scan_services].
    destruct (forEach_service clock1 0 (indexed 0 i1)) as [e1 x1].
    destruct (forEach_service clock2 0 (indexed 0 i2)) as [e2 x2].
    cbn [fst snd forget_container] in *. split; [| exact H2].
    f_equal.
    transitivity (map snd (map forget_entry e1)); [now rewrite !map_map |].
    rewrite H1. now rewrite !map_map.
  - cbn in H. inversion H as [Hp].
    destruct (forEach_service_forget clock1 clock2 _ _ 0 0 Hp) as [H1 H2].
    cbn [scan_services].
    destruct (forEach_service clock1 0 p1) as [e1 x1].
    destruct (forEach_service clock2 0 p2) as [e2 x2].
    cbn [fst snd forget_container] in *. split; [now rewrite H1 | exact H2].
Qed.

Lemma forget_container_null (c : JSON) :
  forget_container c = JNull -> c = JNull.
Proof.
  destruct c; cbn; intros H; (reflexivity || discriminate H).
Qed.

(** Documents that agree up to [lastRun] have services containers that
    do. *)
Lemma lookup_services_forget props1 :
  forall props2,
    map forget_services props1 = map forget_services props2 ->
    match lookup "services" props1, lookup "services" props2 with
    | Some c1, Some c2 => forget_container c1 = forget_container c2
    | None, None => True
    | _, _ => False
    end.
Proof.
  induction props1 as [| [k1 v1] rest1 IH]; intros [| [k2 v2] rest2] H;
    try discriminate H; [exact I |].
  cbn in H. inversion H as [[Hhead Hrest]].
  unfold forget_services in Hhead. cbn [fst snd] in Hhead.
  cbn [lookup].
  destruct (k1 =? "services") eqn:E1; destruct (k2 =? "services") eqn:E2;
    inversion Hhead; subst; try congruence.
  now apply IH.
Qed.

Lemma set_services_forget (c1 c2 : JSON) props1 :
  forget_container c1 = forget_container c2 ->
  forall props2,
    map forget_services props1 = map forget_services props2 ->
    map forget_services (set_prop "services" c1 props1)
    = map forget_services (set_prop "services" c2 props2).
Proof.
  intros Hc.
  induction props1 as [| [k1 v1] rest1 IH]; intros [| [k2 v2] rest2] H;
    try discriminate H.
  - cbn. unfold forget_services. cbn. now rewrite Hc.
  - cbn in H. inversion H as [[Hhead Hrest]].
    unfold forget_services in Hhead. cbn [fst snd] in Hhead.
    cbn [set_prop].
    destruct (k1 =? "services") eqn:E1; destruct (k2 =? "services") eqn:E2;
      inversion Hhead; subst; try congruence.
    + cbn [map]. f_equal; [| exact Hrest].
      unfold forget_services. cbn. now rewrite Hc.
    + cbn [map]. f_equal. exact (IH rest2 Hrest).
Qed.

Lemma spread_forget (d1 d2 : JSON) :
  forget_clock d1 = forget_clock d2 ->
  map forget_services (spread (Some d1)) = map forget_services (spread (Some d2)).
Proof.
  intros H.
  destruct d1; destruct d2; try discriminate H; cbn in H;
    inversion H; subst; reflexivity || assumption.
Qed.

(** The tick does to two documents that agree up to [lastRun] the same
    thing up to [lastRun], whatever the two clocks show. *)
Lemma tick_update_forget (clock1 clock2 : nat -> string) (d1 d2 : JSON) :
  forget_clock d1 = forget_clock d2 ->
  forget_clock (fst (tick_update clock1 d1))
  = forget_clock (fst (tick_update clock2 d2))
  /\ snd (tick_update clock1 d1) = snd (tick_update clock2 d2).
Proof.
  intros H. unfold tick_update.
  pose proof (spread_forget d1 d2 H) as Hp.
  pose proof (lookup_services_forget _ _ Hp) as Hl.
  destruct (lookup "services" (spread (Some d1))) as [c1 |];
    destruct (lookup "services" (spread (Some d2))) as [c2 |];
    try (exfalso; exact Hl).
  2: now split.
  destruct (scan_services_forget clock1 clock2 c1 c2 Hl) as [Hs1 Hs2].
  destruct c1; destruct c2; try discriminate Hl; try (now split).
  all: destruct (scan_services clock1 _) as [c1' e1];
    destruct (scan_services clock2 _) as [c2' e2];
    cbn [fst snd forget_clock] in *;
    split; [f_equal; now apply set_services_forget | exact Hs2].
Qed.

Lemma map_slice_last {A B : Type} (f : A -> B) (n : nat) (l : list A) :
  map f (slice_last n l) = slice_last n (map f l).
Proof.
  unfold slice_last. now rewrite skipn_map, length_map.
Qed.

Lemma addLog_same_up_to_clock lvl msg now1 now2 a b :
  same_up_to_clock a b ->
  same_up_to_clock (addLog lvl msg now1 a) (addLog lvl msg now2 b).
Proof.
  intros (Hd & Hl & Hr & Ht & Hc & Hs).
  repeat split; try assumption.
  cbn [addLog setLogs logs LOG_CAP].
  rewrite !map_slice_last, !map_app, Hl. reflexivity.
Qed.

Lemma setSpc_tick_same_up_to_clock clock1 clock2 a b :
  same_up_to_clock a b ->
  same_up_to_clock (setSpc_tick clock1 a) (setSpc_tick clock2 b).
Proof.
  intros (Hd & Hl & Hr & Ht & Hc & Hs).
  unfold setSpc_tick.
  destruct (tick_update_forget clock1 clock2 _ _ Hd) as [H1 H2].
  destruct (tick_update clock1 (EnhancedPipelineEditor.spc a)) as [d1 e1].
  destruct (tick_update clock2 (EnhancedPipelineEditor.spc b)) as [d2 e2].
  cbn [fst snd] in *. subst e2.
  destruct e1; repeat split; assumption.
Qed.

Lemma intervalFires_same_up_to_clock h t1 t2 clock1 clock2 d1 d2 a b :
  same_up_to_clock a b ->
  same_up_to_clock (intervalFires h t1 clock1 d1 a) (intervalFires h t2 clock2 d2 b).
Proof.
  intros H. pose proof H as (Hd & Hl & Hr & Ht & Hc & Hs).
  unfold intervalFires. rewrite <- Ht, <- Hc.
  destruct (nth_error (timers a) h) as [t |]; [| exact H].
  destruct (scheduled t); [| exact H].
  assert (H0 : same_up_to_clock
                 (setTimers (set_timer h (mkTimer (S (tick t))
                                            (negb (5 <=? S (tick t))%nat)) (timers a)) a)
                 (setTimers (set_timer h (mkTimer (S (tick t))
                                            (negb (5 <=? S (tick t))%nat)) (timers a)) b))
    by (repeat split; assumption).
  destruct (crashed a); [exact H0 |].
  pose proof (setSpc_tick_same_up_to_clock clock1 clock2 _ _
                (addLog_same_up_to_clock "info"
                   ("⚡ Tick " ++ string_of_nat (S (tick t)) ++ " - Processing services...")
                   t1 t2 _ _ H0)) as H1.
  destruct (5 <=? S (tick t))%nat; [| exact H1].
  apply addLog_same_up_to_clock.
  destruct H1 as (Hd1 & Hl1 & Hr1 & Ht1 & Hc1 & Hs1).
  repeat split; assumption.
Qed.

Lemma runPipeline_same_up_to_clock now1 now2 a b :
  same_up_to_clock a b ->
  same_up_to_clock (runPipeline now1 a) (runPipeline now2 b).
Proof.
  intros H. unfold runPipeline.
  pose proof H as (_ & _ & _ & Ht0 & _ & _).
  assert (H0 : same_up_to_clock (setIsRunning true a) (setIsRunning true b)).
  { destruct H as (Hd & Hl & Hr & Ht & Hc & Hs). repeat split; assumption. }
  pose proof (addLog_same_up_to_clock "success" "▶️ Pipeline execution started"
                now1 now2 _ _ H0) as (Hd & Hl & Hr & Ht & Hc & Hs).
  repeat split; try assumption.
  cbn. now rewrite Ht0.
Qed.

Lemma fires_same_up_to_clock h c1 c2 count :
  forall k a b,
    same_up_to_clock a b ->
    same_up_to_clock (exec (fires h c1 k count) a) (exec (fires h c2 k count) b).
Proof.
  induction count as [| count IH]; intros k a b H; [exact H |].
  cbn [fires exec fold_left step]. apply IH.
  now apply intervalFires_same_up_to_clock.
Qed.

Lemma run_same_up_to_clock c1 c2 st :
  same_up_to_clock (run c1 st) (run c2 st).
Proof.
  unfold run. cbn [exec fold_left].
  apply fires_same_up_to_clock.
  cbn [step]. destruct (crashed st).
  - repeat split.
  - apply runPipeline_same_up_to_clock. repeat split.
Qed.

(** A tick writes to [services] only: every other property of the
    document, [state] among them, is the one that was there. *)
Lemma tick_update_other_field (clock : nat -> string) (d : JSON) (k : string) :
  k <> "services" ->
  field k (fst (tick_update clock d)) = field k d.
Proof.
  intros Hk. unfold tick_update.
  destruct (lookup "services" (spread (Some d))) as [c |]; [| reflexivity].
  destruct c; try reflexivity.
  all: destruct (scan_services clock _) as [c' e]; cbn [fst];
    unfold field; cbn [spread own_entries];
    now apply lookup_set_prop_other.
Qed.

Lemma intervalFires_other_field h tick_now clock done_now st k :
  k <> "services" ->
  field k (EnhancedPipelineEditor.spc (intervalFires h tick_now clock done_now st))
  = field k (EnhancedPipelineEditor.spc st).
Proof.
  intros Hk.
  destruct (intervalFires_spc h tick_now clock done_now st) as [-> | ->];
    [reflexivity | now apply tick_update_other_field].
Qed.

Lemma fires_other_field h c count key :
  key <> "services" ->
  forall k st,
    field key (EnhancedPipelineEditor.spc (exec (fires h c k count) st))
    = field key (EnhancedPipelineEditor.spc st).
Proof.
  intros Hk. induction count as [| count IH]; intros k st; [reflexivity |].
  cbn [fires exec fold_left step].
  etransitivity; [apply IH |]. now apply intervalFires_other_field.
Qed.

Lemma run_other_field c st key :
  key <> "services" ->
  field key (EnhancedPipelineEditor.spc (run c st))
  = field key (EnhancedPipelineEditor.spc st).
Proof.
  intros Hk. unfold run. cbn [exec fold_left].
  etransitivity; [now apply fires_other_field |].
  cbn [step]. destruct (crashed st); reflexivity.
Qed.

(** ** Export *)

(** When [meta.name] is a string, both editors hand the browser the
    serialization of the whole document. *)
Lemma export_serializes_document (now : string) (meta : JSON) (name : string)
    (pst : PipelineEditor.Editor) (est : EnhancedPipelineEditor.Editor) :
  field "meta" (PipelineEditor.spc pst) = Some meta ->
  field "meta" (EnhancedPipelineEditor.spc est) = Some meta ->
  field "name" meta = Some (JStr name) ->
  PipelineEditor.exportSPC now pst
  = inr (mkDownload (toLowerCase (replace_spaces false name) ++ ".spc.json")
                    (JSON_stringify (PipelineEditor.spc pst)),
         PipelineEditor.addLog "info" "SPC exported successfully" now pst)
  /\ exportSPC now est
     = inr (mkDownload (replace_spaces false name ++ ".spc.json")
                       (JSON_stringify (EnhancedPipelineEditor.spc est)),
            addLog "success" "📥 SPC exported successfully" now est).
Proof.
  intros Hp He Hn.
  assert (Hm : meta <> JNull) by (intros ->; discriminate Hn).
  unfold PipelineEditor.exportSPC, exportSPC.
  rewrite !get_field by reflexivity.
  destruct (PipelineEditor.spc pst) eqn:Ep; try discriminate Hp;
    destruct (EnhancedPipelineEditor.spc est) eqn:Ee; try discriminate He;
    rewrite Hp, He; cbn [bind Return];
    rewrite !get_field by reflexivity;
    destruct meta; try (now elim Hm); rewrite Hn; split; reflexivity.
Qed.

(** C6.  Both editors import [nameless_document] and then cannot export
    it: [exportSPC] throws on [spc.meta.name.replace] before the download
    is triggered, so no serialization is produced. *)
Theorem export_throws_without_name :
  let pst := PipelineEditor.importSPC (Some (inr nameless_document)) "12:00:00"
               (PipelineEditor.initial "2025-01-01T00:00:00.000Z") in
  let est := importSPC (Some (inr nameless_document)) "12:00:00"
               (initial "2025-01-01T00:00:00.000Z") in
  PipelineEditor.spc pst = nameless_document
  /\ PipelineEditor.jsonError pst = None
  /\ PipelineEditor.exportSPC "12:00:01" pst
     = inl (TypeError "Cannot read properties of undefined (reading 'replace')")
  /\ EnhancedPipelineEditor.spc est = nameless_document
  /\ exportSPC "12:00:01" est
     = inl (TypeError "Cannot read properties of undefined (reading 'replace')").
Proof.
  cbv zeta. repeat split; reflexivity.
Qed.

(** * The service handlers *)

(** ** Own properties: define, merge, delete *)

Lemma lookup_absent_head (k k' : string) (v' : JSON) rest :
  lookup k ((k', v') :: rest) = None -> (k' =? k) = false /\ lookup k rest = None.
Proof.
  cbn. destruct (k' =? k); [discriminate | now split].
Qed.

Lemma lookup_insert_index_same (i : N) (k : string) (v : JSON) props :
  lookup k props = None -> lookup k (insert_index i k v props) = Some v.
Proof.
  induction props as [| [k' v'] rest IH]; intros H; cbn.
  - now rewrite String.eqb_refl.
  - destruct (lookup_absent_head _ _ _ _ H) as [Hk Hrest].
    destruct (array_index k') as [j |]; [destruct (j <? i)%N |]; cbn;
      rewrite ?Hk, ?String.eqb_refl; auto.
Qed.

Lemma lookup_insert_index_other (i : N) (k k' : string) (v : JSON) props :
  k' <> k -> lookup k' (insert_index i k v props) = lookup k' props.
Proof.
  intros Hne. apply String.eqb_neq in Hne. rewrite String.eqb_sym in Hne.
  induction props as [| [k0 v0] rest IH]; cbn.
  - now rewrite Hne.
  - destruct (array_index k0) as [j |]; [destruct (j <? i)%N |]; cbn;
      rewrite ?Hne; try reflexivity.
    now rewrite IH.
Qed.

Lemma lookup_define_own_same (k : string) (v : JSON) props :
  lookup k (define_own k v props) = Some v.
Proof.
  unfold define_own.
  destruct (lookup k props) eqn:E; [apply lookup_set_prop_same |].
  destruct (array_index k);
    [now apply lookup_insert_index_same | apply lookup_set_prop_same].
Qed.

Lemma lookup_define_own_other (k k' : string) (v : JSON) props :
  k' <> k -> lookup k' (define_own k v props) = lookup k' props.
Proof.
  intros Hne. unfold define_own.
  destruct (lookup k props); [now apply lookup_set_prop_other |].
  destruct (array_index k);
    [now apply lookup_insert_index_other | now apply lookup_set_prop_other].
Qed.

(** A key that [more] does not write keeps its value. *)
Lemma lookup_merge_other (k : string) more :
  forall props,
    lookup k more = None -> lookup k (merge props more) = lookup k props.
Proof.
  induction more as [| [k0 v0] rest IH]; intros props H; [reflexivity |].
  destruct (lookup_absent_head _ _ _ _ H) as [Hk Hrest].
  cbn [merge fold_left fst snd]. fold (merge (define_own k0 v0 props) rest).
  rewrite (IH _ Hrest). apply lookup_define_own_other.
  intros ->. now rewrite String.eqb_refl in Hk.
Qed.

Lemma lookup_none_not_in (k : string) props :
  ~ In k (map fst props) -> lookup k props = None.
Proof.
  induction props as [| [k0 v0] rest IH]; intros H; [reflexivity |].
  cbn in *. destruct (String.eqb_spec k0 k) as [-> | Hne].
  - elim H. now left.
  - apply IH. intros Hin. apply H. now right.
Qed.

(** A key that [more] writes gets the value written. *)
Lemma lookup_merge_written (k : string) (v : JSON) more :
  forall props,
    NoDup (map fst more) ->
    lookup k more = Some v -> lookup k (merge props more) = Some v.
Proof.
  induction more as [| [k0 v0] rest IH]; intros props Hnd H; [discriminate H |].
  cbn [merge fold_left fst snd]. fold (merge (define_own k0 v0 props) rest).
  cbn in Hnd. inversion Hnd as [| ? ? Hnotin Hnd']; subst.
  cbn in H. destruct (String.eqb_spec k0 k) as [-> | Hne].
  - inversion H; subst v0.
    rewrite lookup_merge_other by now apply lookup_none_not_in.
    apply lookup_define_own_same.
  - now apply IH.
Qed.

Lemma lookup_delete_prop_same (k : string) props :
  lookup k (delete_prop k props) = None.
Proof.
  induction props as [| [k0 v0] rest IH]; [reflexivity |].
  cbn. destruct (k0 =? k) eqn:E; [exact IH |]. cbn. now rewrite E.
Qed.

Lemma lookup_delete_prop_other (k k' : string) props :
  k' <> k -> lookup k' (delete_prop k props) = lookup k' props.
Proof.
  intros Hne. induction props as [| [k0 v0] rest IH]; [reflexivity |].
  cbn. destruct (k0 =? k) eqn:E.
  - apply String.eqb_eq in E. subst k0.
    apply String.eqb_neq in Hne. rewrite String.eqb_sym in Hne. now rewrite Hne.
  - cbn. destruct (k0 =? k'); [reflexivity | exact IH].
Qed.

Lemma delete_prop_absent (k : string) props :
  lookup k props = None -> delete_prop k props = props.
Proof.
  induction props as [| [k0 v0] rest IH]; intros H; [reflexivity |].
  destruct (lookup_absent_head _ _ _ _ H) as [Hk Hrest].
  cbn. rewrite Hk. now rewrite IH.
Qed.

Lemma delete_set_prop_fresh (k : string) (v : JSON) props :
  lookup k props = None -> delete_prop k (set_prop k v props) = props.
Proof.
  induction props as [| [k0 v0] rest IH]; intros H; cbn.
  - now rewrite String.eqb_refl.
  - destruct (lookup_absent_head _ _ _ _ H) as [Hk Hrest].
    rewrite Hk. cbn. rewrite Hk. now rewrite IH.
Qed.

Lemma set_prop_same_value (k : string) (v : JSON) props :
  lookup k props = Some v -> set_prop k v props = props.
Proof.
  induction props as [| [k0 v0] rest IH]; intros H; [discriminate H |].
  cbn in *. destruct (String.eqb_spec k0 k) as [-> | Hne].
  - now inversion H.
  - now rewrite IH.
Qed.

Lemma set_prop_twice (k : string) (v v' : JSON) props :
  set_prop k v (set_prop k v' props) = set_prop k v props.
Proof.
  induction props as [| [k0 v0] rest IH]; cbn.
  - now rewrite String.eqb_refl.
  - destruct (k0 =? k) eqn:E; cbn.
    + now rewrite String.eqb_refl.
    + now rewrite E, IH.
Qed.

Lemma define_own_present (k : string) (v w : JSON) props :
  lookup k props = Some w -> define_own k v props = set_prop k v props.
Proof.
  intros H. unfold define_own. now rewrite H.
Qed.

(** The key of an array element or of a character starts with a digit. *)
Lemma string_of_nat_digit (n : nat) :
  exists c rest,
    string_of_nat n = String c rest
    /\ (48 <=? nat_of_ascii c)%nat && (nat_of_ascii c <=? 57)%nat = true.
Proof.
  unfold string_of_nat, NilZero.string_of_uint.
  destruct (Nat.to_uint n); cbn; eexists; eexists; split; reflexivity.
Qed.

Lemma lookup_indexed_not_numeral (c : ascii) (rest : string) items :
  (48 <=? nat_of_ascii c)%nat && (nat_of_ascii c <=? 57)%nat = false ->
  forall i, lookup (String c rest) (indexed i items) = None.
Proof.
  intros Hc. induction items as [| x xs IH]; intros i; [reflexivity |].
  cbn [indexed lookup].
  destruct (string_of_nat_digit i) as (c' & rest' & -> & Hd).
  destruct (String.eqb_spec (String c' rest') (String c rest)) as [E |]; [| apply IH].
  inversion E; subst. rewrite Hd in Hc. discriminate Hc.
Qed.

(** [services[id]] is spread like the own entry under [id], whatever
    else the read finds. *)
Lemma get_key_spread (container : JSON) (id : string) :
  container <> JNull ->
  exists v,
    get (Some container) id = inr v
    /\ spread v = spread (lookup id (own_entries container)).
Proof.
  intros Hn.
  destruct container; try (now elim Hn); cbn [get own_entries];
    try (eexists; split; reflexivity).
  - destruct (String.eqb_spec id "length") as [-> | _];
      eexists; (split; [reflexivity |]); [| reflexivity].
    now rewrite lookup_indexed_not_numeral.
  - destruct (String.eqb_spec id "length") as [-> | _];
      eexists; (split; [reflexivity |]); [| reflexivity].
    now rewrite lookup_indexed_not_numeral.
Qed.

Lemma has_services_field (d : JSON) :
  has_services d ->
  exists container,
    field "services" d = Some container /\ container <> JNull
    /\ services_of d = own_entries container.
Proof.
  intros (c & Hc & Hn). exists c. repeat split; try assumption.
  unfold services_of. now rewrite Hc.
Qed.

(** The document that the updater of [updateService] returns. *)
Lemma updateService_updater_returns (id : string) updates (d : JSON) :
  has_services d ->
  updateService_updater id updates d
  = inr (JObj (define_own "services"
                 (JObj (define_own id
                          (JObj (merge (spread (service id d)) updates))
                          (services_of d)))
                 (spread (Some d)))).
Proof.
  intros Hs. unfold updateService_updater.
  rewrite (get_services _ Hs). cbn [bind Return].
  destruct (has_services_field d Hs) as (c & Hc & Hn & Hso).
  rewrite Hc. destruct (get_key_spread c id Hn) as (v & Hv & Hsp).
  rewrite Hv. cbn [bind Return].
  unfold service. rewrite Hso, <- Hsp. reflexivity.
Qed.

Lemma services_of_defined (container : JSON) props :
  services_of (JObj (define_own "services" container props))
  = own_entries container.
Proof.
  unfold services_of, field. cbn [spread own_entries].
  now rewrite lookup_define_own_same.
Qed.

Lemma field_defined_other (key k : string) (v : JSON) (d : JSON) :
  key <> k ->
  field key (JObj (define_own k v (spread (Some d)))) = field key d.
Proof.
  intros H. unfold field. cbn [spread own_entries].
  now apply lookup_define_own_other.
Qed.

(** X1.  On a document with a services container, [updateService]
    returns, and in the service under [id] every field named in the
    updates has the value given there while every other field is the one
    the service had (none, when there was no such service). *)
Theorem updateService_writes_fields (id : string) (updates : list (string * JSON))
    (d : JSON) :
  has_services d ->
  NoDup (map fst updates) ->
  exists d',
    updateService_updater id updates d = inr d'
    /\ (forall pst, PipelineEditor.spc pst = d ->
          PipelineEditor.updateService id updates pst
          = inr (PipelineEditor.setSpc d' pst))
    /\ (forall est, EnhancedPipelineEditor.spc est = d ->
          EnhancedPipelineEditor.updateService id updates est
          = EnhancedPipelineEditor.setSpc d' est)
    /\ (forall k v, lookup k updates = Some v -> service_field k id d' = Some v)
    /\ (forall k, lookup k updates = None ->
          service_field k id d' = service_field k id d).
Proof.
  intros Hs Hnd. eexists. split; [apply (updateService_updater_returns _ _ _ Hs) |].
  split; [| split; [| split]].
  - intros pst <-. unfold PipelineEditor.updateService, PipelineEditor.setSpc_by.
    now rewrite (updateService_updater_returns _ _ _ Hs).
  - intros est <-. unfold EnhancedPipelineEditor.updateService,
      EnhancedPipelineEditor.setSpc_by.
    now rewrite (updateService_updater_returns _ _ _ Hs).
  - intros k v Hk. unfold service_field, service.
    rewrite services_of_defined. cbn [own_entries].
    rewrite lookup_define_own_same. cbn [spread own_entries].
    now apply lookup_merge_written.
  - intros k Hk. unfold service_field at 1, service at 1.
    rewrite services_of_defined. cbn [own_entries].
    rewrite lookup_define_own_same. cbn [spread own_entries].
    now apply lookup_merge_other.
Qed.

Lemma updateService_writes_fields_witness :
  exists d',
    updateService_updater "m1" [("status", JStr "running")] two_services = inr d'
    /\ service_field "status" "m1" d' = Some (JStr "running")
    /\ service_field "type" "m1" d' = Some (JStr "monitor").
Proof.
  assert (Hs : has_services two_services).
  { eexists. split; [reflexivity | discriminate]. }
  assert (Hnd : NoDup (map fst [("status", JStr "running")])).
  { constructor; [intros [] | constructor]. }
  destruct (updateService_writes_fields "m1" [("status", JStr "running")]
              two_services Hs Hnd) as (d' & H1 & _ & _ & H2 & H3).
  exists d'. split; [exact H1 |]. split.
  - apply H2. reflexivity.
  - rewrite H3 by reflexivity. reflexivity.
Defined.

Lemma updateService_updater_needs_services (id : string) updates (d d' : JSON) :
  updateService_updater id updates d = inr d' -> has_services d.
Proof.
  intros H. unfold updateService_updater in H.
  rewrite get_field in H by reflexivity.
  destruct d; try discriminate H; cbn [bind Return] in H.
  all: match type of H with
       | context [field "services" ?x] =>
           destruct (field "services" x) as [c |] eqn:Hc; [| discriminate H];
           exists c; split; [exact Hc |]; intros ->; discriminate H
       end.
Qed.

(** X2.  [updateService] touches one service: the entry under every
    other key, and every property of the document other than
    [services], is the one that was there. *)
Theorem updateService_keeps_the_rest (id : string) (updates : list (string * JSON))
    (d d' : JSON) :
  updateService_updater id updates d = inr d' ->
  (forall other, other <> id -> service other d' = service other d)
  /\ (forall key, key <> "services" -> field key d' = field key d).
Proof.
  intros H.
  pose proof (updateService_updater_needs_services _ _ _ _ H) as Hs.
  rewrite (updateService_updater_returns _ _ _ Hs) in H. inversion H; subst d'.
  split.
  - intros other Hne. unfold service at 1.
    rewrite services_of_defined. cbn [own_entries].
    now apply lookup_define_own_other.
  - intros key Hk. now apply field_defined_other.
Qed.

Lemma updateService_keeps_the_rest_witness :
  exists d',
    updateService_updater "m1" [("status", JStr "running")] two_services = inr d'
    /\ service "c1" d' = service "c1" two_services
    /\ field "state" d' = field "state" two_services.
Proof.
  eexists. split; [reflexivity |].
  destruct (updateService_keeps_the_rest "m1" [("status", JStr "running")]
              two_services _ eq_refl) as [H1 H2].
  split; [apply H1; discriminate | apply H2; discriminate].
Defined.

(** X3.  [updateService] throws exactly on a document without a services
    container (no [services], or [null]).  PipelineEditor then has no
    state to go on with; the enhanced editor keeps its document and is
    marked as crashed. *)
Theorem updateService_throws_exactly (id : string) (updates : list (string * JSON))
    (d : JSON) :
  ((exists e, updateService_updater id updates d = inl e) <-> ~ has_services d)
  /\ (forall e pst est,
         updateService_updater id updates d = inl e ->
         PipelineEditor.spc pst = d ->
         EnhancedPipelineEditor.spc est = d ->
         PipelineEditor.updateService id updates pst = inl e
         /\ EnhancedPipelineEditor.updateService id updates est
            = EnhancedPipelineEditor.setCrashed e est).
Proof.
  split; [split |].
  - intros [e He] Hs. rewrite (updateService_updater_returns _ _ _ Hs) in He.
    discriminate He.
  - intros Hn. destruct (updateService_updater id updates d) as [e | d'] eqn:E.
    + now exists e.
    + elim Hn. exact (updateService_updater_needs_services _ _ _ _ E).
  - intros e pst est He <- Hd.
    unfold PipelineEditor.updateService, PipelineEditor.setSpc_by,
      EnhancedPipelineEditor.updateService, EnhancedPipelineEditor.setSpc_by.
    rewrite Hd, He. split; reflexivity.
Qed.

Lemma updateService_throws_exactly_witness :
  exists e,
    updateService_updater "c1" [("title", JStr "x")]
      (JObj [("spc_version", JStr "1.0")]) = inl e.
Proof.
  apply (updateService_throws_exactly "c1" [("title", JStr "x")]
           (JObj [("spc_version", JStr "1.0")])).
  intros (c & Hc & _). discriminate Hc.
Defined.

(** ** Deleting a service *)

Lemma deleteService_updater_returns (id : string) (d : JSON) :
  d <> JNull ->
  deleteService_updater id d
  = inr (JObj (define_own "services"
                 (JObj (delete_prop id (services_of d)))
                 (spread (Some d)))).
Proof.
  intros Hn. unfold deleteService_updater.
  rewrite get_field by reflexivity.
  destruct d; try (now elim Hn); reflexivity.
Qed.

(** X4.  On any document but [null], [deleteService] returns a document
    that has a services object without an entry under [id]; the entries
    under the other keys and the other properties of the document are
    the ones that were there.  On [null] the updater throws. *)
Theorem deleteService_removes_entry (id : string) (d : JSON) :
  d <> JNull ->
  exists d',
    deleteService_updater id d = inr d'
    /\ service id d' = None
    /\ has_services d'
    /\ (forall other, other <> id -> service other d' = service other d)
    /\ (forall key, key <> "services" -> field key d' = field key d)
    /\ (exists e, deleteService_updater id JNull = inl e).
Proof.
  intros Hn. eexists. split; [now apply deleteService_updater_returns |].
  split; [| split; [| split; [| split]]].
  - unfold service. rewrite services_of_defined. cbn [own_entries].
    apply lookup_delete_prop_same.
  - eexists. split.
    + unfold field. cbn [spread own_entries]. apply lookup_define_own_same.
    + discriminate.
  - intros other Hne. unfold service at 1. rewrite services_of_defined.
    cbn [own_entries]. now apply lookup_delete_prop_other.
  - intros key Hk. now apply field_defined_other.
  - eexists. reflexivity.
Qed.

Lemma deleteService_removes_entry_witness :
  exists d',
    deleteService_updater "c1" two_services = inr d'
    /\ service "c1" d' = None
    /\ service "m1" d' = service "m1" two_services.
Proof.
  assert (Hn : two_services <> JNull) by discriminate.
  destruct (deleteService_removes_entry "c1" two_services Hn)
    as (d' & H1 & H2 & _ & H3 & _).
  exists d'. repeat split; [exact H1 | exact H2 | apply H3; discriminate].
Defined.

(** X5.  [deleteService(id)] clears the selection when [id] was the
    selected service and keeps it otherwise, so that afterwards the
    selection is never [id]. *)
Theorem deleteService_clears_selection (id : string) :
  (forall pst pst',
      PipelineEditor.deleteService id pst = inr pst' ->
      (PipelineEditor.selectedService pst = Some id ->
       PipelineEditor.selectedService pst' = None)
      /\ (PipelineEditor.selectedService pst <> Some id ->
          PipelineEditor.selectedService pst' = PipelineEditor.selectedService pst)
      /\ PipelineEditor.selectedService pst' <> Some id)
  /\ (forall now est,
         let est' := EnhancedPipelineEditor.deleteService id now est in
         (EnhancedPipelineEditor.selectedNode est = Some id ->
          EnhancedPipelineEditor.selectedNode est' = None)
         /\ (EnhancedPipelineEditor.selectedNode est <> Some id ->
             EnhancedPipelineEditor.selectedNode est'
             = EnhancedPipelineEditor.selectedNode est)
         /\ EnhancedPipelineEditor.selectedNode est' <> Some id).
Proof.
  split.
  - intros pst pst' H.
    unfold PipelineEditor.deleteService, PipelineEditor.setSpc_by, bind in H.
    destruct (deleteService_updater id (PipelineEditor.spc pst)); [discriminate |].
    inversion H; subst pst'. clear H.
    unfold PipelineEditor.is_selected.
    destruct (PipelineEditor.selectedService pst) as [s |] eqn:Es; cbn.
    + destruct (String.eqb_spec s id) as [-> | Hne]; cbn; rewrite ?Es.
      * split; [reflexivity |]. split; [intros H; now elim H | discriminate].
      * split; [intros H; inversion H; contradiction |].
        split; [reflexivity | intros H; inversion H; contradiction].
    + rewrite Es. split; [discriminate |]. split; [reflexivity | discriminate].
  - intros now est. cbv zeta.
    unfold EnhancedPipelineEditor.deleteService, EnhancedPipelineEditor.setSpc_by,
      EnhancedPipelineEditor.is_selected.
    destruct (deleteService_updater id (EnhancedPipelineEditor.spc est));
      destruct (EnhancedPipelineEditor.selectedNode est) as [s |] eqn:Es; cbn;
      rewrite ?Es;
      try (split; [discriminate |]; split; [reflexivity | discriminate]).
    all: destruct (String.eqb_spec s id) as [-> | Hne]; cbn; rewrite ?Es.
    all: first
      [ split; [reflexivity |]; split; [intros H; now elim H | discriminate]
      | split; [intros H; inversion H; contradiction |];
        split; [reflexivity | intros H; inversion H; contradiction] ].
Qed.

Lemma deleteService_clears_selection_witness :
  exists pst',
    PipelineEditor.deleteService "c1"
      (PipelineEditor.setSelectedService (Some "c1")
         (PipelineEditor.setSpc two_services
            (PipelineEditor.initial "2025-01-01T00:00:00.000Z"))) = inr pst'
    /\ PipelineEditor.selectedService pst' = None.
Proof.
  eexists. split; [reflexivity |].
  apply (proj1 (proj1 (deleteService_clears_selection "c1")
                  (PipelineEditor.setSelectedService (Some "c1")
                     (PipelineEditor.setSpc two_services
                        (PipelineEditor.initial "2025-01-01T00:00:00.000Z")))
                  _ eq_refl)).
  reflexivity.
Defined.

Lemma define_own_idem (k : string) (v : JSON) props :
  define_own k v (define_own k v props) = define_own k v props.
Proof.
  rewrite (define_own_present k v v) by apply lookup_define_own_same.
  apply set_prop_same_value. apply lookup_define_own_same.
Qed.

(** X6.  Deleting is idempotent: once [deleteService(id)] has returned a
    document, deleting [id] from that document returns it unchanged. *)
Theorem deleteService_idempotent (id : string) (d d' : JSON) :
  deleteService_updater id d = inr d' ->
  deleteService_updater id d' = inr d'.
Proof.
  intros H.
  assert (Hn : d <> JNull) by (intros ->; discriminate H).
  rewrite (deleteService_updater_returns id d Hn) in H. inversion H; subst d'.
  rewrite deleteService_updater_returns by discriminate.
  rewrite services_of_defined. cbn [own_entries spread].
  rewrite (delete_prop_absent id (delete_prop id (services_of d)))
    by apply lookup_delete_prop_same.
  now rewrite define_own_idem.
Qed.

Lemma deleteService_idempotent_witness :
  exists d',
    deleteService_updater "c1" two_services = inr d'
    /\ deleteService_updater "c1" d' = inr d'.
Proof.
  eexists. split; [reflexivity |].
  apply (deleteService_idempotent "c1" two_services). reflexivity.
Defined.

(** What deleting the service just added leaves of the document. *)
Lemma delete_added_service (id : string) (svc : JSON) props sprops :
  lookup "services" props = Some (JObj sprops) ->
  lookup id sprops = None ->
  deleteService_updater id
    (JObj (set_prop "services" (JObj (set_prop id svc sprops)) props))
  = inr (JObj props).
Proof.
  intros Hs Hid.
  rewrite deleteService_updater_returns by discriminate.
  unfold services_of, field. cbn [spread own_entries].
  rewrite lookup_set_prop_same. cbn [spread own_entries].
  rewrite (delete_set_prop_fresh _ _ _ Hid).
  rewrite (define_own_present "services" _ (JObj (set_prop id svc sprops)))
    by apply lookup_set_prop_same.
  rewrite set_prop_twice. now rewrite (set_prop_same_value _ _ _ Hs).
Qed.

(** X7.  Adding a service and deleting it again gives back the document:
    when the document is an object whose [services] is an object with no
    entry under the generated id, [deleteService] after [addService]
    returns an editor with the document it had before, and nothing
    selected.  The same holds in the enhanced editor when no service is
    [null]. *)
Theorem add_then_delete_restores (type : string)
    (cfg : PipelineEditor.ServiceConfig) (now : Z) (log_now delete_now : string)
    (pst : PipelineEditor.Editor) (est : EnhancedPipelineEditor.Editor)
    (props sprops : list (string * JSON)) :
  PipelineEditor.config_of type PipelineEditor.SERVICE_TYPES = Some cfg ->
  PipelineEditor.spc pst = JObj props ->
  EnhancedPipelineEditor.spc est = JObj props ->
  lookup "services" props = Some (JObj sprops) ->
  lookup (new_id type now) sprops = None ->
  Forall (fun v => v <> JNull) (map snd sprops) ->
  (exists pst1 pst2,
      PipelineEditor.addService type now pst = inr pst1
      /\ PipelineEditor.deleteService (new_id type now) pst1 = inr pst2
      /\ PipelineEditor.spc pst2 = PipelineEditor.spc pst
      /\ PipelineEditor.selectedService pst2 = None)
  /\ (exists est1,
         EnhancedPipelineEditor.addService type now log_now est = inr est1
         /\ EnhancedPipelineEditor.spc
              (EnhancedPipelineEditor.deleteService (new_id type now) delete_now est1)
            = EnhancedPipelineEditor.spc est).
Proof.
  intros Hcfg Hp He Hs Hid Hnn.
  assert (Hhas : forall d, d = JObj props -> has_services d).
  { intros d ->. exists (JObj sprops). split; [exact Hs | discriminate]. }
  assert (Hso : forall d, d = JObj props -> services_of d = sprops).
  { intros d ->. unfold services_of, field. cbn [spread own_entries].
    now rewrite Hs. }
  split.
  - destruct (PipelineEditor_addService_returns type cfg now pst Hcfg (Hhas _ Hp))
      as [title Hadd].
    eexists; eexists. split; [exact Hadd |].
    unfold PipelineEditor.deleteService, PipelineEditor.setSpc_by.
    cbn [PipelineEditor.spc PipelineEditor.setSelectedService PipelineEditor.setSpc].
    rewrite Hp. unfold field. cbn [spread own_entries]. rewrite Hs.
    cbn [spread own_entries].
    rewrite (delete_added_service _ _ _ _ Hs Hid). cbn [bind Return].
    unfold PipelineEditor.is_selected.
    cbn [PipelineEditor.selectedService PipelineEditor.setSelectedService
         PipelineEditor.setSpc PipelineEditor.spc].
    rewrite String.eqb_refl. repeat split.
  - assert (Hnn' : Forall (fun v => v <> JNull)
                     (map snd (services_of (EnhancedPipelineEditor.spc est))))
      by now rewrite (Hso _ He).
    destruct (Enhanced_addService_returns type now log_now est (Hhas _ He) Hnn')
      as [title Hadd].
    eexists. split; [exact Hadd |].
    unfold EnhancedPipelineEditor.deleteService, EnhancedPipelineEditor.setSpc_by.
    cbn [EnhancedPipelineEditor.spc EnhancedPipelineEditor.addLog
         EnhancedPipelineEditor.setLogs EnhancedPipelineEditor.setSpc].
    rewrite He. unfold field. cbn [spread own_entries]. rewrite Hs.
    cbn [spread own_entries].
    rewrite (delete_added_service _ _ _ _ Hs Hid).
    destruct (EnhancedPipelineEditor.is_selected _ _); reflexivity.
Qed.

Lemma add_then_delete_restores_witness :
  exists pst1 pst2,
    PipelineEditor.addService "vault" 1730000000000
      (PipelineEditor.setSpc two_services
         (PipelineEditor.initial "2025-01-01T00:00:00.000Z")) = inr pst1
    /\ PipelineEditor.deleteService "vault-1730000000000" pst1 = inr pst2
    /\ PipelineEditor.spc pst2 = two_services.
Proof.
  assert (Hnn : Forall (fun v : JSON => v <> JNull)
                  (map snd (services_of two_services))).
  { repeat constructor; discriminate. }
  destruct (add_then_delete_restores "vault"
              (PipelineEditor.mkConfig "Vault"
                 [("provider", JStr ""); ("secrets", JArr [])])
              1730000000000 "12:00:00" "12:00:01"
              (PipelineEditor.setSpc two_services
                 (PipelineEditor.initial "2025-01-01T00:00:00.000Z"))
              (EnhancedPipelineEditor.setSpc two_services
                 (EnhancedPipelineEditor.initial "2025-01-01T00:00:00.000Z"))
              (spread (Some two_services)) (services_of two_services)
              eq_refl eq_refl eq_refl eq_refl eq_refl Hnn)
    as [(pst1 & pst2 & H1 & H2 & H3 & _) _].
  exists pst1, pst2. repeat split; assumption.
Defined.

(** ** The name of the pipeline and the download *)

Lemma rename_updater_returns (name : string) (d : JSON) :
  d <> JNull ->
  rename_updater name d
  = inr (JObj (define_own "meta"
                 (JObj (define_own "name" (JStr name) (spread (field "meta" d))))
                 (spread (Some d)))).
Proof.
  intros Hn. unfold rename_updater. rewrite get_field by reflexivity.
  destruct d; try (now elim Hn); reflexivity.
Qed.

(** X8.  Typing a name in the header makes the document exportable: on
    any document but [null] the updater returns a document whose
    [meta.name] is the text typed, with the other properties of [meta]
    and of the document as they were; and when the text is ASCII, both
    editors then export that document to a file named after the text,
    with every run of white space replaced by one [-] (and, in
    PipelineEditor, capitals lowered), followed by [.spc.json]. *)
Theorem rename_then_export (name : string) (d : JSON) :
  d <> JNull ->
  exists d' meta,
    rename_updater name d = inr d'
    /\ field "meta" d' = Some meta
    /\ field "name" meta = Some (JStr name)
    /\ (forall k, k <> "name" -> field k meta = lookup k (spread (field "meta" d)))
    /\ (forall key, key <> "meta" -> field key d' = field key d)
    /\ (all_chars is_ascii name = true ->
        (forall now pst,
            PipelineEditor.spc pst = d' ->
            exists download pst',
              PipelineEditor.exportSPC now pst = inr (download, pst')
              /\ filename download
                 = toLowerCase (replace_spaces false name) ++ ".spc.json")
        /\ (forall now est,
               EnhancedPipelineEditor.spc est = d' ->
               exists download est',
                 exportSPC now est = inr (download, est')
                 /\ filename download = replace_spaces false name ++ ".spc.json")).
Proof.
  intros Hn. eexists; eexists.
  split; [now apply rename_updater_returns |].
  assert (Hm : field "meta"
                 (JObj (define_own "meta"
                          (JObj (define_own "name" (JStr name)
                                   (spread (field "meta" d))))
                          (spread (Some d))))
               = Some (JObj (define_own "name" (JStr name) (spread (field "meta" d))))).
  { unfold field at 1. cbn [spread own_entries]. apply lookup_define_own_same. }
  assert (Hname : field "name"
                    (JObj (define_own "name" (JStr name) (spread (field "meta" d))))
                  = Some (JStr name)).
  { unfold field at 1. cbn [spread own_entries]. apply lookup_define_own_same. }
  split; [exact Hm |]. split; [exact Hname |]. split; [| split].
  - intros k Hk. unfold field at 1. cbn [spread own_entries].
    now apply lookup_define_own_other.
  - intros key Hk. now apply field_defined_other.
  - intros _. split.
    + intros now pst Hp. rewrite <- Hp in Hm.
      rewrite (proj1 (export_serializes_document now _ name pst
                        (EnhancedPipelineEditor.setSpc (PipelineEditor.spc pst)
                           (initial ""))
                        Hm Hm Hname)).
      eexists; eexists. split; reflexivity.
    + intros now est He. rewrite <- He in Hm.
      rewrite (proj2 (export_serializes_document now _ name
                        (PipelineEditor.setSpc (EnhancedPipelineEditor.spc est)
                           (PipelineEditor.initial ""))
                        est Hm Hm Hname)).
      eexists; eexists. split; reflexivity.
Qed.

Lemma rename_then_export_witness :
  exists download st,
    PipelineEditor.exportSPC "12:00:01"
      (PipelineEditor.setSpc
         (JObj [ ("spc_version", JStr "1.0");
                 ("meta", JObj [("name", JStr "My ETL")]);
                 ("services", JObj []);
                 ("state", JObj [("raw", JNum 1)]) ])
         (PipelineEditor.initial "2025-01-01T00:00:00.000Z"))
    = inr (download, st)
    /\ filename download = "my-etl.spc.json".
Proof.
  assert (Hn : nameless_document <> JNull) by discriminate.
  destruct (rename_then_export "My ETL" nameless_document Hn)
    as (d' & meta & Hd & _ & _ & _ & _ & Hexp).
  destruct (Hexp eq_refl) as [Hp _].
  vm_compute in Hd. inversion Hd; subst d'.
  destruct (Hp "12:00:01"
              (PipelineEditor.setSpc
                 (JObj [ ("spc_version", JStr "1.0");
                         ("meta", JObj [("name", JStr "My ETL")]);
                         ("services", JObj []);
                         ("state", JObj [("raw", JNum 1)]) ])
                 (PipelineEditor.initial "2025-01-01T00:00:00.000Z"))
              eq_refl) as (download & st & He & Hf).
  exists download, st. split; [exact He | exact Hf].
Defined.

Lemma all_chars_app (p : ascii -> bool) (s t : string) :
  all_chars p (s ++ t) = all_chars p s && all_chars p t.
Proof.
  induction s as [| c rest IH]; [reflexivity |].
  cbn. now rewrite IH, andb_assoc.
Qed.

Lemma replace_spaces_no_space (s : string) :
  forall in_run,
    all_chars (fun c => negb (is_space c)) (replace_spaces in_run s) = true.
Proof.
  induction s as [| c rest IH]; intros in_run; [reflexivity |].
  cbn [replace_spaces]. destruct (is_space c) eqn:E.
  - destruct in_run; [apply IH |]. cbn [all_chars]. now rewrite IH.
  - cbn [all_chars]. now rewrite E, IH.
Qed.

Lemma lower_char_spec (c : ascii) :
  is_upper (lower_char c) = false
  /\ is_space (lower_char c) = is_space c.
Proof.
  destruct c as [[] [] [] [] [] [] [] []]; split; reflexivity.
Qed.

Lemma toLowerCase_chars (s : string) :
  all_chars (fun c => negb (is_upper c)) (toLowerCase s) = true
  /\ all_chars (fun c => negb (is_space c)) (toLowerCase s)
     = all_chars (fun c => negb (is_space c)) s.
Proof.
  induction s as [| c rest [IH1 IH2]]; [now split |].
  cbn [toLowerCase all_chars].
  destruct (lower_char_spec c) as [Hu Hs].
  now rewrite Hu, Hs, IH1, IH2.
Qed.

(** X9.  Whatever the name of the pipeline, the download of an export
    that succeeds has a name without white space that ends in
    [.spc.json] (in PipelineEditor also without capital letters), and
    the export leaves the document as it is. *)
Theorem export_filename_is_clean (now : string) :
  (forall pst download pst',
      PipelineEditor.exportSPC now pst = inr (download, pst') ->
      all_chars (fun c => negb (is_space c)) (filename download) = true
      /\ all_chars (fun c => negb (is_upper c)) (filename download) = true
      /\ (exists stem, filename download = stem ++ ".spc.json")
      /\ content download = JSON_stringify (PipelineEditor.spc pst)
      /\ PipelineEditor.spc pst' = PipelineEditor.spc pst)
  /\ (forall est download est',
         exportSPC now est = inr (download, est') ->
         all_chars (fun c => negb (is_space c)) (filename download) = true
         /\ (exists stem, filename download = stem ++ ".spc.json")
         /\ content download = JSON_stringify (EnhancedPipelineEditor.spc est)
         /\ EnhancedPipelineEditor.spc est' = EnhancedPipelineEditor.spc est).
Proof.
  split.
  - intros pst download pst' H.
    unfold PipelineEditor.exportSPC, bind in H.
    destruct (get (Some (PipelineEditor.spc pst)) "meta") as [|meta]; [discriminate |].
    destruct (get meta "name") as [|name]; [discriminate |].
    destruct (replace_receiver "spc.meta.name" name) as [|text]; [discriminate |].
    inversion H; subst. cbn [filename content].
    destruct (toLowerCase_chars (replace_spaces false text)) as [Hu Hs].
    repeat split.
    + rewrite all_chars_app, Hs, replace_spaces_no_space. reflexivity.
    + rewrite all_chars_app, Hu. reflexivity.
    + eexists. reflexivity.
  - intros est download est' H.
    unfold exportSPC, bind in H.
    destruct (get (Some (EnhancedPipelineEditor.spc est)) "meta") as [|meta];
      [discriminate |].
    destruct (get meta "name") as [|name]; [discriminate |].
    destruct (replace_receiver "spc.meta.name" name) as [|text]; [discriminate |].
    inversion H; subst. cbn [filename content].
    repeat split.
    + rewrite all_chars_app, replace_spaces_no_space. reflexivity.
    + eexists. reflexivity.
Qed.

Lemma export_filename_is_clean_witness :
  exists download st,
    PipelineEditor.exportSPC "12:00:01"
      (PipelineEditor.initial "2025-01-01T00:00:00.000Z") = inr (download, st)
    /\ all_chars (fun c => negb (is_space c)) (filename download) = true.
Proof.
  eexists; eexists. split; [reflexivity |].
  apply (proj1 (export_filename_is_clean "12:00:01")
           (PipelineEditor.initial "2025-01-01T00:00:00.000Z") _ _ eq_refl).
Defined.

(** ** When the service handlers return *)

Lemma Object_entries_needs_container (v : Value) entries :
  Object_entries v = inr entries ->
  exists container, v = Some container /\ container <> JNull.
Proof.
  destruct v as [[] |]; intros H; try discriminate H;
    eexists; (split; [reflexivity | discriminate]).
Qed.

Lemma get_services_needs (d : JSON) (v : Value) :
  get (Some d) "services" = inr v -> v = field "services" d.
Proof.
  rewrite get_field by reflexivity.
  destruct d; intros H; inversion H; reflexivity.
Qed.

Lemma filter_type_needs (type : string) (values : list JSON) :
  forall kept,
    EnhancedPipelineEditor.filter_type type values = inr kept ->
    Forall (fun v => v <> JNull) values.
Proof.
  induction values as [| v rest IH]; intros kept H; [constructor |].
  cbn [EnhancedPipelineEditor.filter_type] in H.
  rewrite get_field in H by reflexivity.
  destruct v; try discriminate H; cbn [bind Return] in H;
    destruct (EnhancedPipelineEditor.filter_type type rest) as [| kept'] eqn:E;
    try discriminate H;
    (constructor; [discriminate | exact (IH _ eq_refl)]).
Qed.

Lemma PipelineEditor_addService_needs (type : string) (now : Z)
    (pst pst' : PipelineEditor.Editor) :
  PipelineEditor.addService type now pst = inr pst' ->
  (exists cfg,
      PipelineEditor.config_of type PipelineEditor.SERVICE_TYPES = Some cfg)
  /\ has_services (PipelineEditor.spc pst).
Proof.
  intros H. unfold PipelineEditor.addService, bind in H.
  destruct (PipelineEditor.config_of type PipelineEditor.SERVICE_TYPES) as [cfg |];
    [| discriminate H].
  split; [now exists cfg |].
  destruct (get (Some (PipelineEditor.spc pst)) "services") as [| v] eqn:Eg;
    [discriminate H |].
  apply get_services_needs in Eg. subst v.
  unfold Object_keys, bind in H.
  destruct (Object_entries (field "services" (PipelineEditor.spc pst)))
    as [| entries] eqn:Ee; [discriminate H |].
  destruct (Object_entries_needs_container _ _ Ee) as (c & Hc & Hn).
  now exists c.
Qed.

Lemma Enhanced_addService_needs (type : string) (now : Z) (log_now : string)
    (est est' : EnhancedPipelineEditor.Editor) :
  EnhancedPipelineEditor.addService type now log_now est = inr est' ->
  has_services (EnhancedPipelineEditor.spc est)
  /\ no_null_service (EnhancedPipelineEditor.spc est).
Proof.
  intros H. unfold EnhancedPipelineEditor.addService in H.
  destruct (get (Some (EnhancedPipelineEditor.spc est)) "services") as [| v] eqn:Eg;
    [discriminate H |].
  cbn [bind] in H.
  apply get_services_needs in Eg. subst v.
  pose proof H as H0.
  unfold Object_values, bind in H0.
  destruct (Object_entries (field "services" (EnhancedPipelineEditor.spc est)))
    as [| entries] eqn:Ee; [discriminate H0 |]. clear H0.
  destruct (Object_entries_needs_container _ _ Ee) as (c & Hc & Hn).
  assert (Hs : has_services (EnhancedPipelineEditor.spc est)) by now exists c.
  split; [exact Hs |].
  rewrite (Object_entries_services _ Hs) in Ee. inversion Ee; subst entries.
  unfold no_null_service.
  destruct (EnhancedPipelineEditor.filter_type type
              (map snd (services_of (EnhancedPipelineEditor.spc est))))
    as [| kept] eqn:Ef;
    [unfold Object_values in H; rewrite (Object_entries_services _ Hs) in H;
     cbn [bind Return] in H; rewrite Ef in H; discriminate H |].
  exact (filter_type_needs _ _ _ Ef).
Qed.

(** X10.  For a type of the palette, [addService] of PipelineEditor
    returns exactly when the document has a services container, and
    [addService] of the enhanced editor exactly when the document has a
    services container without [null] entries.  Otherwise the handler
    throws before it changes anything. *)
Theorem addService_returns_exactly (type : string)
    (cfg : PipelineEditor.ServiceConfig) (now : Z) (log_now : string)
    (pst : PipelineEditor.Editor) (est : EnhancedPipelineEditor.Editor) :
  PipelineEditor.config_of type PipelineEditor.SERVICE_TYPES = Some cfg ->
  ((exists pst', PipelineEditor.addService type now pst = inr pst')
   <-> has_services (PipelineEditor.spc pst))
  /\ ((exists est', EnhancedPipelineEditor.addService type now log_now est = inr est')
      <-> has_services (EnhancedPipelineEditor.spc est)
          /\ no_null_service (EnhancedPipelineEditor.spc est)).
Proof.
  intros Hcfg. split; split.
  - intros [pst' H]. exact (proj2 (PipelineEditor_addService_needs _ _ _ _ H)).
  - intros Hs.
    destruct (PipelineEditor_addService_returns type cfg now pst Hcfg Hs) as [t Ht].
    eexists. exact Ht.
  - intros [est' H]. exact (Enhanced_addService_needs _ _ _ _ _ H).
  - intros [Hs Hnn].
    destruct (Enhanced_addService_returns type now log_now est Hs Hnn) as [t Ht].
    eexists. exact Ht.
Qed.

Lemma addService_returns_exactly_witness :
  (exists pst',
      PipelineEditor.addService "monitor" 1730000000000
        (PipelineEditor.initial "2025-01-01T00:00:00.000Z") = inr pst')
  /\ ~ (exists est',
           EnhancedPipelineEditor.addService "monitor" 1730000000000 "12:00:00"
             (setSpc (JObj [("services", JObj [("m1", JNull)])])
                (initial "2025-01-01T00:00:00.000Z")) = inr est').
Proof.
  destruct (addService_returns_exactly "monitor"
              (PipelineEditor.mkConfig "Monitor"
                 [("checks", JArr []); ("emit", JStr "onChange")])
              1730000000000 "12:00:00"
              (PipelineEditor.initial "2025-01-01T00:00:00.000Z")
              (setSpc (JObj [("services", JObj [("m1", JNull)])])
                 (initial "2025-01-01T00:00:00.000Z"))
              eq_refl) as [Hp He].
  split.
  - apply Hp. eexists. split; [reflexivity | discriminate].
  - intros H. apply He in H. destruct H as [_ Hnn].
    inversion Hnn as [| x l Hx Hl]. now apply Hx.
Defined.

Lemma import_accepted_has_services (parsed : Result JSON) (imported : JSON) :
  PipelineEditor.importSPC_try parsed = inr imported -> has_services imported.
Proof.
  rewrite PipelineEditor_importSPC_try_cases.
  destruct parsed as [e | j]; [discriminate |].
  destruct j; try discriminate;
    destruct (truthy (field "spc_version" _)) eqn:Hv; try discriminate;
    destruct (truthy (field "services" _)) eqn:Hs; try discriminate;
    cbn [andb]; intros H; inversion H; subst imported;
    match type of Hs with
    | truthy (field "services" ?x) = true =>
        destruct (field "services" x) as [c |] eqn:Hc; [| discriminate Hs];
        exists c; split; [exact Hc |]; intros ->; cbn in Hs; discriminate Hs
    end.
Qed.

(** X11.  What the check of PipelineEditor's import buys: right after an
    import that succeeded, adding a service of any palette type,
    updating any service and deleting any service all return. *)
Theorem import_makes_handlers_safe (parsed : Result JSON) (imported : JSON)
    (now : string) (st : PipelineEditor.Editor) :
  PipelineEditor.importSPC_try parsed = inr imported ->
  let st' := PipelineEditor.importSPC (Some parsed) now st in
  (forall type cfg t,
      PipelineEditor.config_of type PipelineEditor.SERVICE_TYPES = Some cfg ->
      exists st'', PipelineEditor.addService type t st' = inr st'')
  /\ (forall id updates,
         exists st'', PipelineEditor.updateService id updates st' = inr st'')
  /\ (forall id, exists st'', PipelineEditor.deleteService id st' = inr st'').
Proof.
  intros H st'.
  assert (Hspc : PipelineEditor.spc st' = imported).
  { unfold st', PipelineEditor.importSPC. now rewrite H. }
  pose proof (import_accepted_has_services _ _ H) as Hs.
  rewrite <- Hspc in Hs.
  split; [| split].
  - intros type cfg t Hcfg.
    destruct (PipelineEditor_addService_returns type cfg t st' Hcfg Hs) as [x Hx].
    eexists. exact Hx.
  - intros id updates.
    unfold PipelineEditor.updateService, PipelineEditor.setSpc_by.
    rewrite (updateService_updater_returns _ _ _ Hs). eexists. reflexivity.
  - intros id.
    unfold PipelineEditor.deleteService, PipelineEditor.setSpc_by.
    rewrite deleteService_updater_returns.
    + eexists. reflexivity.
    + destruct Hs as (c & Hc & _). intros E. rewrite E in Hc. discriminate Hc.
Qed.

Lemma import_makes_handlers_safe_witness :
  exists st'',
    PipelineEditor.updateService "c1" [("title", JStr "Source")]
      (PipelineEditor.importSPC (Some (inr unvalidated_document)) "12:00:00"
         (PipelineEditor.initial "2025-01-01T00:00:00.000Z"))
    = inr st''.
Proof.
  apply (import_makes_handlers_safe (inr unvalidated_document) unvalidated_document
           "12:00:00" (PipelineEditor.initial "2025-01-01T00:00:00.000Z") eq_refl).
Defined.

(** ** What a tick does to the services *)

Lemma running_is_object (svc : JSON) :
  running svc = true -> exists props, svc = JObj props.
Proof.
  unfold running, field. destruct svc; cbn [spread own_entries lookup is_string];
    try discriminate.
  - now rewrite lookup_indexed_not_numeral.
  - now rewrite lookup_indexed_not_numeral.
  - intros _. now eexists.
Qed.

(** One step of the scan, case by case. *)
Lemma touch_cases (now : string) (svc : JSON) :
  touch now svc =
  match svc with
  | JNull => Throw (cannot_read "null" "status")
  | _ => if running svc
         then Return (assign "lastRun" (JStr now) svc, true)
         else Return (svc, false)
  end.
Proof.
  unfold touch, running. rewrite get_field by reflexivity.
  destruct svc; reflexivity.
Qed.

Lemma forget_assign_lastRun (now : string) (svc : JSON) :
  forget_lastRun (assign "lastRun" (JStr now) svc) = forget_lastRun svc.
Proof.
  destruct svc; try reflexivity. cbn. now rewrite remove_prop_set_prop.
Qed.

Lemma forEach_service_only_lastRun (clock : nat -> string) entries :
  forall n,
    map forget_entry (fst (forEach_service clock n entries))
    = map forget_entry entries.
Proof.
  induction entries as [| [k v] rest IH]; intros n; [reflexivity |].
  cbn [forEach_service]. rewrite touch_cases.
  destruct v; try reflexivity.
  all: match goal with
       | |- context [running ?x] => destruct (running x)
       end; cbn [Return];
    match goal with
    | |- context [forEach_service ?cl ?m ?r] =>
        specialize (IH m); destruct (forEach_service cl m r) as [rest' e]
    end;
    cbn [fst map] in *; rewrite IH; unfold forget_entry; cbn [fst snd];
    now rewrite ?forget_assign_lastRun.
Qed.

Lemma scan_services_only_lastRun (clock : nat -> string) (container : JSON) :
  map forget_entry (own_entries (fst (scan_services clock container)))
  = map forget_entry (own_entries container).
Proof.
  destruct container; try reflexivity; cbn [scan_services].
  - pose proof (forEach_service_only_lastRun clock (indexed 0 items) 0) as H.
    pose proof (forEach_service_keys clock (indexed 0 items) 0) as Hk.
    destruct (forEach_service clock 0 (indexed 0 items)) as [entries e].
    cbn [fst own_entries] in *.
    now rewrite (indexed_of_values entries items 0 Hk).
  - pose proof (forEach_service_only_lastRun clock props 0) as H.
    destruct (forEach_service clock 0 props) as [props' e].
    exact H.
Qed.

Lemma services_of_set (container : JSON) props :
  services_of (JObj (set_prop "services" container props)) = own_entries container.
Proof.
  unfold services_of, field. cbn [spread own_entries].
  now rewrite lookup_set_prop_same.
Qed.

(** The service entries after a tick are the entries before it, up to
    [lastRun]. *)
Lemma tick_update_only_lastRun (clock : nat -> string) (d : JSON) :
  map forget_entry (services_of (fst (tick_update clock d)))
  = map forget_entry (services_of d).
Proof.
  unfold tick_update.
  destruct (lookup "services" (spread (Some d))) as [c |] eqn:Hc;
    [| reflexivity].
  assert (Hd : services_of d = own_entries c).
  { unfold services_of, field. now rewrite Hc. }
  pose proof (scan_services_only_lastRun clock c) as H.
  destruct c; try reflexivity;
    destruct (scan_services clock _) as [c' e]; cbn [fst] in *;
    now rewrite services_of_set, Hd.
Qed.

Lemma forget_entries_keys entries1 :
  forall entries2,
    map forget_entry entries1 = map forget_entry entries2 ->
    map fst entries1 = map fst entries2.
Proof.
  induction entries1 as [| [k1 v1] r1 IH]; intros [| [k2 v2] r2] H;
    try discriminate H; [reflexivity |].
  cbn in H. inversion H. cbn. f_equal. now apply IH.
Qed.

Lemma forget_entries_lookup (id : string) entries1 :
  forall entries2,
    map forget_entry entries1 = map forget_entry entries2 ->
    option_map forget_lastRun (lookup id entries1)
    = option_map forget_lastRun (lookup id entries2).
Proof.
  induction entries1 as [| [k1 v1] r1 IH]; intros [| [k2 v2] r2] H;
    try discriminate H; [reflexivity |].
  cbn in H. inversion H as [[Hk Hv Hr]]. subst k2. cbn [lookup].
  destruct (k1 =? id); [cbn; now rewrite Hv | now apply IH].
Qed.

Lemma forget_lastRun_field (k : string) (a b : Value) :
  k <> "lastRun" ->
  option_map forget_lastRun a = option_map forget_lastRun b ->
  lookup k (spread a) = lookup k (spread b).
Proof.
  intros Hk H.
  destruct a as [a |]; destruct b as [b |]; try discriminate H; [| reflexivity].
  cbn in H. inversion H as [H'].
  destruct a; destruct b; try discriminate H'; cbn in H';
    try (inversion H'; subst; reflexivity).
  inversion H' as [Hp]. cbn [spread own_entries].
  rewrite <- (lookup_remove_prop_other "lastRun" k props) by exact Hk.
  rewrite <- (lookup_remove_prop_other "lastRun" k props0) by exact Hk.
  now rewrite Hp.
Qed.

(** X12.  A tick of the interval never adds, removes or reorders a
    service and never writes a field other than [lastRun]: the keys of
    the services, every other field of every service (its [status]
    among them) and every other property of the document are the same
    before and after, also when the scan ends in an exception. *)
Theorem tick_writes_lastRun_only (h : nat) (tick_now : string)
    (clock : nat -> string) (done_now : string)
    (st : EnhancedPipelineEditor.Editor) :
  let st' := intervalFires h tick_now clock done_now st in
  map fst (services_of (EnhancedPipelineEditor.spc st'))
  = map fst (services_of (EnhancedPipelineEditor.spc st))
  /\ (forall id k,
         k <> "lastRun" ->
         service_field k id (EnhancedPipelineEditor.spc st')
         = service_field k id (EnhancedPipelineEditor.spc st))
  /\ (forall key,
         key <> "services" ->
         field key (EnhancedPipelineEditor.spc st')
         = field key (EnhancedPipelineEditor.spc st)).
Proof.
  cbv zeta.
  assert (H : map forget_entry
                (services_of (EnhancedPipelineEditor.spc
                                (intervalFires h tick_now clock done_now st)))
              = map forget_entry (services_of (EnhancedPipelineEditor.spc st))).
  { destruct (intervalFires_spc h tick_now clock done_now st) as [-> | ->];
      [reflexivity | apply tick_update_only_lastRun]. }
  split; [now apply forget_entries_keys |].
  split.
  - intros id k Hk. unfold service_field, service.
    apply forget_lastRun_field; [exact Hk |].
    now apply forget_entries_lookup.
  - intros key Hk. now apply intervalFires_other_field.
Qed.

Lemma tick_writes_lastRun_only_witness :
  service_field "status" "c1"
    (EnhancedPipelineEditor.spc
       (intervalFires 0 "12:00:01" (fun _ => "2025-01-01T12:00:01.000Z") "12:00:01"
          (runPipeline "12:00:00"
             (setSpc two_services (initial "2025-01-01T00:00:00.000Z")))))
  = Some (JStr "running").
Proof.
  rewrite (proj1 (proj2 (tick_writes_lastRun_only 0 "12:00:01"
                           (fun _ => "2025-01-01T12:00:01.000Z") "12:00:01"
                           (runPipeline "12:00:00"
                              (setSpc two_services
                                 (initial "2025-01-01T00:00:00.000Z"))))))
    by discriminate.
  reflexivity.
Defined.

Lemma forEach_service_completes (clock : nat -> string) entries :
  forall n,
    snd (forEach_service clock n entries) = None
    <-> Forall (fun v => v <> JNull) (map snd entries).
Proof.
  induction entries as [| [k v] rest IH]; intros n.
  - cbn. split; [constructor | reflexivity].
  - cbn [forEach_service map snd]. rewrite touch_cases.
    destruct v.
    1: { cbn. split; [discriminate | intros H; inversion H; contradiction]. }
    all: match goal with
         | |- context [running ?x] => destruct (running x)
         end; cbn [Return];
      match goal with
      | |- context [forEach_service ?cl ?m ?r] =>
          specialize (IH m); destruct (forEach_service cl m r) as [rest' e]
      end;
      cbn [snd] in *; rewrite IH;
      (split; [intros H; constructor; [discriminate | exact H]
              | intros H; now inversion H]).
Qed.

Lemma indexed_values (items : list JSON) :
  forall i, map snd (indexed i items) = items.
Proof.
  induction items as [| x rest IH]; intros i; [reflexivity |].
  cbn. now rewrite IH.
Qed.

Lemma chars_not_null (s : string) :
  Forall (fun v => v <> JNull) (chars s).
Proof.
  unfold chars. induction (list_ascii_of_string s) as [| c rest IH];
    constructor; [discriminate | exact IH].
Qed.

Lemma scan_services_completes (clock : nat -> string) (container : JSON) :
  snd (scan_services clock container) = None
  <-> Forall (fun v => v <> JNull) (map snd (own_entries container)).
Proof.
  destruct container; cbn [scan_services own_entries snd map];
    try (split; [constructor | reflexivity]).
  - rewrite indexed_values. split; [intros _; apply chars_not_null | reflexivity].
  - pose proof (forEach_service_completes clock (indexed 0 items) 0) as H.
    destruct (forEach_service clock 0 (indexed 0 items)) as [entries e].
    exact H.
  - pose proof (forEach_service_completes clock props 0) as H.
    destruct (forEach_service clock 0 props) as [props' e].
    exact H.
Qed.

(** X13.  The updater of a tick runs to its end exactly on a document
    with a services container none of whose entries is [null]; on any
    other document it throws, and the editor is marked as crashed. *)
Theorem tick_completes_exactly (clock : nat -> string) (d : JSON) :
  (snd (tick_update clock d) = None <-> has_services d /\ no_null_service d)
  /\ (forall st,
         EnhancedPipelineEditor.spc st = d ->
         crashed st = None ->
         (crashed (setSpc_tick clock st) = None
          <-> has_services d /\ no_null_service d)).
Proof.
  assert (H : snd (tick_update clock d) = None
              <-> has_services d /\ no_null_service d).
  { unfold tick_update, has_services, no_null_service, services_of, field.
    destruct (lookup "services" (spread (Some d))) as [c |] eqn:Hc.
    - destruct c.
      1: { cbn. split; [discriminate | intros [(c & Hc' & Hn) _]].
           inversion Hc'; subst c. now elim Hn. }
      all: match goal with
           | |- context [scan_services ?cl ?c] =>
               pose proof (scan_services_completes cl c) as Hs;
               destruct (scan_services cl c) as [c' e]
           end; cbn [snd spread] in *; rewrite Hs;
        (split; [intros Hf; split; [eexists; split; [reflexivity | discriminate]
                                   | exact Hf]
                | intros [_ Hf]; exact Hf]).
    - cbn. split; [discriminate | intros [(c & Hc' & _) _]; discriminate Hc']. }
  split; [exact H |].
  intros st <- Hcr. rewrite <- H. unfold setSpc_tick.
  destruct (tick_update clock (EnhancedPipelineEditor.spc st)) as [d' [e |]];
    cbn; [split; discriminate | now rewrite Hcr].
Qed.

Lemma tick_completes_exactly_witness :
  snd (tick_update (fun _ => "2025-01-01T12:00:01.000Z") two_services) = None.
Proof.
  apply (tick_completes_exactly (fun _ => "2025-01-01T12:00:01.000Z") two_services).
  split.
  - eexists. split; [reflexivity | discriminate].
  - repeat constructor; discriminate.
Defined.

Lemma forEach_service_marks (clock : nat -> string) (id : string) props entries :
  running (JObj props) = true ->
  forall n,
    snd (forEach_service clock n entries) = None ->
    lookup id entries = Some (JObj props) ->
    exists m,
      lookup id (fst (forEach_service clock n entries))
      = Some (JObj (set_prop "lastRun" (JStr (clock m)) props)).
Proof.
  intros Hrun. induction entries as [| [k v] rest IH]; intros n Hc Hl;
    [discriminate Hl |].
  cbn [forEach_service] in *. rewrite touch_cases in *.
  cbn [lookup] in Hl.
  destruct (k =? id) eqn:Hk.
  - inversion Hl; subst v. rewrite Hrun in *. cbn [Return assign] in *.
    destruct (forEach_service clock (S n) rest) as [rest' e].
    exists n. cbn [fst lookup]. now rewrite Hk.
  - destruct v; [discriminate Hc | | | | |].
    all: match goal with
         | |- context [running ?x] => destruct (running x)
         end; cbn [Return] in *;
      match goal with
      | |- context [forEach_service ?cl ?m ?r] =>
          specialize (IH m);
          destruct (forEach_service cl m r) as [rest' e] eqn:E
      end;
      cbn [fst snd lookup] in *; rewrite Hk; now apply IH.
Qed.

(** X14.  When the updater of a tick runs to its end, every service
    that was running carries a reading of the clock of that tick as its
    [lastRun]. *)
Theorem tick_marks_running_services (clock : nat -> string) (d : JSON)
    (id : string) (svc : JSON) :
  snd (tick_update clock d) = None ->
  service id d = Some svc ->
  running svc = true ->
  exists n,
    service_field "lastRun" id (fst (tick_update clock d)) = Some (JStr (clock n))
    /\ service_field "status" id (fst (tick_update clock d))
       = Some (JStr "running").
Proof.
  intros Hc Hs Hrun.
  destruct (running_is_object svc Hrun) as [props ->].
  assert (Hst : lookup "status" props = Some (JStr "running")).
  { unfold running, field in Hrun. cbn [spread own_entries] in Hrun.
    destruct (lookup "status" props) as [[] |]; try discriminate Hrun.
    cbn in Hrun. apply String.eqb_eq in Hrun. now subst. }
  unfold service, services_of, field in Hs.
  unfold tick_update in *.
  destruct (lookup "services" (spread (Some d))) as [c |] eqn:Ec;
    [| discriminate Hs].
  assert (Hm : exists m,
             lookup id (own_entries (fst (scan_services clock c)))
             = Some (JObj (set_prop "lastRun" (JStr (clock m)) props))
             \/ c = JNull).
  { destruct c; try discriminate Hs; cbn [scan_services spread own_entries] in *.
    - assert (Hsc : snd (forEach_service clock 0 (indexed 0 (chars s))) = None)
        by (apply forEach_service_completes; rewrite indexed_values;
            apply chars_not_null).
      destruct (forEach_service_marks clock id props _ Hrun 0 Hsc Hs) as [m Hm].
      exfalso. clear - Hs.
      unfold chars in Hs. revert Hs. generalize 0.
      induction (list_ascii_of_string s) as [| ch rest IH]; intros i Hs;
        [discriminate Hs |].
      cbn in Hs. destruct (string_of_nat i =? id); [discriminate Hs | eauto].
    - pose proof (forEach_service_keys clock (indexed 0 items) 0) as Hk.
      pose proof (forEach_service_marks clock id props (indexed 0 items) Hrun 0) as H.
      destruct (forEach_service clock 0 (indexed 0 items)) as [entries e].
      cbn [fst snd own_entries] in *.
      destruct (H Hc Hs) as [m Hm].
      exists m. left. now rewrite (indexed_of_values entries items 0 Hk).
    - pose proof (forEach_service_marks clock id props props0 Hrun 0) as H.
      destruct (forEach_service clock 0 props0) as [props' e].
      cbn [fst snd own_entries] in *.
      destruct (H Hc Hs) as [m Hm]. exists m. now left. }
  destruct Hm as [m [Hm | ->]]; [| discriminate Hs].
  exists m.
  assert (Hsvc : service id (fst (let '(services', e) := scan_services clock c in
                                  (JObj (set_prop "services" services'
                                           (spread (Some d))), e)))
                 = Some (JObj (set_prop "lastRun" (JStr (clock m)) props))).
  { destruct c; try discriminate Hs;
      destruct (scan_services clock _) as [c' e]; cbn [fst] in *;
      unfold service; now rewrite services_of_set. }
  destruct c; try discriminate Hs;
    unfold service_field; rewrite Hsvc; cbn [spread own_entries];
    (split; [apply lookup_set_prop_same
            | rewrite lookup_set_prop_other by discriminate; exact Hst]).
Qed.

Lemma tick_marks_running_services_witness :
  exists n,
    service_field "lastRun" "c1"
      (fst (tick_update (fun _ => "2025-01-01T12:00:01.000Z") two_services))
    = Some (JStr ((fun _ : nat => "2025-01-01T12:00:01.000Z") n)).
Proof.
  destruct (tick_marks_running_services (fun _ => "2025-01-01T12:00:01.000Z")
              two_services "c1"
              (JObj [ ("id", JStr "c1"); ("type", JStr "connector");
                      ("status", JStr "running") ])
              eq_refl eq_refl eq_refl) as [n [H _]].
  exists n. exact H.
Defined.

(** * Invariants of the editors *)

(** ** What the handlers do to the document *)

(** A document that differs from [d] in [services] or [meta] at most. *)
Lemma updaters_shape (d d' : JSON) :
  (exists id updates, updateService_updater id updates d = inr d')
  \/ (exists id, deleteService_updater id d = inr d')
  \/ (exists name, rename_updater name d = inr d') ->
  forall key, key <> "services" -> key <> "meta" -> field key d' = field key d.
Proof.
  intros [(id & updates & H) | [(id & H) | (name & H)]] key Hs Hm.
  - pose proof (updateService_updater_needs_services _ _ _ _ H) as Hh.
    rewrite (updateService_updater_returns _ _ _ Hh) in H. inversion H.
    now apply field_defined_other.
  - assert (Hn : d <> JNull) by (intros ->; discriminate H).
    rewrite (deleteService_updater_returns _ _ Hn) in H. inversion H.
    now apply field_defined_other.
  - assert (Hn : d <> JNull) by (intros ->; discriminate H).
    rewrite (rename_updater_returns _ _ Hn) in H. inversion H.
    now apply field_defined_other.
Qed.

Lemma PipelineEditor_addService_shape type now st st' :
  PipelineEditor.addService type now st = inr st' ->
  exists services,
    st' = PipelineEditor.setSelectedService (Some (new_id type now))
            (PipelineEditor.setSpc
               (JObj (set_prop "services" services
                        (spread (Some (PipelineEditor.spc st)))))
               st).
Proof.
  intros H.
  destruct (PipelineEditor_addService_needs _ _ _ _ H) as [[cfg Hcfg] Hs].
  destruct (PipelineEditor_addService_returns type cfg now st Hcfg Hs) as [t Ht].
  rewrite Ht in H. inversion H. eexists. reflexivity.
Qed.

Lemma Enhanced_addService_shape type now log_now st st' :
  addService type now log_now st = inr st' ->
  exists services,
    st' = addLog "info" ("Added " ++ type ++ " service: " ++ new_id type now) log_now
            (setSpc (JObj (set_prop "services" services
                             (spread (Some (EnhancedPipelineEditor.spc st)))))
               st).
Proof.
  intros H.
  destruct (Enhanced_addService_needs _ _ _ _ _ H) as [Hs Hnn].
  destruct (Enhanced_addService_returns type now log_now st Hs Hnn) as [t Ht].
  rewrite Ht in H. inversion H. eexists. reflexivity.
Qed.

Lemma field_set_other (key k : string) (v : JSON) (d : JSON) :
  key <> k ->
  field key (JObj (set_prop k v (spread (Some d)))) = field key d.
Proof.
  intros H. unfold field. cbn [spread own_entries].
  now apply lookup_set_prop_other.
Qed.

Lemma PipelineEditor_exportSPC_shape now st download st' :
  PipelineEditor.exportSPC now st = inr (download, st') ->
  st' = PipelineEditor.addLog "info" "SPC exported successfully" now st.
Proof.
  unfold PipelineEditor.exportSPC, bind.
  destruct (get (Some (PipelineEditor.spc st)) "meta") as [| m]; [discriminate |].
  destruct (get m "name") as [| n]; [discriminate |].
  destruct (replace_receiver "spc.meta.name" n); [discriminate |].
  intros H. now inversion H.
Qed.

Lemma Enhanced_exportSPC_shape now st download st' :
  exportSPC now st = inr (download, st') ->
  st' = addLog "success" "📥 SPC exported successfully" now st.
Proof.
  unfold exportSPC, bind.
  destruct (get (Some (EnhancedPipelineEditor.spc st)) "meta") as [| m];
    [discriminate |].
  destruct (get m "name") as [| n]; [discriminate |].
  destruct (replace_receiver "spc.meta.name" n); [discriminate |].
  intros H. now inversion H.
Qed.

(** One action of PipelineEditor that does not load a document keeps
    every property of the document but [services] and [meta]. *)
Lemma PipelineEditor_act_keeps_field (a : PipelineAction) st st' key :
  PipelineAction_loads a = false ->
  key <> "services" -> key <> "meta" ->
  PipelineEditor_act st a = Some st' ->
  field key (PipelineEditor.spc st') = field key (PipelineEditor.spc st).
Proof.
  intros Hl Hs Hm H. destruct a; try discriminate Hl; cbn [PipelineEditor_act] in H.
  - destruct (PipelineEditor.addService type now st) as [| st1] eqn:E;
      inversion H; subst; [reflexivity |].
    destruct (PipelineEditor_addService_shape _ _ _ _ E) as [svcs ->].
    now apply field_set_other.
  - unfold PipelineEditor.updateService, PipelineEditor.setSpc_by, bind in H.
    destruct (updateService_updater id updates (PipelineEditor.spc st)) as [| d'] eqn:E;
      inversion H; subst.
    apply updaters_shape; trivial. left. eauto.
  - unfold PipelineEditor.deleteService, PipelineEditor.setSpc_by, bind in H.
    destruct (deleteService_updater id (PipelineEditor.spc st)) as [| d'] eqn:E;
      inversion H; subst.
    assert (Hd : field key d' = field key (PipelineEditor.spc st))
      by (apply updaters_shape; trivial; right; left; eauto).
    destruct (PipelineEditor.is_selected id st); exact Hd.
  - unfold PipelineEditor.Toolbar_onNameChange, PipelineEditor.setSpc_by, bind in H.
    destruct (rename_updater name (PipelineEditor.spc st)) as [| d'] eqn:E;
      inversion H; subst.
    apply updaters_shape; trivial. right; right. eauto.
  - destruct (PipelineEditor.exportSPC now st) as [| [dl st1]] eqn:E;
      inversion H; subst; [reflexivity |].
    now rewrite (PipelineEditor_exportSPC_shape _ _ _ _ E).
  - inversion H; reflexivity.
  - inversion H; subst. unfold PipelineEditor.timeoutFires.
    destruct (PipelineEditor.timeouts st); reflexivity.
  - inversion H; reflexivity.
  - inversion H; reflexivity.
Qed.

Lemma Enhanced_setSpc_by_keeps_field updater st key :
  (forall d', updater (EnhancedPipelineEditor.spc st) = inr d' ->
              field key d' = field key (EnhancedPipelineEditor.spc st)) ->
  field key (EnhancedPipelineEditor.spc (EnhancedPipelineEditor.setSpc_by updater st))
  = field key (EnhancedPipelineEditor.spc st).
Proof.
  intros H. unfold EnhancedPipelineEditor.setSpc_by.
  destruct (updater (EnhancedPipelineEditor.spc st)) as [| d'] eqn:E;
    [reflexivity | now apply H].
Qed.

Lemma Enhanced_act_keeps_field (a : EnhancedAction) st key :
  EnhancedAction_loads a = false ->
  key <> "services" -> key <> "meta" ->
  field key (EnhancedPipelineEditor.spc (Enhanced_act st a))
  = field key (EnhancedPipelineEditor.spc st).
Proof.
  intros Hl Hs Hm. destruct a as [ev | id updates | id now | name | parsed | sel];
    cbn [Enhanced_act].
  - destruct ev; try discriminate Hl; cbn [step];
      try (destruct (crashed st); reflexivity).
    + now apply intervalFires_other_field.
    + destruct (crashed st); [reflexivity |].
      destruct (addService type now log_now st) as [| st1] eqn:E; [reflexivity |].
      destruct (Enhanced_addService_shape _ _ _ _ _ E) as [svcs ->].
      now apply field_set_other.
    + destruct (crashed st); [reflexivity |].
      destruct (exportSPC now st) as [| [dl st1]] eqn:E; [reflexivity |].
      now rewrite (Enhanced_exportSPC_shape _ _ _ _ E).
  - destruct (crashed st); [reflexivity |].
    apply Enhanced_setSpc_by_keeps_field. intros d' E.
    apply updaters_shape; trivial. left. eauto.
  - destruct (crashed st); [reflexivity |].
    unfold EnhancedPipelineEditor.deleteService.
    assert (Hd : field key (EnhancedPipelineEditor.spc
                              (EnhancedPipelineEditor.setSpc_by
                                 (deleteService_updater id) st))
                 = field key (EnhancedPipelineEditor.spc st)).
    { apply Enhanced_setSpc_by_keeps_field. intros d' E.
      apply updaters_shape; trivial. right; left. eauto. }
    destruct (EnhancedPipelineEditor.is_selected id st); exact Hd.
  - destruct (crashed st); [reflexivity |].
    apply Enhanced_setSpc_by_keeps_field. intros d' E.
    apply updaters_shape; trivial. right; right. eauto.
  - destruct (crashed st); [reflexivity |].
    unfold EnhancedPipelineEditor.handleSpecChange.
    destruct parsed as [| spec]; [reflexivity |].
    destruct (selectedNode st) as [id |]; [| reflexivity].
    apply Enhanced_setSpc_by_keeps_field. intros d' E.
    apply updaters_shape; trivial. left. eauto.
  - destruct (crashed st); reflexivity.
Qed.

(** X15.  Nothing a user does in either editor, short of importing a
    file or editing the JSON text, changes a top-level property of the
    document other than [services] and [meta]: [state] and
    [spc_version] are the ones the document was loaded with. *)
Theorem only_loading_changes_state (key : string) :
  key <> "services" -> key <> "meta" ->
  (forall actions st st',
      forallb (fun a => negb (PipelineAction_loads a)) actions = true ->
      PipelineEditor_acts actions st = Some st' ->
      field key (PipelineEditor.spc st') = field key (PipelineEditor.spc st))
  /\ (forall actions st,
         forallb (fun a => negb (EnhancedAction_loads a)) actions = true ->
         field key (EnhancedPipelineEditor.spc (Enhanced_acts actions st))
         = field key (EnhancedPipelineEditor.spc st)).
Proof.
  intros Hs Hm. split.
  - induction actions as [| a rest IH]; intros st st' Hl H.
    + now inversion H.
    + cbn in Hl. apply andb_prop in Hl. destruct Hl as [Ha Hrest].
      apply negb_true_iff in Ha. cbn [PipelineEditor_acts] in H.
      destruct (PipelineEditor_act st a) as [st1 |] eqn:E; [| discriminate H].
      rewrite (IH st1 st' Hrest H).
      now apply (PipelineEditor_act_keeps_field a).
  - induction actions as [| a rest IH]; intros st Hl; [reflexivity |].
    cbn in Hl. apply andb_prop in Hl. destruct Hl as [Ha Hrest].
    apply negb_true_iff in Ha. cbn [Enhanced_acts fold_left].
    fold (Enhanced_acts rest (Enhanced_act st a)).
    rewrite (IH _ Hrest). now apply Enhanced_act_keeps_field.
Qed.

Lemma only_loading_changes_state_witness :
  field "state"
    (EnhancedPipelineEditor.spc
       (Enhanced_acts
          [ EEvent (Run "12:00:00");
            EUpdateService "m1" [("status", JStr "running")];
            EEvent (Fire 0 "12:00:01" (fun _ => "2025-01-01T12:00:01.000Z") "12:00:01");
            EDeleteService "c1" "12:00:02";
            ENameChange "Renamed" ]
          (setSpc two_services (initial "2025-01-01T00:00:00.000Z"))))
  = Some (JObj [("raw", JNum 1)]).
Proof.
  rewrite (proj2 (only_loading_changes_state "state"
                    ltac:(discriminate) ltac:(discriminate)))
    by reflexivity.
  reflexivity.
Defined.

(** ** The log and the running flag *)

Lemma PipelineEditor_addLog_bounded lvl msg now st :
  length (PipelineEditor.executionLog (PipelineEditor.addLog lvl msg now st)) <= 50.
Proof.
  apply slice_last_length.
Qed.

Lemma Enhanced_addLog_bounded lvl msg now st :
  length (logs (addLog lvl msg now st)) <= 30.
Proof.
  apply slice_last_length.
Qed.

Lemma PipelineEditor_act_log (a : PipelineAction) st st' :
  PipelineEditor_act st a = Some st' ->
  length (PipelineEditor.executionLog st) <= 50 ->
  length (PipelineEditor.executionLog st') <= 50.
Proof.
  intros H Hb. destruct a; cbn [PipelineEditor_act] in H.
  - destruct (PipelineEditor.addService type now st) as [| st1] eqn:E;
      inversion H; subst; [exact Hb |].
    destruct (PipelineEditor_addService_shape _ _ _ _ E) as [svcs ->]. exact Hb.
  - unfold PipelineEditor.updateService, PipelineEditor.setSpc_by, bind in H.
    destruct (updateService_updater id updates (PipelineEditor.spc st));
      inversion H; subst. exact Hb.
  - unfold PipelineEditor.deleteService, PipelineEditor.setSpc_by, bind in H.
    destruct (deleteService_updater id (PipelineEditor.spc st));
      inversion H; subst.
    destruct (PipelineEditor.is_selected id st); exact Hb.
  - unfold PipelineEditor.Toolbar_onNameChange, PipelineEditor.setSpc_by, bind in H.
    destruct (rename_updater name (PipelineEditor.spc st)); inversion H; subst.
    exact Hb.
  - inversion H; subst. destruct parsed; exact Hb.
  - inversion H; subst. unfold PipelineEditor.importSPC.
    destruct file as [parsed |]; [| exact Hb].
    destruct (PipelineEditor.importSPC_try parsed);
      apply PipelineEditor_addLog_bounded.
  - destruct (PipelineEditor.exportSPC now st) as [| [dl st1]] eqn:E;
      inversion H; subst; [exact Hb |].
    rewrite (PipelineEditor_exportSPC_shape _ _ _ _ E).
    apply PipelineEditor_addLog_bounded.
  - inversion H; subst. apply PipelineEditor_addLog_bounded.
  - inversion H; subst. unfold PipelineEditor.timeoutFires.
    destruct (PipelineEditor.timeouts st); [exact Hb |].
    apply PipelineEditor_addLog_bounded.
  - inversion H; subst. apply PipelineEditor_addLog_bounded.
  - inversion H; subst. apply PipelineEditor_addLog_bounded.
Qed.

Lemma setSpc_tick_logs clock st :
  logs (setSpc_tick clock st) = logs st.
Proof.
  unfold setSpc_tick.
  destruct (tick_update clock (EnhancedPipelineEditor.spc st)) as [d [e |]];
    reflexivity.
Qed.

Lemma Enhanced_setSpc_by_logs updater st :
  logs (EnhancedPipelineEditor.setSpc_by updater st) = logs st.
Proof.
  unfold EnhancedPipelineEditor.setSpc_by.
  destruct (updater (EnhancedPipelineEditor.spc st)); reflexivity.
Qed.

Lemma Enhanced_act_log (a : EnhancedAction) st :
  length (logs st) <= 30 -> length (logs (Enhanced_act st a)) <= 30.
Proof.
  intros Hb. destruct a as [ev | id updates | id now | name | parsed | sel];
    cbn [Enhanced_act].
  - destruct ev; cbn [step]; try (destruct (crashed st); [exact Hb |]).
    + apply slice_last_length.
    + apply Enhanced_addLog_bounded.
    + apply Enhanced_addLog_bounded.
    + unfold intervalFires.
      destruct (nth_error (timers st) h) as [t |]; [| exact Hb].
      destruct (scheduled t); [| exact Hb].
      destruct (crashed st); [exact Hb |].
      destruct (5 <=? S (tick t))%nat; [apply Enhanced_addLog_bounded |].
      rewrite setSpc_tick_logs. apply Enhanced_addLog_bounded.
    + destruct (addService type now log_now st) as [| st1] eqn:E; [exact Hb |].
      destruct (Enhanced_addService_shape _ _ _ _ _ E) as [svcs ->].
      apply Enhanced_addLog_bounded.
    + unfold importSPC. destruct file as [parsed |]; [| exact Hb].
      destruct (importSPC_try parsed); apply Enhanced_addLog_bounded.
    + destruct (exportSPC now st) as [| [dl st1]] eqn:E; [exact Hb |].
      rewrite (Enhanced_exportSPC_shape _ _ _ _ E). apply Enhanced_addLog_bounded.
  - destruct (crashed st); [exact Hb |].
    unfold EnhancedPipelineEditor.updateService. now rewrite Enhanced_setSpc_by_logs.
  - destruct (crashed st); [exact Hb |]. apply Enhanced_addLog_bounded.
  - destruct (crashed st); [exact Hb |].
    unfold EnhancedPipelineEditor.Header_onNameChange.
    now rewrite Enhanced_setSpc_by_logs.
  - destruct (crashed st); [exact Hb |].
    unfold EnhancedPipelineEditor.handleSpecChange.
    destruct parsed; [exact Hb |]. destruct (selectedNode st); [| exact Hb].
    unfold EnhancedPipelineEditor.updateService. now rewrite Enhanced_setSpc_by_logs.
  - destruct (crashed st); exact Hb.
Qed.

(** X16.  The execution log never outgrows its cap: after any sequence
    of actions on a fresh editor it holds at most 50 entries in
    PipelineEditor and at most 30 in the enhanced editor. *)
Theorem log_cap_is_invariant (created_at : string) :
  (forall actions st',
      PipelineEditor_acts actions (PipelineEditor.initial created_at) = Some st' ->
      length (PipelineEditor.executionLog st') <= 50)
  /\ (forall actions,
         length (logs (Enhanced_acts actions (initial created_at))) <= 30).
Proof.
  split.
  - assert (H : forall actions st st',
               length (PipelineEditor.executionLog st) <= 50 ->
               PipelineEditor_acts actions st = Some st' ->
               length (PipelineEditor.executionLog st') <= 50).
    { induction actions as [| a rest IH]; intros st st' Hb H.
      - now inversion H; subst.
      - cbn [PipelineEditor_acts] in H.
        destruct (PipelineEditor_act st a) as [st1 |] eqn:E; [| discriminate H].
        apply (IH st1 st'); [| exact H].
        now apply (PipelineEditor_act_log a st). }
    intros actions st'. apply H. cbn. lia.
  - assert (H : forall actions st,
               length (logs st) <= 30 ->
               length (logs (Enhanced_acts actions st)) <= 30).
    { induction actions as [| a rest IH]; intros st Hb; [exact Hb |].
      cbn [Enhanced_acts fold_left]. fold (Enhanced_acts rest (Enhanced_act st a)).
      apply IH. now apply Enhanced_act_log. }
    intros actions. apply H. cbn. lia.
Qed.

Lemma log_cap_is_invariant_witness :
  exists st',
    PipelineEditor_acts [PRun "12:00:00"; PStop "12:00:01"; PTimeout "12:00:02"]
      (PipelineEditor.initial "2025-01-01T00:00:00.000Z") = Some st'
    /\ length (PipelineEditor.executionLog st') <= 50.
Proof.
  eexists. split; [reflexivity |].
  apply (proj1 (log_cap_is_invariant "2025-01-01T00:00:00.000Z")
           [PRun "12:00:00"; PStop "12:00:01"; PTimeout "12:00:02"]).
  reflexivity.
Defined.

Lemma PipelineEditor_act_running (a : PipelineAction) st st' :
  PipelineEditor_act st a = Some st' ->
  (PipelineEditor.isRunning st = true -> 0 < PipelineEditor.timeouts st) ->
  PipelineEditor.isRunning st' = true -> 0 < PipelineEditor.timeouts st'.
Proof.
  intros H Hinv. destruct a; cbn [PipelineEditor_act] in H.
  - destruct (PipelineEditor.addService type now st) as [| st1] eqn:E;
      inversion H; subst; [exact Hinv |].
    destruct (PipelineEditor_addService_shape _ _ _ _ E) as [svcs ->]. exact Hinv.
  - unfold PipelineEditor.updateService, PipelineEditor.setSpc_by, bind in H.
    destruct (updateService_updater id updates (PipelineEditor.spc st));
      inversion H; subst. exact Hinv.
  - unfold PipelineEditor.deleteService, PipelineEditor.setSpc_by, bind in H.
    destruct (deleteService_updater id (PipelineEditor.spc st));
      inversion H; subst.
    destruct (PipelineEditor.is_selected id st); exact Hinv.
  - unfold PipelineEditor.Toolbar_onNameChange, PipelineEditor.setSpc_by, bind in H.
    destruct (rename_updater name (PipelineEditor.spc st)); inversion H; subst.
    exact Hinv.
  - inversion H; subst. destruct parsed; exact Hinv.
  - inversion H; subst. unfold PipelineEditor.importSPC.
    destruct file as [parsed |]; [| exact Hinv].
    destruct (PipelineEditor.importSPC_try parsed); exact Hinv.
  - destruct (PipelineEditor.exportSPC now st) as [| [dl st1]] eqn:E;
      inversion H; subst; [exact Hinv |].
    rewrite (PipelineEditor_exportSPC_shape _ _ _ _ E). exact Hinv.
  - inversion H; subst. intros _. cbn. lia.
  - inversion H; subst. unfold PipelineEditor.timeoutFires.
    destruct (PipelineEditor.timeouts st) eqn:E;
      [intros Hr; specialize (Hinv Hr); rewrite ?E in *; lia |].
    discriminate.
  - inversion H; subst. discriminate.
  - inversion H; subst. exact Hinv.
Qed.

Lemma setSpc_tick_cells clock st :
  EnhancedPipelineEditor.isRunning (setSpc_tick clock st)
  = EnhancedPipelineEditor.isRunning st.
Proof.
  unfold setSpc_tick.
  destruct (tick_update clock (EnhancedPipelineEditor.spc st)) as [d [e |]];
    reflexivity.
Qed.

Lemma Enhanced_setSpc_by_cells updater st :
  EnhancedPipelineEditor.isRunning (EnhancedPipelineEditor.setSpc_by updater st)
  = EnhancedPipelineEditor.isRunning st
  /\ timers (EnhancedPipelineEditor.setSpc_by updater st) = timers st.
Proof.
  unfold EnhancedPipelineEditor.setSpc_by.
  destruct (updater (EnhancedPipelineEditor.spc st)); split; reflexivity.
Qed.

Lemma set_timer_scheduled h n ts :
  h < length ts ->
  exists t, In t (set_timer h (mkTimer n true) ts) /\ scheduled t = true.
Proof.
  intros Hh. exists (mkTimer n true). split; [| reflexivity].
  apply (nth_error_In _ h). now apply nth_error_set_timer_same.
Qed.

(** A crash is for good. *)
Lemma Enhanced_act_stays_crashed (a : EnhancedAction) st e :
  crashed st = Some e -> crashed (Enhanced_act st a) = Some e.
Proof.
  intros Hcr.
  destruct a as [ev | | | | |]; cbn [Enhanced_act];
    try (rewrite Hcr; exact Hcr).
  destruct ev as [now | now | now | h tick_now clock done_now
                  | type now log_now | file now | now];
    cbn [step]; try (rewrite Hcr; exact Hcr).
  unfold intervalFires.
  destruct (nth_error (timers st) h) as [t |]; [| exact Hcr].
  destruct (scheduled t); [| exact Hcr].
  now rewrite Hcr.
Qed.

(** The running flag stays backed by a scheduled interval. *)
Lemma Enhanced_act_running (a : EnhancedAction) st :
  let inv s :=
    EnhancedPipelineEditor.isRunning s = true ->
    exists t, In t (timers s) /\ scheduled t = true in
  (crashed st = None -> inv st) ->
  crashed (Enhanced_act st a) = None ->
  inv (Enhanced_act st a).
Proof.
  cbv zeta. intros Hinv.
  destruct (crashed st) as [e |] eqn:Hcr.
  - intros H. rewrite (Enhanced_act_stays_crashed a st e Hcr) in H.
    discriminate H.
  - specialize (Hinv eq_refl).
    destruct a as [ev | id updates | id now | name | parsed | sel];
      cbn [Enhanced_act]; rewrite ?Hcr.
    + destruct ev as [now | now | now | h tick_now clock done_now
                      | type now log_now | file now | now];
        cbn [step]; rewrite ?Hcr.
      * intros _ _. exists (mkTimer 0 true). split; [| reflexivity].
        cbn. apply in_or_app. right. now left.
      * intros _. discriminate.
      * intros _. exact Hinv.
      * unfold intervalFires.
        destruct (nth_error (timers st) h) as [t |] eqn:Et; [| intros _; exact Hinv].
        destruct (scheduled t); [| intros _; exact Hinv].
        rewrite Hcr.
        destruct (5 <=? S (tick t))%nat eqn:Ef; [intros _; discriminate |].
        intros _ _. cbn [negb]. rewrite setSpc_tick_timers. cbn [addLog setLogs timers].
        apply set_timer_scheduled. apply nth_error_Some. now rewrite Et.
      * destruct (addService type now log_now st) as [| st1] eqn:E;
          [intros _; exact Hinv |].
        destruct (Enhanced_addService_shape _ _ _ _ _ E) as [svcs ->].
        intros _. exact Hinv.
      * intros _. unfold importSPC. destruct file as [parsed |]; [| exact Hinv].
        destruct (importSPC_try parsed); exact Hinv.
      * destruct (exportSPC now st) as [| [dl st1]] eqn:E; [intros _; exact Hinv |].
        rewrite (Enhanced_exportSPC_shape _ _ _ _ E). intros _. exact Hinv.
    + intros _. unfold EnhancedPipelineEditor.updateService.
      destruct (Enhanced_setSpc_by_cells (updateService_updater id updates) st)
        as [-> ->]. exact Hinv.
    + intros _. unfold EnhancedPipelineEditor.deleteService.
      cbn [addLog setLogs EnhancedPipelineEditor.isRunning timers].
      destruct (Enhanced_setSpc_by_cells (deleteService_updater id) st) as [Hr Ht].
      destruct (EnhancedPipelineEditor.is_selected id st);
        cbn [EnhancedPipelineEditor.setSelectedNode
             EnhancedPipelineEditor.isRunning timers];
        rewrite Hr, Ht; exact Hinv.
    + intros _. unfold EnhancedPipelineEditor.Header_onNameChange.
      destruct (Enhanced_setSpc_by_cells (rename_updater name) st) as [-> ->].
      exact Hinv.
    + intros _. unfold EnhancedPipelineEditor.handleSpecChange.
      destruct parsed as [| spec]; [exact Hinv |].
      destruct (selectedNode st) as [id |]; [| exact Hinv].
      unfold EnhancedPipelineEditor.updateService.
      destruct (Enhanced_setSpc_by_cells (updateService_updater id [("spec", spec)]) st)
        as [-> ->]. exact Hinv.
    + intros _. exact Hinv.
Qed.

(** X17.  The running flag cannot stick.  In every state that a fresh
    PipelineEditor reaches, if the pipeline is shown as running then a
    timeout of [runPipeline] is still pending, which will reset the
    flag; in every state that a fresh enhanced editor reaches without a
    crash, if the pipeline is shown as running then an interval is still
    scheduled. *)
Theorem running_flag_is_backed (created_at : string) :
  (forall actions st',
      PipelineEditor_acts actions (PipelineEditor.initial created_at) = Some st' ->
      PipelineEditor.isRunning st' = true ->
      0 < PipelineEditor.timeouts st')
  /\ (forall actions,
         let st' := Enhanced_acts actions (initial created_at) in
         crashed st' = None ->
         EnhancedPipelineEditor.isRunning st' = true ->
         exists t, In t (timers st') /\ scheduled t = true).
Proof.
  split.
  - assert (H : forall actions st st',
               (PipelineEditor.isRunning st = true -> 0 < PipelineEditor.timeouts st) ->
               PipelineEditor_acts actions st = Some st' ->
               PipelineEditor.isRunning st' = true ->
               0 < PipelineEditor.timeouts st').
    { induction actions as [| a rest IH]; intros st st' Hinv H.
      - now inversion H; subst.
      - cbn [PipelineEditor_acts] in H.
        destruct (PipelineEditor_act st a) as [st1 |] eqn:E; [| discriminate H].
        apply (IH st1 st'); [| exact H].
        now apply (PipelineEditor_act_running a st). }
    intros actions st'. apply H. discriminate.
  - assert (H : forall actions st,
               (crashed st = None ->
                EnhancedPipelineEditor.isRunning st = true ->
                exists t, In t (timers st) /\ scheduled t = true) ->
               crashed (Enhanced_acts actions st) = None ->
               EnhancedPipelineEditor.isRunning (Enhanced_acts actions st) = true ->
               exists t, In t (timers (Enhanced_acts actions st)) /\ scheduled t = true).
    { induction actions as [| a rest IH]; intros st Hinv; [exact Hinv |].
      cbn [Enhanced_acts fold_left]. fold (Enhanced_acts rest (Enhanced_act st a)).
      apply IH. intros Hc. exact (Enhanced_act_running a st Hinv Hc). }
    intros actions. cbv zeta. apply H. intros _. discriminate.
Qed.

Lemma running_flag_is_backed_witness :
  exists t,
    In t (timers (Enhanced_acts [EEvent (Run "12:00:00"); ENameChange "Demo"]
                    (initial "2025-01-01T00:00:00.000Z")))
    /\ scheduled t = true.
Proof.
  apply (proj2 (running_flag_is_backed "2025-01-01T00:00:00.000Z")
           [EEvent (Run "12:00:00"); ENameChange "Demo"]);
    reflexivity.
Defined.

(** * The canvas nodes of PipelineEditor *)

Lemma nodes_from_cons (idx : nat) (id : string) (svc : JSON) rest :
  PipelineEditor.nodes_from idx ((id, svc) :: rest) =
  match svc with
  | JNull => Throw (cannot_read "null" "type")
  | _ =>
      nodes <- PipelineEditor.nodes_from (S idx) rest ;;
      Return (PipelineEditor.mkNode id (field "type" svc)
                (or_else (field "title" svc) (JStr id))
                (field "spec" svc)
                (or_else (field "status" svc) (JStr "stopped"))
                (or_else (field "position" svc)
                   (PipelineEditor.default_position idx))
              :: nodes)
  end.
Proof.
  cbn [PipelineEditor.nodes_from]. rewrite !get_field by reflexivity.
  destruct svc; reflexivity.
Qed.

Lemma nodes_from_returns entries :
  forall idx,
    (exists nodes, PipelineEditor.nodes_from idx entries = inr nodes)
    <-> Forall (fun v => v <> JNull) (map snd entries).
Proof.
  induction entries as [| [id svc] rest IH]; intros idx.
  - cbn. split; [constructor | intros _; now eexists].
  - rewrite nodes_from_cons. cbn [map snd]. specialize (IH (S idx)).
    destruct (PipelineEditor.nodes_from (S idx) rest) as [e | nodes'].
    + split.
      * intros [nodes H]. destruct svc; discriminate H.
      * intros H. inversion H as [| ? ? _ Hrest]; subst.
        apply IH in Hrest. destruct Hrest as [x Hx]. discriminate Hx.
    + split.
      * intros [nodes H]. constructor.
        -- intros ->. discriminate H.
        -- apply IH. now eexists.
      * intros H. inversion H as [| ? ? Hn _]; subst.
        destruct svc; try (now elim Hn); eexists; reflexivity.
Qed.

Lemma or_else_stopped_truthy (v : Value) :
  truthy (Some (or_else v (JStr "stopped"))) = true.
Proof.
  unfold or_else. destruct v as [j |]; [| reflexivity].
  destruct (truthy (Some j)) eqn:E; [exact E | reflexivity].
Qed.

Lemma nodes_from_nodes entries :
  forall idx nodes,
    PipelineEditor.nodes_from idx entries = inr nodes ->
    map PipelineEditor.node_id nodes = map fst entries
    /\ Forall (fun n => truthy (Some (PipelineEditor.node_status n)) = true) nodes
    /\ (forall i n,
           nth_error nodes i = Some n ->
           exists id svc,
             nth_error entries i = Some (id, svc)
             /\ PipelineEditor.node_id n = id
             /\ PipelineEditor.node_type n = field "type" svc
             /\ PipelineEditor.node_spec n = field "spec" svc
             /\ PipelineEditor.node_status n
                = or_else (field "status" svc) (JStr "stopped")
             /\ PipelineEditor.node_position n
                = or_else (field "position" svc)
                    (PipelineEditor.default_position (idx + i))).
Proof.
  induction entries as [| [id svc] rest IH]; intros idx nodes H.
  - inversion H; subst. split; [reflexivity |]. split; [constructor |].
    intros [| i] n Hn; discriminate Hn.
  - rewrite nodes_from_cons in H.
    destruct (PipelineEditor.nodes_from (S idx) rest) as [e | nodes'] eqn:E.
    + destruct svc; discriminate H.
    + destruct (IH (S idx) nodes' E) as (Hids & Hst & Hnth).
      assert (Hnodes : nodes
                       = PipelineEditor.mkNode id (field "type" svc)
                           (or_else (field "title" svc) (JStr id))
                           (field "spec" svc)
                           (or_else (field "status" svc) (JStr "stopped"))
                           (or_else (field "position" svc)
                              (PipelineEditor.default_position idx))
                         :: nodes').
      { destruct svc; try discriminate H; now inversion H. }
      subst nodes. split; [cbn; now rewrite Hids |]. split.
      * constructor; [apply or_else_stopped_truthy | exact Hst].
      * intros [| i] n Hn.
        -- inversion Hn; subst. exists id, svc.
           rewrite Nat.add_0_r. repeat split; reflexivity.
        -- destruct (Hnth i n Hn) as (id' & svc' & H1 & H2 & H3 & H4 & H5 & H6).
           exists id', svc'.
           replace (idx + S i) with (S idx + i) by lia.
           repeat split; assumption.
Qed.

Lemma nodes_from_spec entries :
  forall idx,
    ((exists nodes, PipelineEditor.nodes_from idx entries = inr nodes)
     <-> Forall (fun v => v <> JNull) (map snd entries))
    /\ (forall nodes,
           PipelineEditor.nodes_from idx entries = inr nodes ->
           map PipelineEditor.node_id nodes = map fst entries
           /\ Forall (fun n => truthy (Some (PipelineEditor.node_status n)) = true)
                     nodes
           /\ (forall i n,
                  nth_error nodes i = Some n ->
                  exists id svc,
                    nth_error entries i = Some (id, svc)
                    /\ PipelineEditor.node_id n = id
                    /\ PipelineEditor.node_type n = field "type" svc
                    /\ PipelineEditor.node_spec n = field "spec" svc
                    /\ PipelineEditor.node_status n
                       = or_else (field "status" svc) (JStr "stopped")
                    /\ PipelineEditor.node_position n
                       = or_else (field "position" svc)
                           (PipelineEditor.default_position (idx + i)))).
Proof.
  intros idx. split; [apply nodes_from_returns | apply nodes_from_nodes].
Qed.

Lemma canvasNodes_cases (d : JSON) :
  PipelineEditor.canvasNodes d =
  match d with
  | JNull => Throw (cannot_read "null" "services")
  | _ =>
      match field "services" d with
      | None | Some JNull =>
          Throw (TypeError "Cannot convert undefined or null to object")
      | Some container => PipelineEditor.nodes_from 0 (own_entries container)
      end
  end.
Proof.
  unfold PipelineEditor.canvasNodes. rewrite get_field by reflexivity.
  destruct d; try reflexivity; cbn [bind Return];
    match goal with
    | |- context [field "services" ?x] =>
        destruct (field "services" x) as [[] |]; reflexivity
    end.
Qed.

Lemma canvasNodes_services (d : JSON) :
  has_services d
  /\ PipelineEditor.canvasNodes d = PipelineEditor.nodes_from 0 (services_of d)
  \/ ~ has_services d /\ exists e, PipelineEditor.canvasNodes d = inl e.
Proof.
  rewrite canvasNodes_cases. unfold has_services, services_of.
  destruct d.
  1: { right. split; [intros (c & Hc & _); discriminate Hc
                     | eexists; reflexivity]. }
  all: match goal with
       | |- context [field "services" ?x] =>
           destruct (field "services" x) as [c |] eqn:Hc
       end.
  all: try (right; split;
            [intros (c' & Hc' & _); discriminate Hc' | eexists; reflexivity]).
  all: destruct c;
    try (left; split; [eexists; split; [reflexivity | discriminate]
                      | reflexivity]).
  all: right; split;
    [intros (c' & Hc' & Hn); inversion Hc'; subst; now elim Hn
    | eexists; reflexivity].
Qed.

(** X18.  The canvas shows the services one for one: the nodes derived
    from a document exist exactly when it has a services container
    without [null] entries, and then they carry the keys of the services
    in order, each with the type and the spec of its service, a status
    that is never empty (['stopped'] by default) and the position of the
    service or, without one, the grid cell of its index. *)
Theorem canvas_nodes_mirror_services (d : JSON) :
  ((exists nodes, PipelineEditor.canvasNodes d = inr nodes)
   <-> has_services d /\ no_null_service d)
  /\ (forall nodes,
         PipelineEditor.canvasNodes d = inr nodes ->
         map PipelineEditor.node_id nodes = map fst (services_of d)
         /\ Forall (fun n => truthy (Some (PipelineEditor.node_status n)) = true) nodes
         /\ (forall i n,
                nth_error nodes i = Some n ->
                exists id svc,
                  nth_error (services_of d) i = Some (id, svc)
                  /\ PipelineEditor.node_id n = id
                  /\ PipelineEditor.node_type n = field "type" svc
                  /\ PipelineEditor.node_spec n = field "spec" svc
                  /\ PipelineEditor.node_status n
                     = or_else (field "status" svc) (JStr "stopped")
                  /\ PipelineEditor.node_position n
                     = or_else (field "position" svc)
                         (PipelineEditor.default_position i))).
Proof.
  pose proof (canvasNodes_services d) as Hcases.
  destruct (nodes_from_spec (services_of d) 0) as [Hr Hs].
  destruct Hcases as [[Hh Heq] | [Hn [e He]]].
  - rewrite Heq. split.
    + rewrite Hr. unfold no_null_service. tauto.
    + exact Hs.
  - rewrite He. split.
    + split; [intros [nodes H]; discriminate H | intros [Hh _]; contradiction].
    + intros nodes H. discriminate H.
Qed.

Lemma canvas_nodes_mirror_services_witness :
  exists nodes,
    PipelineEditor.canvasNodes two_services = inr nodes
    /\ map PipelineEditor.node_id nodes = ["c1"; "m1"].
Proof.
  destruct (canvas_nodes_mirror_services two_services) as [Hr Hs].
  assert (H : exists nodes, PipelineEditor.canvasNodes two_services = inr nodes).
  { apply Hr. split.
    - eexists. split; [reflexivity | discriminate].
    - repeat constructor; discriminate. }
  destruct H as [nodes H]. exists nodes. split; [exact H |].
  exact (proj1 (Hs nodes H)).
Defined.

(** X19.  The default positions never overlap: services at different
    indices get different grid cells. *)
Theorem default_positions_distinct (i j : nat) :
  i <> j ->
  PipelineEditor.default_position i <> PipelineEditor.default_position j.
Proof.
  unfold PipelineEditor.default_position. intros Hij H. apply Hij.
  assert (Hx : (100 + Z.of_nat (i mod 3) * 250
                = 100 + Z.of_nat (j mod 3) * 250)%Z) by congruence.
  assert (Hy : (100 + Z.of_nat (i / 3) * 150
                = 100 + Z.of_nat (j / 3) * 150)%Z) by congruence.
  clear H.
  assert (Hm : i mod 3 = j mod 3) by lia.
  assert (Hd : i / 3 = j / 3) by lia.
  rewrite (Nat.div_mod_eq i 3), (Nat.div_mod_eq j 3), Hm, Hd. reflexivity.
Qed.

Lemma default_positions_distinct_witness :
  4 <> 7
  /\ PipelineEditor.default_position 4 <> PipelineEditor.default_position 7.
Proof.
  split; [lia | apply (default_positions_distinct 4 7); lia].
Defined.

(** ** Dragging a node *)

Lemma lookup_in (k : string) props :
  In k (map fst props) -> exists v, lookup k props = Some v.
Proof.
  induction props as [| [k0 v0] rest IH]; intros H; [destruct H |].
  cbn. destruct (String.eqb_spec k0 k) as [_ | Hne]; [now eexists |].
  destruct H as [H | H]; [now elim Hne | exact (IH H)].
Qed.

Lemma define_own_position (position : JSON) props :
  merge props [("position", position)] = set_prop "position" position props.
Proof.
  cbn [merge fold_left fst snd]. unfold define_own.
  destruct (lookup "position" props); reflexivity.
Qed.

Lemma moved_other (id : string) (position : JSON) n :
  PipelineEditor.node_id n <> id -> moved id position n = n.
Proof.
  intros H. unfold moved.
  destruct (String.eqb_spec (PipelineEditor.node_id n) id) as [E | _];
    [now elim H | reflexivity].
Qed.

Lemma moved_elsewhere (id : string) (position : JSON) nodes :
  ~ In id (map PipelineEditor.node_id nodes) ->
  map (moved id position) nodes = nodes.
Proof.
  induction nodes as [| n rest IH]; intros H; [reflexivity |].
  cbn [map]. rewrite IH by (intros Hin; apply H; now right).
  rewrite moved_other; [reflexivity |].
  intros E. apply H. now left.
Qed.

Lemma nodes_from_set_position (id : string) (position svc : JSON) :
  truthy (Some position) = true ->
  forall entries idx nodes,
    NoDup (map fst entries) ->
    lookup id entries = Some svc ->
    PipelineEditor.nodes_from idx entries = inr nodes ->
    PipelineEditor.nodes_from idx
      (set_prop id (JObj (set_prop "position" position (own_entries svc))) entries)
    = inr (map (moved id position) nodes).
Proof.
  intros Hp. induction entries as [| [k x] rest IH]; intros idx nodes Hnd Hl H;
    [discriminate Hl |].
  cbn [map fst] in Hnd. inversion Hnd as [| ? ? Hnotin Hnd']; subst.
  cbn [lookup] in Hl. cbn [set_prop].
  rewrite nodes_from_cons in H.
  destruct (String.eqb_spec k id) as [-> | Hne].
  - inversion Hl; subst x. rewrite nodes_from_cons.
    destruct (PipelineEditor.nodes_from (S idx) rest) as [e | ns] eqn:Er;
      [destruct svc; discriminate H |].
    assert (Hids : map PipelineEditor.node_id ns = map fst rest)
      by exact (proj1 (nodes_from_nodes rest (S idx) ns Er)).
    assert (Hf : forall k, k <> "position" ->
                 field k (JObj (set_prop "position" position (own_entries svc)))
                 = field k svc).
    { intros k Hk. unfold field. cbn [spread own_entries].
      now apply lookup_set_prop_other. }
    assert (Hpos : or_else
                     (field "position"
                        (JObj (set_prop "position" position (own_entries svc))))
                     (PipelineEditor.default_position idx) = position).
    { unfold field. cbn [spread own_entries]. rewrite lookup_set_prop_same.
      unfold or_else. now rewrite Hp. }
    cbn [bind Return]. rewrite Hpos, !Hf by discriminate.
    assert (Hn : inr nodes
                 = inr (A := Exn)
                     (PipelineEditor.mkNode id (field "type" svc)
                        (or_else (field "title" svc) (JStr id))
                        (field "spec" svc)
                        (or_else (field "status" svc) (JStr "stopped"))
                        (or_else (field "position" svc)
                           (PipelineEditor.default_position idx))
                      :: ns))
      by (rewrite <- H; destruct svc; try reflexivity; discriminate H).
    inversion Hn; subst nodes. cbn [map].
    rewrite moved_elsewhere by now rewrite Hids.
    unfold moved. cbn [PipelineEditor.node_id]. rewrite String.eqb_refl.
    reflexivity.
  - rewrite nodes_from_cons.
    destruct (PipelineEditor.nodes_from (S idx) rest) as [e | ns] eqn:Er;
      [destruct x; discriminate H |].
    rewrite (IH (S idx) ns Hnd' Hl Er).
    destruct x; try discriminate H; cbn [bind Return] in H |- *;
      inversion H; subst nodes; cbn [map];
      rewrite moved_other by exact Hne; reflexivity.
Qed.

(** X20.  Dragging a node moves that node and no other: when the
    services have distinct keys and the canvas shows a node [id], then
    [moveNode(id, position)] with a position object returns, writes
    nothing but the document, and the canvas derived from the new
    document is the old one with node [id] at [position]: every other
    node, and the id, type, title, spec and status of the moved one,
    are as they were. *)
Theorem moveNode_moves_one_node (id : string) (position : JSON)
    (pst : PipelineEditor.Editor) (nodes : list PipelineEditor.CanvasNode) :
  truthy (Some position) = true ->
  NoDup (map fst (services_of (PipelineEditor.spc pst))) ->
  PipelineEditor.canvasNodes (PipelineEditor.spc pst) = inr nodes ->
  In id (map PipelineEditor.node_id nodes) ->
  exists pst',
    PipelineEditor.moveNode id position pst = inr pst'
    /\ pst' = PipelineEditor.setSpc (PipelineEditor.spc pst') pst
    /\ PipelineEditor.canvasNodes (PipelineEditor.spc pst')
       = inr (map (moved id position) nodes).
Proof.
  intros Hp Hnd Hc Hin.
  destruct (canvasNodes_services (PipelineEditor.spc pst))
    as [[Hh Heq] | [_ [e He]]]; [| rewrite He in Hc; discriminate Hc].
  rewrite Heq in Hc.
  rewrite (proj1 (nodes_from_nodes _ _ _ Hc)) in Hin.
  destruct (lookup_in _ _ Hin) as [svc Hsvc].
  unfold PipelineEditor.moveNode, PipelineEditor.updateService,
    PipelineEditor.setSpc_by.
  rewrite (updateService_updater_returns _ _ _ Hh). cbn [bind Return].
  eexists. split; [reflexivity |]. split; [reflexivity |].
  cbn [PipelineEditor.spc PipelineEditor.setSpc].
  rewrite canvasNodes_cases. unfold field at 1. cbn [spread own_entries].
  rewrite lookup_define_own_same. cbn [own_entries].
  unfold service. rewrite Hsvc. cbn [spread].
  rewrite define_own_position, (define_own_present _ _ _ _ Hsvc).
  now apply nodes_from_set_position.
Qed.

Lemma moveNode_moves_one_node_witness :
  exists pst',
    PipelineEditor.moveNode "m1" (JObj [("x", JNum 40); ("y", JNum 60)])
      (PipelineEditor.setSpc two_services
         (PipelineEditor.initial "2025-01-01T00:00:00.000Z")) = inr pst'.
Proof.
  assert (Hnd : NoDup (map fst (services_of two_services))).
  { repeat constructor; cbn; intuition discriminate. }
  destruct (PipelineEditor.canvasNodes two_services) as [e | nodes] eqn:Hc;
    [discriminate Hc |].
  assert (Hin : In "m1" (map PipelineEditor.node_id nodes)).
  { inversion Hc. cbn. tauto. }
  destruct (moveNode_moves_one_node "m1" (JObj [("x", JNum 40); ("y", JNum 60)])
              (PipelineEditor.setSpc two_services
                 (PipelineEditor.initial "2025-01-01T00:00:00.000Z"))
              nodes eq_refl Hnd Hc Hin) as (pst' & Hm & _).
  exists pst'. exact Hm.
Defined.

(** * Two runs of one document *)

Lemma running_assign_lastRun (now : string) (svc : JSON) :
  running (assign "lastRun" (JStr now) svc) = running svc.
Proof.
  destruct svc; try reflexivity.
  unfold running, field. cbn [assign spread own_entries].
  now rewrite lookup_set_prop_other by discriminate.
Qed.

(** A service that does not run keeps its [lastRun] when the readings of
    a run are left out. *)
Lemma forget_running_keeps_stopped (svc : JSON) :
  running svc = false -> forget_running_lastRun svc = svc.
Proof.
  intros H. unfold forget_running_lastRun. now rewrite H.
Qed.

Lemma forget_running_assign (now : string) (svc : JSON) :
  running svc = true ->
  forget_running_lastRun (assign "lastRun" (JStr now) svc)
  = forget_running_lastRun svc.
Proof.
  intros H. unfold forget_running_lastRun.
  rewrite running_assign_lastRun, H. apply forget_assign_lastRun.
Qed.

Lemma touch_forget_running (now : string) (svc svc' : JSON) (read : bool) :
  touch now svc = inr (svc', read) ->
  forget_running_lastRun svc' = forget_running_lastRun svc.
Proof.
  rewrite touch_cases. intros H.
  destruct (running svc) eqn:E.
  - destruct svc; try discriminate H; inversion H; subst;
      first [reflexivity | exact (forget_running_assign now _ E)].
  - destruct svc; try discriminate H; inversion H; reflexivity.
Qed.

Lemma forEach_service_forget_running (clock : nat -> string) entries :
  forall n,
    map forget_running_entry (fst (forEach_service clock n entries))
    = map forget_running_entry entries.
Proof.
  induction entries as [| [k v] rest IH]; intros n; [reflexivity |].
  cbn [forEach_service].
  destruct (touch (clock n) v) as [e | [v' read]] eqn:Et; [reflexivity |].
  specialize (IH (if read then S n else n)).
  destruct (forEach_service clock (if read then S n else n) rest) as [rest' e].
  cbn [fst map] in *. f_equal; [| exact IH].
  unfold forget_running_entry. cbn [fst snd]. f_equal.
  exact (touch_forget_running _ _ _ _ Et).
Qed.

Lemma scan_services_forget_running (clock : nat -> string) (container : JSON) :
  forget_running_container (fst (scan_services clock container))
  = forget_running_container container.
Proof.
  destruct container; try reflexivity; cbn [scan_services].
  - pose proof (forEach_service_forget_running clock (indexed 0 items) 0) as H.
    destruct (forEach_service clock 0 (indexed 0 items)) as [entries e].
    cbn [fst forget_running_container] in *. f_equal.
    apply (f_equal (map snd)) in H. rewrite !map_map in H.
    rewrite map_map.
    etransitivity; [exact H |].
    rewrite <- (indexed_values items 0) at 2. now rewrite map_map.
  - pose proof (forEach_service_forget_running clock props 0) as H.
    destruct (forEach_service clock 0 props) as [props' e].
    cbn [fst forget_running_container] in *. now rewrite H.
Qed.

Lemma set_services_forget_running (c c' : JSON) props :
  lookup "services" props = Some c ->
  forget_running_container c' = forget_running_container c ->
  map forget_running_services (set_prop "services" c' props)
  = map forget_running_services props.
Proof.
  intros Hl Hc. induction props as [| [k v] rest IH]; [discriminate Hl |].
  cbn [lookup] in Hl. cbn [set_prop].
  destruct (String.eqb_spec k "services") as [-> | Hne].
  - inversion Hl; subst v. cbn [map]. f_equal.
    unfold forget_running_services. cbn [fst snd].
    now rewrite String.eqb_refl, Hc.
  - cbn [map]. f_equal. exact (IH Hl).
Qed.

(** A tick leaves the document as it was, up to the [lastRun] of the
    running services, also when its scan ends in an exception. *)
Lemma tick_update_forget_running (clock : nat -> string) (d : JSON) :
  forget_running_clock (fst (tick_update clock d)) = forget_running_clock d.
Proof.
  unfold tick_update.
  destruct (lookup "services" (spread (Some d))) as [c |] eqn:Hl; [| reflexivity].
  pose proof (scan_services_forget_running clock c) as Hs.
  destruct (scan_services clock c) as [c' e]. cbn [fst] in Hs.
  assert (H : forget_running_clock (JObj (set_prop "services" c' (spread (Some d))))
              = forget_running_clock d).
  { destruct d; cbn [spread own_entries] in Hl |- *; try discriminate Hl;
      try (rewrite lookup_indexed_not_numeral in Hl by reflexivity;
           discriminate Hl).
    cbn [forget_running_clock]. f_equal.
    exact (set_services_forget_running _ _ _ Hl Hs). }
  destruct c; try exact H. reflexivity.
Qed.

Lemma intervalFires_forget_running h tick_now clock done_now st :
  forget_running_clock
    (EnhancedPipelineEditor.spc (intervalFires h tick_now clock done_now st))
  = forget_running_clock (EnhancedPipelineEditor.spc st).
Proof.
  destruct (intervalFires_spc h tick_now clock done_now st) as [-> | ->];
    [reflexivity | apply tick_update_forget_running].
Qed.

Lemma fires_forget_running h c count :
  forall k st,
    forget_running_clock (EnhancedPipelineEditor.spc (exec (fires h c k count) st))
    = forget_running_clock (EnhancedPipelineEditor.spc st).
Proof.
  induction count as [| count IH]; intros k st; [reflexivity |].
  cbn [fires exec fold_left step].
  etransitivity; [apply IH |]. apply intervalFires_forget_running.
Qed.

(** A whole run leaves the document as it was, up to the [lastRun] of
    the running services. *)
Lemma run_forget_running c st :
  forget_running_clock (EnhancedPipelineEditor.spc (run c st))
  = forget_running_clock (EnhancedPipelineEditor.spc st).
Proof.
  unfold run. cbn [exec fold_left].
  etransitivity; [apply fires_forget_running |].
  cbn [step]. destruct (crashed st); reflexivity.
Qed.

(** C2, as the code has it.  Two runs of the same editor state, under
    any two clocks, end with the same document up to the [lastRun] of
    the running services (a service that does not run is the same in
    both, [lastRun] included), the same log entries up to their
    timestamps, and the same flags and tick counters; both leave the
    [state] of the document as it was.  (No run computes a hash: there
    is no ledger.) *)
Theorem two_runs_agree_up_to_clock (c1 c2 : RunClock)
    (st : EnhancedPipelineEditor.Editor) :
  same_up_to_running_clock (run c1 st) (run c2 st)
  /\ field "state" (EnhancedPipelineEditor.spc (run c1 st))
     = field "state" (EnhancedPipelineEditor.spc st)
  /\ field "state" (EnhancedPipelineEditor.spc (run c2 st))
     = field "state" (EnhancedPipelineEditor.spc st).
Proof.
  destruct (run_same_up_to_clock c1 c2 st) as (_ & Hl & Hr & Ht & Hc & Hs).
  split.
  - split; [now rewrite !run_forget_running |].
    repeat split; assumption.
  - split; apply run_other_field; discriminate.
Qed.

(** C2, the claim as stated, fails on a document that the editor built
    itself.  A connector is added from the palette and set to running in
    the inspector; two runs of that one state at different times end
    with different documents (the [lastRun] of the connector) and
    different logs (the timestamps). *)
Lemma two_runs_differ :
  let st := running_connector "2025-01-01T00:00:00.000Z" in
  let r1 := run (frozen_clock "12:00:00" "2025-01-01T12:00:00.000Z") st in
  let r2 := run (frozen_clock "18:30:00" "2025-06-01T18:30:00.000Z") st in
  EnhancedPipelineEditor.spc st
  = JObj [ ("spc_version", JStr "1.0");
           ("meta", JObj [ ("name", JStr "My Pipeline");
                           ("created_at", JStr "2025-01-01T00:00:00.000Z") ]);
           ("services",
            JObj [ ("connector-1730000000000",
                    JObj [ ("id", JStr "connector-1730000000000");
                           ("type", JStr "connector");
                           ("title", JStr "connector 1");
                           ("spec",
                            JObj [ ("url", JStr "https://api.example.com/data");
                                   ("outputKey", JStr "connector_data") ]);
                           ("status", JStr "running");
                           ("position",
                            JObj [("x", JNum 300); ("y", JNum 200)]) ]) ]);
           ("state", JObj []) ]
  /\ crashed st = None
  /\ crashed r1 = None
  /\ crashed r2 = None
  /\ service_field "lastRun" "connector-1730000000000" (EnhancedPipelineEditor.spc r1)
     = Some (JStr "2025-01-01T12:00:00.000Z")
  /\ service_field "lastRun" "connector-1730000000000" (EnhancedPipelineEditor.spc r2)
     = Some (JStr "2025-06-01T18:30:00.000Z")
  /\ EnhancedPipelineEditor.spc r1 <> EnhancedPipelineEditor.spc r2
  /\ map timestamp (logs r1) = "11:59:00" :: repeat "12:00:00" 7
  /\ map timestamp (logs r2) = "11:59:00" :: repeat "18:30:00" 7
  /\ logs r1 <> logs r2.
Proof.
  cbv zeta. repeat split; try (vm_compute; reflexivity).
  - intros H.
    apply (f_equal (service_field "lastRun" "connector-1730000000000")) in H.
    vm_compute in H. discriminate H.
  - intros H. apply (f_equal (map timestamp)) in H.
    vm_compute in H. discriminate H.
Qed.
